(** * Motion correction of diffusion MRI series: [scripts/sct_dmri_moco.py]

    A shallow embedding of [dmri_moco], the orchestration of the motion
    correction: identification of the b=0 and DWI volumes, construction of
    the DWI groups, the two estimation passes, the book-keeping on the
    transformation matrices ([cp] and [mv] on [mat.T<t>_Z<z>.txt] files) and
    the final apply pass.

    Python integers are [Z] (or [nat] where the code only counts upwards
    from zero), Python lists are [list], the mutable global [param] object
    is a record threaded through a state monad, and the matrix files are a
    finite map from file names to file contents.  The registration engine
    ([msct_moco]) and the shell are collaborators that the script only
    calls; they are taken as a parameter ([world]).

    [main], the command line around it, is embedded as well: the options,
    the temporary folder, the call of [dmri_moco] and the output files.

    The first part is the embedding, the second part the vocabulary of the
    statements, the third part the properties. *)

From Stdlib Require Import ZArith Ascii Floats.PrimFloat.
From stdpp Require Import base option list sorting strings gmap pretty.

Local Open Scope Z_scope.
Local Open Scope nat_scope.

(** ** Exceptions and results *)

(** The exception classes a run can end with.  The first five are the
    built-in exceptions of the list, integer, float and numpy operations
    the script uses.  [EngineFailure] stands for a failing external
    command, and the last two are the error kinds the specification names
    for bad input; the script itself contains no [raise] statement. *)
Inductive exn :=
  | IndexError
  | ZeroDivisionError
  | ValueError
  | OverflowError
  | EngineFailure
  | ConfigurationError
  | MalformedGradientTable.

Inductive result (A : Type) :=
  | Ok (a : A)
  | Raise (e : exn).
Arguments Ok {A} a.
Arguments Raise {A} e.

#[export] Instance result_ret : MRet result := λ A a, Ok a.
#[export] Instance result_bind : MBind result := λ A B k r,
  match r with
  | Ok a => k a
  | Raise e => Raise e
  end.

(** ** Python sequences *)

Module Py.

(** [l[i]]: a negative index counts from the end, anything out of range
    raises [IndexError]. *)
Definition index {A} (l : list A) (i : Z) : result A :=
  let n := Z.of_nat (length l) in
  let j := if (i <? 0)%Z then (n + i)%Z else i in
  if (j <? 0)%Z then Raise IndexError
  else match l !! Z.to_nat j with
       | Some x => Ok x
       | None => Raise IndexError
       end.

(** A bound of a slice [l[a:b]]: negative bounds count from the end and
    every bound is clamped to [0..len]. *)
Definition slice_bound (n i : Z) : Z :=
  if (i <? 0)%Z then Z.max 0 (n + i) else Z.min n i.

(** [l[a:b]] *)
Definition slice {A} (l : list A) (a b : Z) : list A :=
  let n := Z.of_nat (length l) in
  let a' := slice_bound n a in
  let b' := slice_bound n b in
  take (Z.to_nat (b' - a')) (drop (Z.to_nat a') l).

(** [range(n)] *)
Definition range (n : Z) : list nat := seq 0 (Z.to_nat n).

(** [zip] applied to the rows as its arguments: the list of columns, cut
    at the shortest row. *)
Fixpoint zip_star {A} (rows : list (list A)) : list (list A) :=
  match rows with
  | [] => []
  | r :: rs =>
      match rs with
      | [] => (λ x, [x]) <$> r
      | _ :: _ => zip_with cons r (zip_star rs)
      end
  end.

(** [str(n)] for a non-negative integer. *)
Definition str (n : nat) : string := pretty n.

(** [s.zfill(w)] for a string without sign. *)
Fixpoint zeros (n : nat) : string :=
  match n with
  | O => ""
  | S n' => String "0"%char (zeros n')
  end.
Definition zfill (w : nat) (s : string) : string :=
  zeros (w - String.length s) +:+ s.

(** Truth value of an integer (the [-e], [-f] flags). *)
Definition truthy (n : Z) : bool := negb (n =? 0)%Z.

End Py.

(** ** Floating point numbers

    The gradient components are Python floats.  Their arithmetic is kept
    behind an interface: the operations the script applies to them, each
    with the exceptions it can raise.  [x**2] raises [OverflowError] when
    the square is out of range, [math.fsum] raises [OverflowError] on an
    overflow and [ValueError] on the sum of opposite infinities, and
    [math.sqrt] raises [ValueError] on a negative number. *)
Class PyFloat (F : Type) := {
  fpow2 : F → result F;          (* [x**2] *)
  fsum : list F → result F;      (* [math.fsum] *)
  fsqrt : F → result F;          (* [math.sqrt] *)
  flt : F → F → bool;            (* [<] *)
  f_0_01 : F;                    (* the literal [0.01] *)
  fpow2_raises : ∀ x e, fpow2 x = Raise e → e = OverflowError;
  fsum_raises : ∀ l e, fsum l = Raise e → e = OverflowError ∨ e = ValueError;
  fsqrt_raises : ∀ x e, fsqrt x = Raise e → e = ValueError
}.

(** IEEE binary64, the floats of CPython: the operations as the
    interpreter has them in [floatobject.c] and [mathmodule.c], on the
    additions, subtractions, multiplications and square roots of the
    processor. *)
Module Float64.

(** [x ** 2] in [float_pow]: the special values first, then the [pow] of
    the C library on the absolute value, [pow2 v] being [pow(v, 2.0)]; a
    result out of range is an [OverflowError], an underflow is not an
    error. *)
Definition float_pow2 (pow2 : float → float) (x : float) : result float :=
  if is_nan x then Ok x
  else if is_infinity x then Ok infinity
  else if (x =? 0)%float then Ok 0%float
  else
    let v := abs x in
    if (v =? 1)%float then Ok 1%float
    else
      let r := pow2 v in
      if is_infinity r then Raise OverflowError else Ok r.

(** [math.fsum] keeps a list of partial sums that do not overlap, the
    smallest first.  A summand goes through the partials: each addition is
    made exact by the error [lo] it leaves behind. *)
Fixpoint fsum_partials (x : float) (partials : list float) : float * list float :=
  match partials with
  | [] => (x, [])
  | y :: partials' =>
      let '(x, y) := if (abs x <? abs y)%float then (y, x) else (x, y) in
      let hi := (x + y)%float in
      let yr := (hi - x)%float in
      let lo := (y - yr)%float in
      let '(x', kept) := fsum_partials hi partials' in
      (x', if negb (lo =? 0)%float then lo :: kept else kept)
  end.

(** The loop over the summands.  A sum that is not finite comes from an
    overflow, which is an error, or from a summand that is not finite,
    which is put aside in [special_sum] and [inf_sum]. *)
Fixpoint fsum_loop (l : list float) (partials : list float)
    (special_sum inf_sum : float) : result (list float * float * float) :=
  match l with
  | [] => Ok (partials, special_sum, inf_sum)
  | xsave :: l' =>
      let '(x, kept) := fsum_partials xsave partials in
      if negb (x =? 0)%float then
        if negb (is_finite x) then
          if is_finite xsave then Raise OverflowError
          else
            fsum_loop l' [] (special_sum + xsave)%float
              (if is_infinity xsave then (inf_sum + xsave)%float else inf_sum)
        else fsum_loop l' (kept ++ [x]) special_sum inf_sum
      else fsum_loop l' kept special_sum inf_sum
  end.

(** The partials added from the largest down, until an addition is not
    exact, and the correction that makes the rounding half-even across
    partials. *)
Fixpoint fsum_top (hi : float) (below : list float) : float :=
  match below with
  | [] => hi
  | y :: below' =>
      let x := hi in
      let hi := (x + y)%float in
      let yr := (hi - x)%float in
      let lo := (y - yr)%float in
      if negb (lo =? 0)%float then
        match below' with
        | next :: _ =>
            if ((lo <? 0) && (next <? 0) || (0 <? lo) && (0 <? next))%float then
              let y := (lo * 2)%float in
              let x := (hi + y)%float in
              let yr := (x - hi)%float in
              if (y =? yr)%float then x else hi
            else hi
        | [] => hi
        end
      else fsum_top hi below'
  end.

Definition math_fsum (l : list float) : result float :=
  '(partials, special_sum, inf_sum) ← fsum_loop l [] 0%float 0%float;
  if negb (special_sum =? 0)%float then
    if is_nan inf_sum then Raise ValueError else Ok special_sum
  else
    Ok (match rev partials with
        | [] => 0%float
        | hi :: below => fsum_top hi below
        end).

(** [math.sqrt]: "math domain error" when the result is not a number and
    the argument is one. *)
Definition math_sqrt (x : float) : result float :=
  let r := sqrt x in
  if is_nan r && negb (is_nan x) then Raise ValueError else Ok r.

End Float64.

(** The floats of CPython on a C library whose [pow(x, 2.0)] is [pow2]:
    [pow] is not among the sources and differs from one C library to the
    other in the last place, so it is a parameter.  Nothing below depends
    on it but the examples. *)
Definition binary64 (pow2 : float → float) : PyFloat float.
Proof.
  refine {|
    fpow2 := Float64.float_pow2 pow2;
    fsum := Float64.math_fsum;
    fsqrt := Float64.math_sqrt;
    flt := PrimFloat.ltb;
    f_0_01 := 0x1.47ae147ae147bp-7%float
  |}.
  - intros x e. unfold Float64.float_pow2. repeat case_match; congruence.
  - intros l e. unfold Float64.math_fsum.
    assert (∀ l partials special_sum inf_sum e,
              Float64.fsum_loop l partials special_sum inf_sum = Raise e →
              e = OverflowError) as Hloop.
    { clear. intros l. induction l as [|x l IH]; intros partials special_sum inf_sum e;
        cbn [Float64.fsum_loop]; [done|].
      repeat case_match; try congruence; apply IH. }
    destruct (Float64.fsum_loop l [] 0%float 0%float)
      as [[[partials special_sum] inf_sum]|e'] eqn:Hl; cbn.
    + repeat case_match; intros [= <-]; by right.
    + intros [= <-]. left. by eapply Hloop.
  - intros x e. unfold Float64.math_sqrt. case_match; congruence.
Defined.

(** For the examples: a C library whose [pow] rounds the square to the
    nearest float, which is what the multiplication of the processor
    gives.  The [pow] of a given library can be one unit in the last place
    away from it where the square is not a float; the tables of the
    examples have components 0, 1 and -1, on which [pow] is not called,
    and components whose squares are floats or overflow. *)
Definition pow2_nearest (x : float) : float := (x * x)%float.

#[export] Instance binary64_nearest : PyFloat float := binary64 pow2_nearest.

(** ** Identification of the b=0 and DWI volumes (vector form) *)

Section Bvecs.
Context {F : Type} `{PyFloat F}.

Definition table : Type := list (list F).

(** [[i**2 for i in row]]: the squares, from the first component on. *)
Fixpoint squares (row : list F) : result (list F) :=
  match row with
  | [] => Ok []
  | i :: row' => x ← fpow2 i; xs ← squares row'; Ok (x :: xs)
  end.

(** [math.sqrt(math.fsum([i**2 for i in row])) < 0.01] *)
Definition norm (row : list F) : result F :=
  xs ← squares row; total ← fsum xs; fsqrt total.
Definition is_b0 (row : list F) : result bool :=
  n ← norm row; Ok (flt n f_0_01).

(** The loop [for it in xrange(0,nt)] with its two accumulators. *)
Fixpoint identify_loop (bvecs : table) (its : list nat)
    (index_b0 index_dwi : list nat) : result (list nat * list nat) :=
  match its with
  | [] => Ok (index_b0, index_dwi)
  | it :: its' =>
      row ← Py.index bvecs (Z.of_nat it);
      b0 ← is_b0 row;
      if b0 : bool
      then identify_loop bvecs its' (index_b0 ++ [it]) index_dwi
      else identify_loop bvecs its' index_b0 (index_dwi ++ [it])
  end.

Definition identify (bvecs : table) (nt : nat) : result (list nat * list nat) :=
  identify_loop bvecs (seq 0 nt) [] [].

End Bvecs.

(** ** Identification of the b=0 and DWI volumes (scalar form)

    Lines 267-283, run when a bvals file is given.  [bvals] is the Python
    list of the parsed lines, and the script compares that list itself
    with the integers 429 and 4000.  CPython 2 orders objects of different
    types that are not both numbers by the names of their types, a number
    coming before anything else: a list is greater than every integer,
    whatever the list holds.  [np.where] of a Python boolean is the tuple
    of one array, the positions at which the 0-dimensional array is true:
    [(array([0]),)] or [(array([]),)]. *)
Module Bvals.

Definition list_gt_int {A} (l : list A) (n : Z) : bool := true.
Definition list_ge_int {A} (l : list A) (n : Z) : bool := true.
Definition list_lt_int {A} (l : list A) (n : Z) : bool := false.
Definition list_le_int {A} (l : list A) (n : Z) : bool := false.

Definition np_where (condition : bool) : list (list nat) :=
  [if condition then [0] else []].

(** [index_b0], [index_dwi], [n_b0] and [n_dwi]; the last two are the
    lengths of the tuples. *)
Definition identify {A} (bvals : list (list A))
    : list (list nat) * list (list nat) * Z * Z :=
  let index_b0 := np_where (list_gt_int bvals 429 && list_lt_int bvals 4000) in
  let index_dwi := np_where (list_le_int bvals 429 || list_ge_int bvals 4000) in
  let n_b0 := Z.of_nat (length index_b0) in
  let n_dwi := Z.of_nat (length index_dwi) in
  (index_b0, index_dwi, n_b0, n_dwi).

End Bvals.

(** ** The DWI groups *)

(** "Number of DWI groups", "Generate groups indexes" and "add the remaining
    images to the last DWI group".  [n_dwi/dwi_group_size] is the integer
    division of Python 2, which rounds towards minus infinity like [Z.div],
    and [%] takes the sign of the divisor like [Z.modulo]; both raise
    [ZeroDivisionError] on a zero divisor. *)
Definition build_groups (index_dwi : list nat) (n_dwi : Z) (dwi_group_size : Z)
    : result (Z * list (list nat)) :=
  if (dwi_group_size =? 0)%Z then Raise ZeroDivisionError else
  let nb_groups := (n_dwi / dwi_group_size)%Z in
  let group_indexes : list (list nat) :=
    (λ iGroup : nat,
       Py.slice index_dwi (Z.of_nat iGroup * dwi_group_size)
                          ((Z.of_nat iGroup + 1) * dwi_group_size))
      <$> Py.range nb_groups in
  let nb_remaining := (n_dwi `mod` dwi_group_size)%Z in
  if (0 <? nb_remaining)%Z
  then
    let len := Z.of_nat (length index_dwi) in
    Ok ((nb_groups + 1)%Z,
        group_indexes ++ [Py.slice index_dwi (len - nb_remaining) len])
  else Ok (nb_groups, group_indexes).

(** ** Commands on a state

    A command runs on a state, leaves a state behind and either returns or
    raises: an exception aborts the run but does not undo what the commands
    before it did to the files. *)

Definition ST (S A : Type) : Type := S → S * result A.

#[export] Instance ST_ret {S} : MRet (ST S) := λ A a s, (s, Ok a).
#[export] Instance ST_bind {S} : MBind (ST S) := λ A B k m s,
  match m s with
  | (s', Ok a) => k a s'
  | (s', Raise e) => (s', Raise e)
  end.

Definition lift {S A} (r : result A) : ST S A := λ s, (s, r).
Definition gets {S A} (f : S → A) : ST S A := λ s, (s, Ok (f s)).
Definition modify {S} (f : S → S) : ST S unit := λ s, (f s, Ok tt).

(** [for x in l: body] *)
Fixpoint for_ {S A} (l : list A) (body : A → ST S unit) : ST S unit :=
  match l with
  | [] => mret tt
  | x :: l' => body x ;; for_ l' body
  end.

(** ** The transformation matrices on disk

    The script names a matrix file [folder+'mat.T'+str(t)+'_Z'+str(z)+'.txt'];
    the folder, [t] and [z] identify it ([mat_path_inj] below), and they
    are the key of the file in the file map.  [mat] is the content of such
    a file. *)

Abbreviation matfile := (string * nat * nat)%type.

Definition mat_path (f : matfile) : string :=
  f.1.1 +:+ "mat.T" +:+ Py.str f.1.2 +:+ "_Z" +:+ Py.str f.2 +:+ ".txt".

Definition mat_dwigroups : string := "mat_dwigroups/".
Definition mat_b0groups : string := "mat_b0groups/".

Section Matrices.
Context {mat : Type}.

Local Abbreviation store := (gmap matfile mat).

(** [sct.run('cp '+src+' '+dst)]: the command fails when the source does
    not exist or is the destination itself, and a failing command aborts
    the run (see [run] below). *)
Definition cp (src dst : matfile) : ST store unit := λ fs,
  match fs !! src with
  | Some m => if decide (src = dst) then (fs, Raise EngineFailure)
              else (<[dst:=m]> fs, Ok tt)
  | None => (fs, Raise EngineFailure)
  end.

(** [sct.run('mv '+src+' '+dst)] *)
Definition mv (src dst : matfile) : ST store unit := λ fs,
  match fs !! src with
  | Some m => if decide (src = dst) then (fs, Raise EngineFailure)
              else (<[dst:=m]> (delete src fs), Ok tt)
  | None => (fs, Raise EngineFailure)
  end.

(** [len(glob.glob(folder+'mat.T0_Z*.txt'))] and
    [len(glob.glob(folder+'mat.T*_Z0.txt'))]: among the matrix files of
    the folder, those of volume 0 and those of slice 0. *)
Definition glob_T0 (folder : string) (fs : store) : nat :=
  size (filter (λ kv : matfile * mat, kv.1.1.1 = folder ∧ kv.1.1.2 = 0) fs).
Definition glob_Z0 (folder : string) (fs : store) : nat :=
  size (filter (λ kv : matfile * mat, kv.1.1.1 = folder ∧ kv.1.2 = 0) fs).

(** "Copy registration matrix for every dwi based on dwi_averaged_groups" *)
Definition copy_groups (nb_groups : Z) (group_indexes : list (list nat))
    (nz : nat) (mat_final : string) : ST store unit :=
  for_ (Py.range nb_groups) (λ iGroup,
    g ← lift (Py.index group_indexes (Z.of_nat iGroup));
    for_ (Py.range (Z.of_nat (length g))) (λ dwi,
      for_ (Py.range (Z.of_nat nz)) (λ i_Z,
        g' ← lift (Py.index group_indexes (Z.of_nat iGroup));
        t ← lift (Py.index g' (Z.of_nat dwi));
        cp (mat_dwigroups, iGroup, i_Z) (mat_final, t, i_Z)))).

(** [np.argmin]: the first position of the least element; [ValueError]
    on an empty sequence. *)
Fixpoint argmin_from (best_i : nat) (best : Z) (i : nat) (l : list Z) : nat :=
  match l with
  | [] => best_i
  | x :: l' => if (x <? best)%Z then argmin_from i x (S i) l'
               else argmin_from best_i best (S i) l'
  end.
Definition np_argmin (l : list Z) : result nat :=
  match l with
  | [] => Raise ValueError
  | x :: l' => Ok (argmin_from 0 x 1 l')
  end.

(** [np.argmin(np.abs(np.array(index_dwi) - index_b0[len(index_b0)-1]))] *)
Definition bridge_index (index_b0 index_dwi : list nat) : result nat :=
  last_b0 ← Py.index index_b0 (Z.of_nat (length index_b0) - 1);
  np_argmin ((λ d, Z.abs (Z.of_nat d - Z.of_nat last_b0)) <$> index_dwi).

(** The copy of the matrices of one DWI volume onto every b=0 volume. *)
Definition copy_bridge (index_b0 index_dwi : list nat) (nz : nat)
    (mat_final : string) : ST store unit :=
  index ← lift (bridge_index index_b0 index_dwi);
  for_ (Py.range (Z.of_nat (length index_b0))) (λ b0,
    for_ (Py.range (Z.of_nat nz)) (λ i_Z,
      d ← lift (Py.index index_dwi (Z.of_nat index));
      b ← lift (Py.index index_b0 (Z.of_nat b0));
      cp (mat_final, d, i_Z) (mat_final, b, i_Z))).

(** "Renaming Files" *)
Definition rename_b0 (index_b0 : list nat) : ST store unit :=
  nz1 ← gets (glob_T0 mat_b0groups);
  nt1 ← gets (glob_Z0 mat_b0groups);
  for_ (Py.range (Z.of_nat nt1)) (λ iT,
    b ← lift (Py.index index_b0 (Z.of_nat iT));
    if decide (iT ≠ b) then
      for_ (Py.range (Z.of_nat nz1)) (λ iZ,
        b' ← lift (Py.index index_b0 (Z.of_nat iT));
        mv (mat_b0groups, iT, iZ) (mat_b0groups, b', iZ))
    else mret tt).

End Matrices.

(** ** The configuration object

    [param] is one mutable object shared by the script and the functions of
    [msct_moco] it calls: each call reads the fields as they are at that
    moment.  The fields [dmri_moco] neither reads nor writes (mask, cost
    function, centerline, ...) are left out; [mat_2_combine] is the
    attribute the function adds to the object. *)
Record param := {
  fname_data : string;
  fname_bvecs : string;
  fname_bvals : string;
  fname_target : string;
  path_out : string;
  mat_final : string;
  mat_moco : string;
  todo : string;
  dwi_group_size : Z;
  suffix : string;
  interp : string;
  spline_fitting : Z;
  verbose : Z;
  plot_graph : Z;
  run_eddy : Z;
  mat_2_combine : string
}.

Definition set_fname_data (v : string) (p : param) : param :=
  {| fname_data := v; fname_bvecs := fname_bvecs p; fname_bvals := fname_bvals p;
     fname_target := fname_target p; path_out := path_out p; mat_final := mat_final p;
     mat_moco := mat_moco p; todo := todo p; dwi_group_size := dwi_group_size p;
     suffix := suffix p; interp := interp p; spline_fitting := spline_fitting p;
     verbose := verbose p; plot_graph := plot_graph p; run_eddy := run_eddy p;
     mat_2_combine := mat_2_combine p |}.
Definition set_fname_target (v : string) (p : param) : param :=
  {| fname_data := fname_data p; fname_bvecs := fname_bvecs p; fname_bvals := fname_bvals p;
     fname_target := v; path_out := path_out p; mat_final := mat_final p;
     mat_moco := mat_moco p; todo := todo p; dwi_group_size := dwi_group_size p;
     suffix := suffix p; interp := interp p; spline_fitting := spline_fitting p;
     verbose := verbose p; plot_graph := plot_graph p; run_eddy := run_eddy p;
     mat_2_combine := mat_2_combine p |}.
Definition set_path_out (v : string) (p : param) : param :=
  {| fname_data := fname_data p; fname_bvecs := fname_bvecs p; fname_bvals := fname_bvals p;
     fname_target := fname_target p; path_out := v; mat_final := mat_final p;
     mat_moco := mat_moco p; todo := todo p; dwi_group_size := dwi_group_size p;
     suffix := suffix p; interp := interp p; spline_fitting := spline_fitting p;
     verbose := verbose p; plot_graph := plot_graph p; run_eddy := run_eddy p;
     mat_2_combine := mat_2_combine p |}.
Definition set_mat_final (v : string) (p : param) : param :=
  {| fname_data := fname_data p; fname_bvecs := fname_bvecs p; fname_bvals := fname_bvals p;
     fname_target := fname_target p; path_out := path_out p; mat_final := v;
     mat_moco := mat_moco p; todo := todo p; dwi_group_size := dwi_group_size p;
     suffix := suffix p; interp := interp p; spline_fitting := spline_fitting p;
     verbose := verbose p; plot_graph := plot_graph p; run_eddy := run_eddy p;
     mat_2_combine := mat_2_combine p |}.
Definition set_mat_moco (v : string) (p : param) : param :=
  {| fname_data := fname_data p; fname_bvecs := fname_bvecs p; fname_bvals := fname_bvals p;
     fname_target := fname_target p; path_out := path_out p; mat_final := mat_final p;
     mat_moco := v; todo := todo p; dwi_group_size := dwi_group_size p;
     suffix := suffix p; interp := interp p; spline_fitting := spline_fitting p;
     verbose := verbose p; plot_graph := plot_graph p; run_eddy := run_eddy p;
     mat_2_combine := mat_2_combine p |}.
Definition set_todo (v : string) (p : param) : param :=
  {| fname_data := fname_data p; fname_bvecs := fname_bvecs p; fname_bvals := fname_bvals p;
     fname_target := fname_target p; path_out := path_out p; mat_final := mat_final p;
     mat_moco := mat_moco p; todo := v; dwi_group_size := dwi_group_size p;
     suffix := suffix p; interp := interp p; spline_fitting := spline_fitting p;
     verbose := verbose p; plot_graph := plot_graph p; run_eddy := run_eddy p;
     mat_2_combine := mat_2_combine p |}.
Definition set_interp (v : string) (p : param) : param :=
  {| fname_data := fname_data p; fname_bvecs := fname_bvecs p; fname_bvals := fname_bvals p;
     fname_target := fname_target p; path_out := path_out p; mat_final := mat_final p;
     mat_moco := mat_moco p; todo := todo p; dwi_group_size := dwi_group_size p;
     suffix := suffix p; interp := v; spline_fitting := spline_fitting p;
     verbose := verbose p; plot_graph := plot_graph p; run_eddy := run_eddy p;
     mat_2_combine := mat_2_combine p |}.
Definition set_mat_2_combine (v : string) (p : param) : param :=
  {| fname_data := fname_data p; fname_bvecs := fname_bvecs p; fname_bvals := fname_bvals p;
     fname_target := fname_target p; path_out := path_out p; mat_final := mat_final p;
     mat_moco := mat_moco p; todo := todo p; dwi_group_size := dwi_group_size p;
     suffix := suffix p; interp := interp p; spline_fitting := spline_fitting p;
     verbose := verbose p; plot_graph := plot_graph p; run_eddy := run_eddy p;
     mat_2_combine := v |}.

(** ** What a run does to the outside

    The calls that leave the script, in the order they are made.  Progress
    messages are not recorded, warnings are; the [cp] and [mv] commands on
    matrix files are not recorded either, they act on the file map. *)
Inductive event :=
  | Printv (msg type : string)
  | Run (cmd : string)
  | Moco (p : param)
  | CombineMatrix (p : param)
  | Spline (folder : string) (nt nz : nat) (verbose : Z) (index_b0 : list nat)
      (graph : Z).

(** ** The script *)

Section Script.
Context {F : Type} `{PyFloat F} {mat : Type}.

Local Abbreviation store := (gmap matfile mat).

(** The collaborators: [sct_utils], [msct_moco], the shell and the files
    read.  [sh cmd] tells whether the command exits with status 0; the
    functions of [msct_moco] that are given the [param] object read it
    and may write to it, rewrite the matrix files and may fail. *)
Record world := {
  extract_fname : string → string * string * string;
  get_dimension : string → nat * nat * nat * nat;
  read_bvecs : string → list (list F);
  sh : string → bool;
  moco : param → store → option (param * store);
  combine_matrix : param → store → option (param * store);
  spline : string → nat → nat → Z → list nat → Z → store → option store
}.

Record state := {
  st_param : param;
  st_fs : store;
  st_trace : list event
}.

Definition log (e : event) : ST state unit :=
  modify (λ s, {| st_param := st_param s; st_fs := st_fs s;
                  st_trace := st_trace s ++ [e] |}).

Definition set_param (f : param → param) : ST state unit :=
  modify (λ s, {| st_param := f (st_param s); st_fs := st_fs s;
                  st_trace := st_trace s |}).

(** A command on the matrix files, run in the whole state. *)
Definition on_files {A} (c : ST store A) : ST state A := λ s,
  let '(fs', r) := c (st_fs s) in
  ({| st_param := st_param s; st_fs := fs'; st_trace := st_trace s |}, r).

Definition printv (msg type : string) : ST state unit := log (Printv msg type).

Variable w : world.

(** Modelled from the spec: [sct.run] of [sct_utils], which is not among
    the sources.  A failing external call is not retried: it is
    propagated and aborts the run. *)
Definition run (cmd : string) : ST state unit :=
  log (Run cmd);;
  if sh w cmd then mret tt else lift (Raise EngineFailure).

(** A call into [msct_moco] with the shared [param] object. *)
Definition call (e : param → event)
    (f : param → store → option (param * store)) : ST state unit :=
  p ← gets st_param;
  log (e p);;
  fs ← gets st_fs;
  match f p fs with
  | Some (p', fs') => modify (λ s, {| st_param := p'; st_fs := fs';
                                      st_trace := st_trace s |})
  | None => lift (Raise EngineFailure)
  end.

(** Lines 246-265: the transposition of a table that is not nx3, and the
    identification of the b=0 and DWI volumes. *)
Definition identify_b0_dwi (bvecs : list (list F)) (nt : nat)
    : ST state (list nat * list nat) :=
  row0 ← lift (Py.index bvecs 0);
  bvecs ←
    (if negb (length row0 =? 3) then
       printv "  WARNING: bvecs file is 3xn instead of nx3. Consider using sct_dmri_transpose_bvecs." "warning";;
       mret (Py.zip_star bvecs)
     else mret bvecs);
  lift (identify bvecs nt).

(** [cmd = cmd + piece(i)] for every [i] of [its]. *)
Fixpoint append_each (cmd : string) (its : list nat)
    (piece : nat → result string) : result string :=
  match its with
  | [] => Ok cmd
  | i :: its' => s ← piece i; append_each (cmd +:+ s) its' piece
  end.

(** The name [fslsplit] gives to volume [t]. *)
Definition volume (file_data : string) (t : nat) : string :=
  file_data +:+ "_T" +:+ Py.zfill 4 (Py.str t).

(** Lines 363-371: the target of the registration of the b=0 volumes. *)
Definition b0_target (file_data : string) (index_b0 index_dwi : list nat)
    : result string :=
  d ← Py.index index_dwi 0;
  if negb (d =? 0) then
    b ← Py.index index_b0 (Z.of_nat d - 1);
    Ok (volume file_data b +:+ ".nii")
  else
    b ← Py.index index_b0 0;
    Ok (volume file_data b +:+ ".nii").

(** The script goes through the steps below, which are named after its
    comments. *)

Definition fsloutput : string := "export FSLOUTPUTTYPE=NIFTI; ".
Definition file_b0 : string := "b0".
Definition file_dwi : string := "dwi".

(** "Split into T dimension", "Merge b=0 images", "Average b=0 images" *)
Definition split_and_average_b0 (fname_data file_data : string)
    (index_b0 : list nat) (n_b0 : Z) : ST state unit :=
  run (fsloutput +:+ "fslsplit " +:+ fname_data +:+ " " +:+ file_data +:+ "_T");;
  let fname_b0_merge := file_b0 in
  cmd ← lift (append_each (fsloutput +:+ "fslmerge -t " +:+ fname_b0_merge)
                (Py.range n_b0)
                (λ iT, b ← Py.index index_b0 (Z.of_nat iT);
                       Ok (" " +:+ volume file_data b)));
  run cmd;;
  let fname_b0_mean := "b0_mean" in
  run (fsloutput +:+ "fslmaths " +:+ fname_b0_merge +:+ " -Tmean " +:+ fname_b0_mean).

(** "DWI groups", "Merge DWI groups means", "Average DW Images" *)
Definition average_groups (file_data : string) (nb_groups : Z)
    (group_indexes : list (list nat)) : ST state unit :=
  for_ (Py.range nb_groups) (λ iGroup,
    index_dwi_i ← lift (Py.index group_indexes (Z.of_nat iGroup));
    let nb_dwi_i := Z.of_nat (length index_dwi_i) in
    let fname_dwi_merge_i := file_dwi +:+ "_" +:+ Py.str iGroup in
    cmd ← lift (append_each (fsloutput +:+ "fslmerge -t " +:+ fname_dwi_merge_i)
                  (Py.range nb_dwi_i)
                  (λ iT, t ← Py.index index_dwi_i (Z.of_nat iT);
                         Ok (" " +:+ volume file_data t)));
    run cmd;;
    let fname_dwi_mean := file_dwi +:+ "_mean_" +:+ Py.str iGroup in
    run (fsloutput +:+ "fslmaths " +:+ fname_dwi_merge_i +:+ " -Tmean " +:+ fname_dwi_mean));;
  let fname_dwi_groups_means_merge := "dwi_averaged_groups" in
  cmd ← lift (append_each (fsloutput +:+ "fslmerge -t " +:+ fname_dwi_groups_means_merge)
                (Py.range nb_groups)
                (λ iGroup, Ok (" " +:+ file_dwi +:+ "_mean_" +:+ Py.str iGroup)));
  run cmd;;
  let fname_dwi_mean := "dwi_mean" in
  run (fsloutput +:+ "fslmaths " +:+ fname_dwi_groups_means_merge +:+ " -Tmean " +:+ fname_dwi_mean).

(** "Estimate moco on dwi groups" *)
Definition estimate_dwi_groups : ST state unit :=
  set_param (set_fname_data "dwi_averaged_groups.nii");;
  set_param (set_fname_target (file_dwi +:+ "_mean_" +:+ Py.str 0));;
  set_param (set_path_out "");;
  set_param (set_todo "estimate_and_apply");;
  set_param (set_mat_moco "mat_dwigroups");;
  set_param (set_interp "trilinear");;
  call Moco (moco w).

(** "Estimate moco on b0 groups" *)
Definition estimate_b0 (file_data : string) (index_b0 index_dwi : list nat)
    : ST state unit :=
  set_param (set_fname_data "b0.nii");;
  target ← lift (b0_target file_data index_b0 index_dwi);
  set_param (set_fname_target target);;
  set_param (set_path_out "");;
  set_param (set_todo "estimate_and_apply");;
  set_param (set_mat_moco "mat_b0groups");;
  set_param (set_interp "trilinear");;
  call Moco (moco w).

(** "Copy registration matrix for every dwi based on dwi_averaged_groups",
    the copy onto the b=0 volumes, "Renaming Files" *)
Definition propagate (nb_groups : Z) (group_indexes : list (list nat))
    (index_b0 index_dwi : list nat) (nz : nat) (mat_final : string)
    : ST state unit :=
  on_files (copy_groups nb_groups group_indexes nz mat_final);;
  on_files (copy_bridge index_b0 index_dwi nz mat_final);;
  on_files (rename_b0 index_b0).

(** "combining Motion Matrices", "Spline Regularization along T",
    "combining eddy Matrices" *)
Definition combine (mat_final : string) (nt nz : nat) (verbose : Z)
    (index_b0 : list nat) : ST state unit :=
  set_param (set_mat_2_combine "mat_b0groups");;
  set_param (set_mat_final mat_final);;
  call CombineMatrix (combine_matrix w);;
  p ← gets st_param;
  (if Py.truthy (spline_fitting p) then
     log (Spline mat_final nt nz verbose index_b0 (plot_graph p));;
     fs ← gets st_fs;
     match spline w mat_final nt nz verbose index_b0 (plot_graph p) fs with
     | Some fs' => modify (λ s, {| st_param := st_param s; st_fs := fs';
                                   st_trace := st_trace s |})
     | None => lift (Raise EngineFailure)
     end
   else mret tt);;
  p ← gets st_param;
  (if Py.truthy (run_eddy p) then
     set_param (set_mat_2_combine "mat_eddy");;
     set_param (set_mat_final mat_final);;
     call CombineMatrix (combine_matrix w)
   else mret tt).

(** "Apply moco on all dmri data", "generate b0_moco_mean and
    dwi_moco_mean" *)
Definition apply_all (fname_data_initial mat_final interp : string)
    : ST state unit :=
  set_param (set_fname_data fname_data_initial);;
  set_param (set_fname_target "b0");;
  set_param (set_path_out "");;
  set_param (set_mat_final mat_final);;
  set_param (set_todo "apply");;
  set_param (set_interp interp);;
  call Moco (moco w);;
  p ← gets st_param;
  run ("sct_dmri_separate_b0_and_dwi.py -i dmri" +:+ suffix p +:+ ".nii -b bvecs.txt -a 1").

(** [dmri_moco(param, fname_data_initial)], run without a bvals file
    ([param.fname_bvals == '']).  With a bvals file the identification is
    [Bvals.identify] above, and the sequences the script goes on with are
    then tuples of numpy arrays, not lists of integers; that run is not
    followed further here. *)
Definition dmri_moco (fname_data_initial : string) : ST state unit :=
  p0 ← gets st_param;
  let fname_data := fname_data p0 in
  let fname_bvecs := fname_bvecs p0 in
  let dwi_group_size := dwi_group_size p0 in
  let interp := interp p0 in
  let verbose := verbose p0 in
  let '(path_data, file_data, ext_data) := extract_fname w fname_data in
  let '(nx, ny, nz, nt) := get_dimension w fname_data in
  '(index_b0, index_dwi) ← identify_b0_dwi (read_bvecs w fname_bvecs) nt;
  let n_b0 := Z.of_nat (length index_b0) in
  let n_dwi := Z.of_nat (length index_dwi) in
  split_and_average_b0 fname_data file_data index_b0 n_b0;;
  '(nb_groups, group_indexes) ← lift (build_groups index_dwi n_dwi dwi_group_size);
  average_groups file_data nb_groups group_indexes;;
  estimate_dwi_groups;;
  estimate_b0 file_data index_b0 index_dwi;;
  let mat_final := "mat_final/" in
  propagate nb_groups group_indexes index_b0 index_dwi nz mat_final;;
  combine mat_final nt nz verbose index_b0;;
  apply_all fname_data_initial mat_final interp.

End Script.

(** ** The command line

    [main]: the options, the temporary folder, the call of [dmri_moco] and
    the output files.  It runs in a process that can also leave by
    [sys.exit] or by an exception that nothing catches. *)

(** [x in s] for two strings: [x] is a substring of [s]. *)
Fixpoint py_in (x s : string) : bool :=
  String.prefix x s ||
  match s with
  | EmptyString => false
  | String _ s' => py_in x s'
  end.

(** The setters of the fields that only [main] assigns. *)

Definition set_fname_bvecs (v : string) (p : param) : param :=
  {| fname_data := fname_data p; fname_bvecs := v; fname_bvals := fname_bvals p;
     fname_target := fname_target p; path_out := path_out p; mat_final := mat_final p;
     mat_moco := mat_moco p; todo := todo p; dwi_group_size := dwi_group_size p;
     suffix := suffix p; interp := interp p; spline_fitting := spline_fitting p;
     verbose := verbose p; plot_graph := plot_graph p; run_eddy := run_eddy p;
     mat_2_combine := mat_2_combine p |}.
Definition set_fname_bvals (v : string) (p : param) : param :=
  {| fname_data := fname_data p; fname_bvecs := fname_bvecs p; fname_bvals := v;
     fname_target := fname_target p; path_out := path_out p; mat_final := mat_final p;
     mat_moco := mat_moco p; todo := todo p; dwi_group_size := dwi_group_size p;
     suffix := suffix p; interp := interp p; spline_fitting := spline_fitting p;
     verbose := verbose p; plot_graph := plot_graph p; run_eddy := run_eddy p;
     mat_2_combine := mat_2_combine p |}.
Definition set_dwi_group_size (v : Z) (p : param) : param :=
  {| fname_data := fname_data p; fname_bvecs := fname_bvecs p; fname_bvals := fname_bvals p;
     fname_target := fname_target p; path_out := path_out p; mat_final := mat_final p;
     mat_moco := mat_moco p; todo := todo p; dwi_group_size := v;
     suffix := suffix p; interp := interp p; spline_fitting := spline_fitting p;
     verbose := verbose p; plot_graph := plot_graph p; run_eddy := run_eddy p;
     mat_2_combine := mat_2_combine p |}.
Definition set_spline_fitting (v : Z) (p : param) : param :=
  {| fname_data := fname_data p; fname_bvecs := fname_bvecs p; fname_bvals := fname_bvals p;
     fname_target := fname_target p; path_out := path_out p; mat_final := mat_final p;
     mat_moco := mat_moco p; todo := todo p; dwi_group_size := dwi_group_size p;
     suffix := suffix p; interp := interp p; spline_fitting := v;
     verbose := verbose p; plot_graph := plot_graph p; run_eddy := run_eddy p;
     mat_2_combine := mat_2_combine p |}.
Definition set_verbose (v : Z) (p : param) : param :=
  {| fname_data := fname_data p; fname_bvecs := fname_bvecs p; fname_bvals := fname_bvals p;
     fname_target := fname_target p; path_out := path_out p; mat_final := mat_final p;
     mat_moco := mat_moco p; todo := todo p; dwi_group_size := dwi_group_size p;
     suffix := suffix p; interp := interp p; spline_fitting := spline_fitting p;
     verbose := v; plot_graph := plot_graph p; run_eddy := run_eddy p;
     mat_2_combine := mat_2_combine p |}.
Definition set_plot_graph (v : Z) (p : param) : param :=
  {| fname_data := fname_data p; fname_bvecs := fname_bvecs p; fname_bvals := fname_bvals p;
     fname_target := fname_target p; path_out := path_out p; mat_final := mat_final p;
     mat_moco := mat_moco p; todo := todo p; dwi_group_size := dwi_group_size p;
     suffix := suffix p; interp := interp p; spline_fitting := spline_fitting p;
     verbose := verbose p; plot_graph := v; run_eddy := run_eddy p;
     mat_2_combine := mat_2_combine p |}.
Definition set_run_eddy (v : Z) (p : param) : param :=
  {| fname_data := fname_data p; fname_bvecs := fname_bvecs p; fname_bvals := fname_bvals p;
     fname_target := fname_target p; path_out := path_out p; mat_final := mat_final p;
     mat_moco := mat_moco p; todo := todo p; dwi_group_size := dwi_group_size p;
     suffix := suffix p; interp := interp p; spline_fitting := spline_fitting p;
     verbose := verbose p; plot_graph := plot_graph p; run_eddy := v;
     mat_2_combine := mat_2_combine p |}.

(** [param.__init__]: the configuration before the command line is read.
    [mat_2_combine] is not an attribute yet. *)
Definition param_init : param := {|
  fname_data := ""; fname_bvecs := ""; fname_bvals := ""; fname_target := "";
  path_out := ""; mat_final := ""; mat_moco := ""; todo := "";
  dwi_group_size := 3; suffix := "_moco"; interp := "trilinear";
  spline_fitting := 0; verbose := 1; plot_graph := 0; run_eddy := 0;
  mat_2_combine := "" |}.

(** ** Leaving the program

    How a process leaves [main] other than by returning from it:
    [sys.exit], the read of a local variable that was never assigned, or
    an exception of the script, which nothing catches. *)
Inductive stop :=
  | SystemExit (code : Z)
  | UnboundLocalError (name : string)
  | Uncaught (e : exn).

Inductive outcome (A : Type) :=
  | Returns (a : A)
  | Stops (e : stop).
Arguments Returns {A} a.
Arguments Stops {A} e.

Definition Proc (S A : Type) : Type := S → S * outcome A.

#[export] Instance Proc_ret {S} : MRet (Proc S) := λ A a s, (s, Returns a).
#[export] Instance Proc_bind {S} : MBind (Proc S) := λ A B k m s,
  match m s with
  | (s', Returns a) => k a s'
  | (s', Stops e) => (s', Stops e)
  end.

Definition leave {S A} (e : stop) : Proc S A := λ s, (s, Stops e).
Definition get {S A} (f : S → A) : Proc S A := λ s, (s, Returns (f s)).

(** [for x in l: body] *)
Fixpoint for_each {S A} (l : list A) (body : A → Proc S unit) : Proc S unit :=
  match l with
  | [] => mret tt
  | x :: l' => body x ;; for_each l' body
  end.

(** The calls of [main] that leave the script, besides those of
    [dmri_moco] and the commands of [sct.run]: the shell command of
    [commands.getstatusoutput], and the calls of [sct_utils], [os] and
    [sct_eddy_correct].  [os.chdir] and [os.mkdir] are taken to return; the
    progress messages and the elapsed time are not recorded. *)
Inductive syscall :=
  | GetStatusOutput (cmd : string)
  | CheckFileExist (fname : string) (verbose : Z)
  | Chdir (path : string)
  | Mkdir (path : string)
  | EddyCorrect (p : param)
  | GenerateOutputFile (fname_in path_out file_out ext_out : string) (verbose : Z).

Section Main.
Context {F : Type} `{PyFloat F} {mat : Type}.

Local Abbreviation store := (gmap matfile mat).

(** [mask_size] is the integer 0 of [__init__] or the float of [-s]. *)
Inductive number :=
  | Int (n : Z)
  | Float (x : F).

(** The fields of [param] that [main] reads or writes and [dmri_moco]
    does not; [slicewise] is the attribute [main] adds for the eddy-current
    correction.  The fields [program], [merge_back], [mat_eddy],
    [min_norm] and [swapXY] are left to the collaborators that read
    them. *)
Record options := {
  debug : Z;
  fname_centerline : string;
  cost_function_flirt : string;
  delete_tmp_files : Z;
  mask_size : number;
  slicewise : option Z
}.

Definition options_init : options := {|
  debug := 0; fname_centerline := ""; cost_function_flirt := "";
  delete_tmp_files := 1; mask_size := Int 0; slicewise := None |}.

Definition set_fname_centerline (v : string) (o : options) : options :=
  {| debug := debug o; fname_centerline := v;
     cost_function_flirt := cost_function_flirt o;
     delete_tmp_files := delete_tmp_files o; mask_size := mask_size o;
     slicewise := slicewise o |}.
Definition set_cost_function_flirt (v : string) (o : options) : options :=
  {| debug := debug o; fname_centerline := fname_centerline o;
     cost_function_flirt := v;
     delete_tmp_files := delete_tmp_files o; mask_size := mask_size o;
     slicewise := slicewise o |}.
Definition set_delete_tmp_files (v : Z) (o : options) : options :=
  {| debug := debug o; fname_centerline := fname_centerline o;
     cost_function_flirt := cost_function_flirt o;
     delete_tmp_files := v; mask_size := mask_size o;
     slicewise := slicewise o |}.
Definition set_mask_size (v : number) (o : options) : options :=
  {| debug := debug o; fname_centerline := fname_centerline o;
     cost_function_flirt := cost_function_flirt o;
     delete_tmp_files := delete_tmp_files o; mask_size := v;
     slicewise := slicewise o |}.
Definition set_slicewise (v : option Z) (o : options) : options :=
  {| debug := debug o; fname_centerline := fname_centerline o;
     cost_function_flirt := cost_function_flirt o;
     delete_tmp_files := delete_tmp_files o; mask_size := mask_size o;
     slicewise := v |}.

(** The collaborators of [main]: the shell, [getopt], the built-in
    conversions, [os.path], [time], [sct_utils] and [sct_eddy_correct].
    [getstatusoutput] gives the status and the output of a shell command;
    [getopt] gives the options as pairs of a name and an argument, or
    [None] for [GetoptError]; [py_int] and [py_float] give [None] for
    [ValueError]; [check_file_exist] and [generate_output_file] return or
    leave the program in their own way. *)
Record system := {
  getstatusoutput : string → Z * string;
  getopt : list string → option (list (string * string));
  py_int : string → option Z;
  py_float : string → option F;
  check_file_exist : string → Z → option stop;
  abspath : string → string;
  strftime : string;
  slash_at_the_end : string → Z → string;
  eddy_correct : param → options → store → option (param * options * store);
  generate_output_file : string → string → string → string → Z → option stop
}.

Record process := {
  pr_script : state (mat:=mat);
  pr_options : options;
  pr_calls : list syscall
}.

(** A command of the script, run in the process: an exception it raises
    is not caught. *)
Definition script {A} (c : ST (state (mat:=mat)) A) : Proc process A := λ m,
  let '(s', r) := c (pr_script m) in
  ({| pr_script := s'; pr_options := pr_options m; pr_calls := pr_calls m |},
   match r with
   | Ok a => Returns a
   | Raise e => Stops (Uncaught e)
   end).

Definition set_option (f : options → options) : Proc process unit := λ m,
  ({| pr_script := pr_script m; pr_options := f (pr_options m);
      pr_calls := pr_calls m |}, Returns tt).

Definition syscall_ (c : syscall) : Proc process unit := λ m,
  ({| pr_script := pr_script m; pr_options := pr_options m;
      pr_calls := pr_calls m ++ [c] |}, Returns tt).

Variable w : world (F:=F) (mat:=mat).
Variable sys : system.

(** [usage()]: the help text, then [sys.exit(2)]. *)
Definition usage {A} : Proc process A := leave (SystemExit 2).

(** [int(arg)] and [float(arg)] *)
Definition int_of (arg : string) : Proc process Z :=
  match py_int sys arg with
  | Some n => mret n
  | None => leave (Uncaught ValueError)
  end.
Definition float_of (arg : string) : Proc process F :=
  match py_float sys arg with
  | Some x => mret x
  | None => leave (Uncaught ValueError)
  end.

(** One round of [for opt, arg in opts].  [('-i')] is the string ['-i'],
    not a tuple, so that [opt in ('-i')] asks whether [opt] is a substring
    of it. *)
Definition read_option (opt arg : string) : Proc process unit :=
  if String.eqb opt "-h" then usage
  else if py_in opt "-i" then script (set_param (set_fname_data arg))
  else if py_in opt "-a" then script (set_param (set_fname_bvals arg))
  else if py_in opt "-b" then script (set_param (set_fname_bvecs arg))
  else if py_in opt "-c" then set_option (set_cost_function_flirt arg)
  else if py_in opt "-d" then
    n ← int_of arg; script (set_param (set_dwi_group_size n))
  else if py_in opt "-e" then
    n ← int_of arg; script (set_param (set_run_eddy n))
  else if py_in opt "-f" then
    n ← int_of arg; script (set_param (set_spline_fitting n))
  else if py_in opt "-g" then
    n ← int_of arg; script (set_param (set_plot_graph n))
  else if py_in opt "-l" then set_option (set_fname_centerline arg)
  else if py_in opt "-o" then script (set_param (set_path_out arg))
  else if py_in opt "-p" then script (set_param (set_interp arg))
  else if py_in opt "-r" then
    n ← int_of arg; set_option (set_delete_tmp_files n)
  else if py_in opt "-s" then
    x ← float_of arg; set_option (set_mask_size (Float x))
  else if py_in opt "-v" then
    n ← int_of arg; script (set_param (set_verbose n))
  else mret tt.

(** Lines 86-138: "get path of the toolbox", which runs a shell command
    whatever the command line is, "Parameters for debug mode", "Check input
    parameters", "display usage if a mandatory argument is not provided"
    and the default of the cost function.  The error message is recorded like the
    warnings of [dmri_moco]; whether [sct.printv] leaves the program by
    itself on such a message is not in the sources, the script calls
    [usage()] right after it. *)
Definition read_options (argv : list string) : Proc process unit :=
  syscall_ (GetStatusOutput "echo $SCT_DIR");;
  let '(status, path_sct) := getstatusoutput sys "echo $SCT_DIR" in
  o ← get pr_options;
  (if Py.truthy (debug o) then
     script (set_param (set_fname_data
               (path_sct +:+ "/testing/data/errsm_23/dmri/dmri.nii.gz")));;
     script (set_param (set_fname_bvecs
               (path_sct +:+ "/testing/data/errsm_23/dmri/bvecs.txt")));;
     script (set_param (set_verbose 1))
   else mret tt);;
  opts ← match getopt sys argv with
         | Some opts => mret opts
         | None => usage
         end;
  for_each opts (λ oa, read_option oa.1 oa.2);;
  p ← script (gets st_param);
  (if String.eqb (fname_data p) "" || String.eqb (fname_bvecs p) "" then
     script (printv "ERROR: All mandatory arguments are not provided. See usage." "error");;
     usage
   else mret tt);;
  o ← get pr_options;
  (if String.eqb (cost_function_flirt o) "" then
     set_option (set_cost_function_flirt "normcorr")
   else mret tt).

(** [sct.check_file_exist(fname, verbose)] *)
Definition check (fname : string) (verbose : Z) : Proc process unit :=
  syscall_ (CheckFileExist fname verbose);;
  match check_file_exist sys fname verbose with
  | None => mret tt
  | Some e => leave e
  end.

(** "EDDY CURRENT CORRECTION" *)
Definition eddy (file_data : string) : Proc process unit :=
  script (set_param (set_path_out ""));;
  set_option (set_slicewise (Some 1%Z));;
  p ← script (gets st_param);
  o ← get pr_options;
  fs ← script (gets st_fs);
  syscall_ (EddyCorrect p);;
  match eddy_correct sys p o fs with
  | Some (p', o', fs') =>
      script (modify (λ s, {| st_param := p'; st_fs := fs'; st_trace := st_trace s |}));;
      set_option (λ _, o')
  | None => leave (Uncaught EngineFailure)
  end;;
  script (set_param (set_fname_data (file_data +:+ "_eddy.nii"))).

(** Lines 146-183: "check existence of input files", "Get full path",
    "create temporary folder", "go to tmp folder", "Copying input data to
    the tmp folder" and the eddy-current correction.  It gives the
    temporary folder, the name and extension of the series and the series
    as it was given. *)
Definition prepare : Proc process (string * string * string * string) :=
  p ← script (gets st_param);
  check (fname_data p) (verbose p);;
  check (fname_bvecs p) (verbose p);;
  script (set_param (set_fname_data (abspath sys (fname_data p))));;
  script (set_param (set_fname_bvecs (abspath sys (fname_bvecs p))));;
  (if negb (String.eqb (fname_bvals p) "") then
     script (set_param (set_fname_bvals (abspath sys (fname_bvals p))))
   else mret tt);;
  p ← script (gets st_param);
  let '(path_data, file_data, ext_data) := extract_fname w (fname_data p) in
  let path_tmp := slash_at_the_end sys ("tmp." +:+ strftime sys) 1 in
  script (run w ("mkdir " +:+ path_tmp));;
  syscall_ (Chdir path_tmp);;
  let fname_data_initial := fname_data p in
  syscall_ (Mkdir "outputs");;
  script (run w ("cp " +:+ fname_data p +:+ " dmri" +:+ ext_data));;
  script (run w ("cp " +:+ fname_bvecs p +:+ " bvecs.txt"));;
  (if Py.truthy (run_eddy p) then eddy file_data else mret tt);;
  mret (path_tmp, file_data, ext_data, fname_data_initial).

(** [sct.generate_output_file(fname_in, path_out, file_out, ext_out, verbose)] *)
Definition generate (fname_in path_out file_out ext_out : string) (verbose : Z)
    : Proc process unit :=
  syscall_ (GenerateOutputFile fname_in path_out file_out ext_out verbose);;
  match generate_output_file sys fname_in path_out file_out ext_out verbose with
  | None => mret tt
  | Some e => leave e
  end.

(** The read of a local variable: [UnboundLocalError] when no assignment
    to it was run. *)
Definition local {A} (name : string) (v : option A) : Proc process A :=
  match v with
  | Some a => mret a
  | None => leave (UnboundLocalError name)
  end.

(** "Generate output files".  The arguments of a call are evaluated from
    left to right. *)
Definition generate_outputs (path_tmp : string) (path_out : option string)
    (file_data ext_data : string) : Proc process unit :=
  p ← script (gets st_param);
  let fname_in := path_tmp +:+ "dmri" +:+ suffix p +:+ ".nii" in
  out ← local "path_out" path_out;
  generate fname_in out (file_data +:+ suffix p) ext_data (verbose p);;
  p ← script (gets st_param);
  let fname_in := path_tmp +:+ "b0_mean.nii" in
  out ← local "path_out" path_out;
  generate fname_in out ("b0" +:+ suffix p +:+ "_mean") ext_data (verbose p);;
  p ← script (gets st_param);
  let fname_in := path_tmp +:+ "dwi_mean.nii" in
  out ← local "path_out" path_out;
  generate fname_in out ("dwi" +:+ suffix p +:+ "_mean") ext_data (verbose p).

(** "Delete temporary files" *)
Definition delete_tmp (path_tmp : string) : Proc process unit :=
  o ← get pr_options;
  if (delete_tmp_files o =? 1)%Z then script (run w ("rm -rf " +:+ path_tmp))
  else mret tt.

(** Lines 79-190: [main()] up to its return to the parent folder.  The
    function assigns [path_out] (line 141), which makes the name local to
    it: the global [path_out] of line 42 is not what line 194 reads, and
    the assignment is run only when [param.path_out] is empty.  It gives
    the temporary folder, the local [path_out] and the name and extension
    of the series.  [dmri_moco] is the run that is followed above, the one
    without a bvals file; what is stated of [main] below does not depend
    on what [dmri_moco] does. *)
Definition in_tmp_folder (argv : list string)
    : Proc process (string * option string * string * string) :=
  read_options argv;;
  p ← script (gets st_param);
  let path_out : option string :=
    if String.eqb (path_out p) "" then Some "" else None in
  '(path_tmp, file_data, ext_data, fname_data_initial) ← prepare;
  script (dmri_moco w fname_data_initial);;
  syscall_ (Chdir "..");;
  mret (path_tmp, path_out, file_data, ext_data).

(** [main()] *)
Definition main (argv : list string) : Proc process unit :=
  '(path_tmp, path_out, file_data, ext_data) ← in_tmp_folder argv;
  generate_outputs path_tmp path_out file_data ext_data;;
  delete_tmp path_tmp.

End Main.

(** ** Concrete series

    The series of the scenarios: ten volumes, of which 0, 4 and 9 are
    b=0; and a table written 3xn. *)
Module Sample.

Definition bvecs10 : list (list float) :=
  [[0;0;0];[1;0;0];[0;1;0];[0;0;1];[0;0;0];
   [1;0;0];[0;1;0];[0;0;1];[1;0;0];[0;0;0]]%float.

Definition bvecs3xn : list (list float) :=
  [[0;1];[0;0];[0;0]]%float.

Definition param0 : param := {|
  fname_data := "dmri.nii"; fname_bvecs := "bvecs.txt"; fname_bvals := "";
  fname_target := ""; path_out := ""; mat_final := ""; mat_moco := "";
  todo := ""; dwi_group_size := 3; suffix := "_moco"; interp := "spline";
  spline_fitting := 0; verbose := 1; plot_graph := 0; run_eddy := 0;
  mat_2_combine := "" |}.

(** The matrix files after the two estimation passes on that series, with
    one slice: a file per DWI group and a file per b=0 rank. *)
Definition after_passes : gmap matfile string :=
  list_to_map
    [((mat_dwigroups, 0, 0), "DWI group 0"); ((mat_dwigroups, 1, 0), "DWI group 1");
     ((mat_dwigroups, 2, 0), "DWI group 2");
     ((mat_b0groups, 0, 0), "b0 rank 0"); ((mat_b0groups, 1, 0), "b0 rank 1");
     ((mat_b0groups, 2, 0), "b0 rank 2")].

(** Four volumes, the second one a DWI volume; and two b=0 volumes. *)
Definition bvecs4 : list (list float) :=
  [[0;0;0];[1;0;0];[0;0;0];[0;0;0]]%float.
Definition bvecs_b0_only : list (list float) :=
  [[0;0;0];[0;0;0]]%float.

(** Four volumes around the threshold: the components of the second row
    are 5/1024 (0.00488...), those of the third 3/512 (0.00585...).  And
    one volume whose first component is 2^600 (4.1e180).  The squares of
    5/1024 and 3/512 are floats, so that every [pow] that is wrong by less
    than one unit in the last place gives them, and every [pow] overflows
    on 2^600. *)
Definition bvecs_threshold : list (list float) :=
  [[0; 0; 0];
   [0x1.4p-8; 0x1.4p-8; 0x1.4p-8];
   [0x1.8p-8; 0x1.8p-8; 0x1.8p-8];
   [1; 0; 0]]%float.
Definition bvecs_overflow : list (list float) :=
  [[0x1p+600; 0; 0]]%float.

(** The matrix files after the pass on the three b=0 volumes of [bvecs4]. *)
Definition after_b0_pass : gmap matfile string :=
  list_to_map
    [((mat_b0groups, 0, 0), "b0 rank 0"); ((mat_b0groups, 1, 0), "b0 rank 1");
     ((mat_b0groups, 2, 0), "b0 rank 2")].

(** One line of b-values for four volumes. *)
Definition bvals4 : list (list float) := [[0; 1000; 1000; 0]]%float.

(** An engine for series of one slice: asked to estimate, it files one
    matrix per volume of the series it is given, [volumes] telling how
    many volumes a series has. *)
Definition engine (volumes : string → nat) (p : param)
    (fs : gmap matfile string) : gmap matfile string :=
  if decide (todo p = "estimate_and_apply") then
    foldr (λ t fs', <[(mat_moco p +:+ "/", t, 0) := mat_moco p +:+ " " +:+ Py.str t]> fs')
          fs (seq 0 (volumes (fname_data p)))
  else fs.

(** Collaborators for a series of [nt] volumes of one slice with the
    table [bvecs]: the commands that [fails] holds fail, the others
    succeed. *)
Definition collaborators (bvecs : list (list float)) (nt : nat)
    (volumes : string → nat) (fails : string → bool)
    : world (F:=float) (mat:=string) := {|
  extract_fname _ := ("", "dmri", ".nii");
  get_dimension _ := (64, 64, 1, nt);
  read_bvecs _ := bvecs;
  sh cmd := negb (fails cmd);
  moco p fs := Some (p, engine volumes p fs);
  combine_matrix p fs := Some (p, fs);
  spline _ _ _ _ _ _ fs := Some fs
|}.

(** The series of scenario 1 has three DWI groups and three b=0 volumes;
    a series of two b=0 volumes has no group. *)
Definition volumes10 (series : string) : nat := 3.
Definition volumes_b0_only (series : string) : nat :=
  if decide (series = "b0.nii") then 2 else 0.

(** A fresh temporary folder: no matrix file, nothing done yet. *)
Definition start (p : param) : state (mat:=string) :=
  {| st_param := p; st_fs := ∅; st_trace := [] |}.

End Sample.

(** ** A concrete system

    A series without b=0 volume, and a system in which every file exists
    and every call returns. *)
Module SampleRun.

Definition bvecs_dwi_only : list (list float) := [[1;0;0];[0;1;0]]%float.

(** The options of a command line whose words come in pairs. *)
Fixpoint pairs (argv : list string) : list (string * string) :=
  match argv with
  | opt :: arg :: argv' => (opt, arg) :: pairs argv'
  | _ => []
  end.

(** The number a string of digits writes. *)
Fixpoint number_of (acc : Z) (s : string) : option Z :=
  match s with
  | EmptyString => Some acc
  | String c s' =>
      let d := Z.of_nat (nat_of_ascii c) in
      if (48 <=? d)%Z && (d <=? 57)%Z then number_of (10 * acc + d - 48)%Z s'
      else None
  end.

Definition system0 : system (F:=float) (mat:=string) := {|
  getstatusoutput _ := (0%Z, "/sct");
  getopt argv := Some (pairs argv);
  py_int s := if decide (s = "") then None else number_of 0 s;
  py_float s := None;
  check_file_exist _ _ := None;
  abspath f := "/data/" +:+ f;
  strftime := "140815120000";
  slash_at_the_end path _ := path +:+ "/";
  eddy_correct p o fs := Some (p, o, fs);
  generate_output_file _ _ _ _ _ := None
|}.

(** The process at the start of the program. *)
Definition fresh : process (F:=float) (mat:=string) :=
  {| pr_script := Sample.start param_init; pr_options := options_init; pr_calls := [] |}.

End SampleRun.

(** ** Specifications of commands

    [triple P c Q E]: from a state in [P], the command [c] either returns
    [a] in a state in [Q a] or raises [e] in a state in [E e].  With
    [E := fails_not] this is total correctness. *)

Definition triple {S A} (P : S → Prop) (c : ST S A)
    (Q : A → S → Prop) (E : exn → S → Prop) : Prop :=
  ∀ s, P s →
    match c s with
    | (s', Ok a) => Q a s'
    | (s', Raise e) => E e s'
    end.

Definition fails_not {S} : exn → S → Prop := λ _ _, False.

(** The Euclidean norm of a vector as the specification has it, in the
    arithmetic of the interpreter: [n] is the square root of the sum of the
    squares of the components.  A vector has a norm when none of these
    operations raises; its norm is below 0.01 when it has one that is. *)
Definition euclidean_norm {F} `{PyFloat F} (v : list F) (n : F) : Prop :=
  ∃ (xs : list F) (total : F),
    Forall2 (λ i x, fpow2 i = Ok x) v xs ∧ fsum xs = Ok total ∧ fsqrt total = Ok n.
Definition has_norm {F} `{PyFloat F} (v : list F) : Prop :=
  ∃ n, euclidean_norm v n.
Definition below_0_01 {F} `{PyFloat F} (v : list F) : Prop :=
  ∃ n, euclidean_norm v n ∧ flt n f_0_01 = true.

(** The test of the identification loop at time index [t]; it is false
    where the loop has no row to test or the test raises. *)
Definition b0_row {F} `{PyFloat F} (bvecs : list (list F)) (t : nat) : bool :=
  match bvecs !! t with
  | Some row => match is_b0 row with Ok b0 => b0 | Raise _ => false end
  | None => false
  end.

(** The state after the warning of the transposition. *)
Definition warned {mat} (s : state (mat:=mat)) : state (mat:=mat) :=
  {| st_param := st_param s; st_fs := st_fs s;
     st_trace := st_trace s ++
       [Printv "  WARNING: bvecs file is 3xn instead of nx3. Consider using sct_dmri_transpose_bvecs." "warning"] |}.

(** [copied W vol fs fs']: [fs'] is [fs] except on the files in [W], which
    hold what the slice of volume [vol] with the same number holds in
    [fs]. *)
Definition copied {mat} (W : matfile → Prop) (vol : string * nat)
    (fs fs' : gmap matfile mat) : Prop :=
  ∀ k, (W k → fs' !! k = fs !! (vol, k.2)) ∧ (¬ W k → fs' !! k = fs !! k).

(** The distance between two time indices. *)
Definition distance (a b : nat) : Z := Z.abs (Z.of_nat a - Z.of_nat b).

(** The bridge as the specification words it: the b=0 index nearest to
    the last DWI index. *)
Definition nearest_b0_to_last_dwi (index_b0 index_dwi : list nat) : result nat :=
  last_dwi ← Py.index index_dwi (Z.of_nat (length index_dwi) - 1);
  i ← np_argmin ((λ b, distance b last_dwi) <$> index_b0);
  Py.index index_b0 (Z.of_nat i).

(** The indices of the b-values inside the band, as the specification
    words the scalar form. *)
Definition in_band (b : float) : bool :=
  PrimFloat.ltb 429 b && PrimFloat.ltb b 4000.
Definition band_indices (bvals : list float) : list nat * list nat :=
  (filter (λ t, from_option in_band false (bvals !! t)) (seq 0 (length bvals)),
   filter (λ t, ¬ from_option in_band false (bvals !! t)) (seq 0 (length bvals))).

(** The exceptions of Python and of the external commands, as opposed to
    the error kinds of the specification.  [raises E c]: the command [c]
    raises exceptions of [E] only. *)
Definition builtin (e : exn) : Prop :=
  e = IndexError ∨ e = ZeroDivisionError ∨ e = ValueError ∨ e = OverflowError ∨
  e = EngineFailure.
Definition raises {S A} (E : exn → Prop) (c : ST S A) : Prop :=
  ∀ s e, (c s).2 = Raise e → E e.

(** The characters of the decimal notation. *)
Definition is_digit (c : ascii) : bool :=
  (48 <=? nat_of_ascii c) && (nat_of_ascii c <=? 57).
Fixpoint digits (s : string) : Prop :=
  match s with
  | EmptyString => True
  | String c s' => is_digit c = true ∧ digits s'
  end.

(** The calls of the registration engine in a trace: for each, the series
    it is given, what it is asked to do and the interpolation it is asked
    to use. *)
Definition moco_call (e : event) : list (string * string * string) :=
  match e with
  | Moco p => [(fname_data p, todo p, interp p)]
  | _ => []
  end.
Definition moco_calls (tr : list event) : list (string * string * string) :=
  tr ≫= moco_call.

(** [quiet c]: the command makes no call of the registration engine.
    [emits c calls]: it makes the calls [calls], in that order, or the
    first ones of them if it raises. *)
Definition quiet {mat A} (c : ST (state (mat:=mat)) A) : Prop :=
  ∀ s, moco_calls (st_trace (c s).1) = moco_calls (st_trace s).
Definition emits {mat A} (c : ST (state (mat:=mat)) A)
    (calls : list (string * string * string)) : Prop :=
  ∀ s, ∃ cs,
    moco_calls (st_trace (c s).1) = moco_calls (st_trace s) ++ cs ∧
    match (c s).2 with
    | Ok _ => cs = calls
    | Raise _ => cs `prefix_of` calls
    end.

(** The calls of the registration engine in a trace, each with the series
    and the target it is given. *)
Definition moco_target (e : event) : list (string * string) :=
  match e with
  | Moco p => [(fname_data p, fname_target p)]
  | _ => []
  end.
Definition moco_targets (tr : list event) : list (string * string) :=
  tr ≫= moco_target.


(** The commands of the script as the shell is given them: the split of
    a series into its volumes, the merge of volumes into a series and the
    mean of a series over time. *)
Definition fslsplit (fname_data file_data : string) : string :=
  fsloutput +:+ "fslsplit " +:+ fname_data +:+ " " +:+ file_data +:+ "_T".
Definition fslmerge (out : string) (inputs : list string) : string :=
  fold_left (λ cmd f, cmd +:+ (" " +:+ f)) inputs (fsloutput +:+ "fslmerge -t " +:+ out).
Definition fslmaths_Tmean (series out : string) : string :=
  fsloutput +:+ "fslmaths " +:+ series +:+ " -Tmean " +:+ out.

(** The commands of the DWI stream before the registration: for each
    group in turn the merge of its volumes and the mean of the merged
    series, then the merge of these means and the mean of that series. *)
Definition dwi_stream (file_data : string) (groups : list (list nat)) : list string :=
  mjoin (imap (λ i g,
           [fslmerge ("dwi_" +:+ Py.str i) (volume file_data <$> g);
            fslmaths_Tmean ("dwi_" +:+ Py.str i) ("dwi_mean_" +:+ Py.str i)]) groups) ++
  [fslmerge "dwi_averaged_groups" ((λ i, "dwi_mean_" +:+ Py.str i) <$> seq 0 (length groups));
   fslmaths_Tmean "dwi_averaged_groups" "dwi_mean"].

(** [grown folder fs fs']: every file of [fs] is still there in [fs'], and
    outside [folder] nothing has changed. *)
Definition grown {mat} (folder : string) (fs fs' : gmap matfile mat) : Prop :=
  (∀ k, is_Some (fs !! k) → is_Some (fs' !! k)) ∧
  (∀ k, k.1.1 ≠ folder → fs' !! k = fs !! k).

(** The names [getopt] gives to the options of the string
    ['hi:a:b:c:d:e:f:g:l:o:p:r:s:v:']. *)
Definition option_names : list string :=
  ["-h"; "-i"; "-a"; "-b"; "-c"; "-d"; "-e"; "-f"; "-g"; "-l"; "-o"; "-p"; "-r"; "-s"; "-v"].

(** The commands of [sct.run] in a trace. *)
Definition command (e : event) : list string :=
  match e with
  | Run cmd => [cmd]
  | _ => []
  end.
Definition commands (tr : list event) : list string := tr ≫= command.

(** * Properties *)

(** ** Reasoning about commands *)

Section Logic.
Context {S : Type}.
Implicit Types (P : S → Prop) (E : exn → S → Prop).

Lemma triple_ret {A} P (a : A) (Q : A → S → Prop) E :
  (∀ s, P s → Q a s) → triple P (mret a) Q E.
Proof. intros HQ s Hs. cbn. auto. Qed.

Lemma triple_bind {A B} P (c : ST S A) (k : A → ST S B) R Q E :
  triple P c R E → (∀ a, triple (R a) (k a) Q E) → triple P (c ≫= k) Q E.
Proof.
  intros Hc Hk s Hs. specialize (Hc s Hs).
  unfold mbind, ST_bind. destruct (c s) as [s' [a|e]]; [|done].
  by apply Hk.
Qed.

Lemma triple_conseq {A} P P' (c : ST S A) (Q Q' : A → S → Prop) E E' :
  triple P' c Q' E' →
  (∀ s, P s → P' s) → (∀ a s, Q' a s → Q a s) → (∀ e s, E' e s → E e s) →
  triple P c Q E.
Proof.
  intros Hc HP HQ HE s Hs. specialize (Hc s (HP s Hs)).
  destruct (c s) as [s' [a|e]]; auto.
Qed.

Lemma triple_lift {A} P (r : result A) (Q : A → S → Prop) E :
  (∀ s, P s → match r with Ok a => Q a s | Raise e => E e s end) →
  triple P (lift r) Q E.
Proof. intros Hr s Hs. specialize (Hr s Hs). unfold lift. by destruct r. Qed.

Lemma triple_gets {A} P (f : S → A) (Q : A → S → Prop) E :
  (∀ s, P s → Q (f s) s) → triple P (gets f) Q E.
Proof. intros HQ s Hs. cbn. auto. Qed.

Lemma triple_modify P (f : S → S) (Q : unit → S → Prop) E :
  (∀ s, P s → Q tt (f s)) → triple P (modify f) Q E.
Proof. intros HQ s Hs. cbn. auto. Qed.

(** A loop over a list, with an invariant indexed by the number of rounds
    done. *)
Lemma triple_for {A} (I : nat → S → Prop) (l : list A) (body : A → ST S unit) E :
  (∀ i x, l !! i = Some x → triple (I i) (body x) (λ _, I (Datatypes.S i)) E) →
  triple (I 0) (for_ l body) (λ _, I (length l)) E.
Proof.
  revert I. induction l as [|x l IH]; intros I Hbody.
  - by apply triple_ret.
  - cbn [for_ length]. eapply triple_bind.
    + apply (Hbody 0 x). done.
    + intros []. apply (IH (λ i, I (Datatypes.S i))).
      intros i y Hy. apply (Hbody (Datatypes.S i) y). done.
Qed.

(** What a triple says about one run. *)
Lemma triple_run {A} P (c : ST S A) (Q : A → S → Prop) s :
  triple P c Q fails_not → P s → ∃ s' a, c s = (s', Ok a) ∧ Q a s'.
Proof.
  intros Hc Hs. specialize (Hc s Hs).
  destruct (c s) as [s' [a|e]]; [eauto | done].
Qed.

End Logic.

(** ** Python sequences *)

Lemma index_nat_Some {A} (l : list A) (i : nat) x :
  l !! i = Some x → Py.index l (Z.of_nat i) = Ok x.
Proof.
  intros Hx. unfold Py.index.
  destruct (Z.ltb_spec (Z.of_nat i) 0); [lia|].
  destruct (Z.ltb_spec (Z.of_nat i) 0); [lia|].
  by rewrite Nat2Z.id, Hx.
Qed.

Lemma index_nat_None {A} (l : list A) (i : nat) :
  l !! i = None → Py.index l (Z.of_nat i) = Raise IndexError.
Proof.
  intros Hx. unfold Py.index.
  destruct (Z.ltb_spec (Z.of_nat i) 0); [lia|].
  destruct (Z.ltb_spec (Z.of_nat i) 0); [lia|].
  by rewrite Nat2Z.id, Hx.
Qed.

Lemma index_raises {A} (l : list A) (i : Z) e :
  Py.index l i = Raise e → e = IndexError.
Proof.
  unfold Py.index. repeat case_match; congruence.
Qed.

Lemma slice_nat {A} (l : list A) (a b : nat) :
  a ≤ b → b ≤ length l →
  Py.slice l (Z.of_nat a) (Z.of_nat b) = take (b - a) (drop a l).
Proof.
  intros Hab Hb. unfold Py.slice, Py.slice_bound.
  destruct (Z.ltb_spec (Z.of_nat a) 0); [lia|].
  destruct (Z.ltb_spec (Z.of_nat b) 0); [lia|].
  f_equal; [|f_equal]; lia.
Qed.

(** A slice that runs over the end stops at the end. *)
Lemma slice_nat_clamp {A} (l : list A) (a b : nat) :
  a ≤ b → Py.slice l (Z.of_nat a) (Z.of_nat b) = take (b - a) (drop a l).
Proof.
  intros Hab.
  destruct (decide (b ≤ length l)) as [Hb|Hb]; [by apply slice_nat|].
  unfold Py.slice, Py.slice_bound.
  destruct (Z.ltb_spec (Z.of_nat a) 0); [lia|].
  destruct (Z.ltb_spec (Z.of_nat b) 0); [lia|].
  destruct (decide (a ≤ length l)) as [Ha|Ha].
  - replace (Z.to_nat (Z.min (Z.of_nat (length l)) (Z.of_nat a))) with a by lia.
    rewrite !take_ge; [done | rewrite length_drop; lia | rewrite length_drop; lia].
  - rewrite !drop_ge by lia. by rewrite !take_nil.
Qed.

(** ** Identification of the volumes *)

Lemma StronglySorted_lt_seq (a n : nat) : StronglySorted lt (seq a n).
Proof.
  revert a. induction n as [|n IH]; intros a; cbn; constructor; [done|].
  apply Forall_seq. lia.
Qed.

Lemma StronglySorted_filter_keeps {A} (R : relation A) (P : A → Prop)
    `{∀ x, Decision (P x)} (l : list A) :
  StronglySorted R l → StronglySorted R (filter P l).
Proof.
  induction 1 as [|x l Hl IH Hx]; [constructor|].
  rewrite filter_cons. case_decide; [|done].
  constructor; [done|].
  apply Forall_forall. intros y [_ Hy]%list_elem_of_filter.
  by eapply Forall_forall in Hx.
Qed.

Section Identification.
Context {F : Type} `{PyFloat F}.
Implicit Types (bvecs : list (list F)).

(** The squares are those of the components, one by one. *)
Lemma squares_Ok (row xs : list F) :
  squares row = Ok xs ↔ Forall2 (λ i x, fpow2 i = Ok x) row xs.
Proof.
  revert xs. induction row as [|i row IH]; intros xs; cbn [squares].
  - split; [intros [= <-]; constructor | by intros ->%Forall2_nil_inv_l].
  - split.
    + destruct (fpow2 i) as [x|e] eqn:Hx; [|done]. cbn.
      destruct (squares row) as [xs'|e] eqn:Hxs; [|done]. cbn. intros [= <-].
      constructor; [done|]. by apply IH.
    + intros (x & xs' & Hx & Hxs & ->)%Forall2_cons_inv_l.
      rewrite Hx. cbn. apply IH in Hxs. by rewrite Hxs.
Qed.

Lemma squares_raises (row : list F) e : squares row = Raise e → e = OverflowError.
Proof.
  induction row as [|i row IH]; cbn [squares]; [done|].
  destruct (fpow2 i) as [x|e'] eqn:Hx; cbn.
  - destruct (squares row) as [xs|e'']; cbn; [done|]. intros [= <-]. by apply IH.
  - intros [= <-]. by eapply fpow2_raises.
Qed.

(** The norm of the script is the Euclidean norm, in floating point. *)
Lemma norm_Ok (row : list F) (n : F) : norm row = Ok n ↔ euclidean_norm row n.
Proof.
  unfold norm, euclidean_norm. split.
  - destruct (squares row) as [xs|e] eqn:Hxs; [|done]. cbn.
    destruct (fsum xs) as [total|e] eqn:Hsum; [|done]. cbn. intros Hn.
    exists xs, total. by rewrite <- squares_Ok.
  - intros (xs & total & Hxs%squares_Ok & Hsum & Hn).
    rewrite Hxs. cbn. rewrite Hsum. done.
Qed.

Lemma is_b0_Ok (row : list F) (b0 : bool) :
  is_b0 row = Ok b0 ↔ ∃ n, euclidean_norm row n ∧ b0 = flt n f_0_01.
Proof.
  unfold is_b0. split.
  - destruct (norm row) as [n|e] eqn:Hn; [|done]. cbn. intros [= <-].
    exists n. by rewrite <- norm_Ok.
  - intros (n & Hn%norm_Ok & ->). by rewrite Hn.
Qed.

Lemma is_b0_has_norm (row : list F) : has_norm row ↔ ∃ b0, is_b0 row = Ok b0.
Proof.
  unfold has_norm. split.
  - intros [n Hn]. exists (flt n f_0_01). apply is_b0_Ok. eauto.
  - intros [b0 (n & Hn & _)%is_b0_Ok]. eauto.
Qed.

Lemma is_b0_below (row : list F) : is_b0 row = Ok true ↔ below_0_01 row.
Proof.
  unfold below_0_01. rewrite is_b0_Ok. split; intros (n & Hn & Hlt); eauto.
Qed.

Lemma is_b0_raises (row : list F) e :
  is_b0 row = Raise e → e = OverflowError ∨ e = ValueError.
Proof.
  unfold is_b0, norm.
  destruct (squares row) as [xs|e'] eqn:Hxs; cbn.
  - destruct (fsum xs) as [total|e'] eqn:Hsum; cbn.
    + destruct (fsqrt total) as [n|e'] eqn:Hn; cbn; [done|].
      intros [= <-]. right. by eapply fsqrt_raises.
    + intros [= <-]. by eapply fsum_raises.
  - intros [= <-]. left. by eapply squares_raises.
Qed.

(** The test of the loop at a time index whose row has a norm. *)
Lemma b0_row_below bvecs t row :
  bvecs !! t = Some row → has_norm row →
  (b0_row bvecs t = true ↔ below_0_01 row).
Proof.
  intros Hrow [b0 Hb0]%is_b0_has_norm. unfold b0_row. rewrite Hrow, Hb0.
  rewrite <- is_b0_below, Hb0. split; congruence.
Qed.

(** What the loop returns, when it returns: every row it asks for is
    there and has a norm. *)
Lemma identify_loop_Ok bvecs its (index_b0 index_dwi b0 dwi : list nat) :
  identify_loop bvecs its index_b0 index_dwi = Ok (b0, dwi) ↔
  (∀ t, t ∈ its → ∃ row, bvecs !! t = Some row ∧ has_norm row) ∧
  b0 = index_b0 ++ filter (λ t, b0_row bvecs t) its ∧
  dwi = index_dwi ++ filter (λ t, ¬ b0_row bvecs t) its.
Proof.
  revert index_b0 index_dwi.
  induction its as [|t its IH]; intros index_b0 index_dwi; cbn [identify_loop].
  - rewrite !filter_nil, !app_nil_r. split.
    + intros [= <- <-]. split; [|done]. by intros t ?%elem_of_nil.
    + by intros (_ & -> & ->).
  - rewrite !filter_cons. destruct (bvecs !! t) as [row|] eqn:Hrow.
    2:{ rewrite (index_nat_None _ _ Hrow). cbn. split; [done|].
        intros (Hrows & _). destruct (Hrows t) as (row & ? & _); [left|congruence]. }
    rewrite (index_nat_Some _ _ _ Hrow). cbn.
    destruct (is_b0 row) as [b|e] eqn:Hb; cbn.
    2:{ split; [done|]. intros (Hrows & _).
        destruct (Hrows t) as (row' & Hrow' & [b Hb']%is_b0_has_norm); [left|].
        congruence. }
    assert (b0_row bvecs t = b) as Ht by (unfold b0_row; by rewrite Hrow, Hb).
    assert (has_norm row) as Hn by (apply is_b0_has_norm; eauto).
    rewrite Ht. destruct b; rewrite IH; cbn.
    + rewrite decide_True by tauto. rewrite decide_False by tauto.
      rewrite <- app_assoc. cbn.
      split; intros (Hrows & -> & ->); (split; [|done]).
      * intros t' [->|?]%elem_of_cons; eauto.
      * intros t' ?. apply Hrows. by right.
    + rewrite decide_False by tauto. rewrite decide_True by tauto.
      rewrite <- app_assoc. cbn.
      split; intros (Hrows & -> & ->); (split; [|done]).
      * intros t' [->|?]%elem_of_cons; eauto.
      * intros t' ?. apply Hrows. by right.
Qed.

Lemma identify_filter bvecs nt :
  nt ≤ length bvecs → Forall has_norm (take nt bvecs) →
  identify bvecs nt =
    Ok (filter (λ t, b0_row bvecs t) (seq 0 nt),
        filter (λ t, ¬ b0_row bvecs t) (seq 0 nt)).
Proof.
  intros Hnt Hrows. unfold identify. apply identify_loop_Ok.
  split; [|done]. intros t Ht%elem_of_seq.
  destruct (lookup_lt_is_Some_2 bvecs t) as [row Hrow]; [lia|].
  exists row. split; [done|].
  apply (Forall_lookup_1 _ _ t row Hrows). by rewrite lookup_take_lt by lia.
Qed.

Lemma identify_loop_raises bvecs its (index_b0 index_dwi : list nat) e :
  identify_loop bvecs its index_b0 index_dwi = Raise e →
  e = IndexError ∨ e = OverflowError ∨ e = ValueError.
Proof.
  revert index_b0 index_dwi.
  induction its as [|t its IH]; intros index_b0 index_dwi; cbn [identify_loop]; [done|].
  destruct (Py.index bvecs (Z.of_nat t)) as [row|e'] eqn:Hrow; cbn.
  - destruct (is_b0 row) as [[]|e'] eqn:Hb; cbn; [apply IH..|].
    intros [= <-]. right. by eapply is_b0_raises.
  - intros [= <-]. left. by eapply index_raises.
Qed.

(** What [identify] returns, when it returns. *)
Lemma identify_Ok bvecs nt (index_b0 index_dwi : list nat) :
  identify bvecs nt = Ok (index_b0, index_dwi) →
  nt ≤ length bvecs ∧
  index_b0 = filter (λ t, b0_row bvecs t) (seq 0 nt) ∧
  index_dwi = filter (λ t, ¬ b0_row bvecs t) (seq 0 nt).
Proof.
  intros (Hrows & -> & ->)%identify_loop_Ok. split; [|done].
  destruct nt as [|nt]; [lia|].
  destruct (Hrows nt) as (row & Hrow%lookup_lt_Some & _); [|lia].
  apply elem_of_seq. lia.
Qed.

(** The rows it has read have a norm. *)
Lemma identify_Ok_rows bvecs nt (index_b0 index_dwi : list nat) :
  identify bvecs nt = Ok (index_b0, index_dwi) → Forall has_norm (take nt bvecs).
Proof.
  intros (Hrows & _)%identify_loop_Ok. apply Forall_lookup_2. intros t row Hrow.
  assert (t < nt) as Ht.
  { apply lookup_lt_Some in Hrow. rewrite length_take in Hrow. lia. }
  rewrite lookup_take_lt in Hrow by done.
  destruct (Hrows t) as (row' & Hrow' & Hn); [apply elem_of_seq; lia|].
  congruence.
Qed.

Section Partition.
Variables (bvecs : list (list F)) (nt : nat).
Let index_b0 := filter (λ t, b0_row bvecs t) (seq 0 nt).
Let index_dwi := filter (λ t, ¬ b0_row bvecs t) (seq 0 nt).

Lemma elem_of_index_b0 t : t ∈ index_b0 ↔ t < nt ∧ b0_row bvecs t = true.
Proof.
  unfold index_b0. rewrite list_elem_of_filter, elem_of_seq.
  destruct (b0_row bvecs t); cbn; intuition (done || lia).
Qed.

Lemma elem_of_index_dwi t : t ∈ index_dwi ↔ t < nt ∧ b0_row bvecs t = false.
Proof.
  unfold index_dwi. rewrite list_elem_of_filter, elem_of_seq.
  destruct (b0_row bvecs t); cbn; intuition (done || lia).
Qed.

Lemma index_b0_sorted : StronglySorted lt index_b0.
Proof. apply StronglySorted_filter_keeps, StronglySorted_lt_seq. Qed.

Lemma index_dwi_sorted : StronglySorted lt index_dwi.
Proof. apply StronglySorted_filter_keeps, StronglySorted_lt_seq. Qed.

Lemma index_disjoint t : t ∈ index_b0 → t ∉ index_dwi.
Proof. rewrite elem_of_index_b0, elem_of_index_dwi. intros [_ ->] [_ ?]. done. Qed.

Lemma index_cover t : t < nt ↔ t ∈ index_b0 ∨ t ∈ index_dwi.
Proof.
  rewrite elem_of_index_b0, elem_of_index_dwi.
  destruct (b0_row bvecs t); intuition done.
Qed.

Lemma index_lengths : length index_b0 + length index_dwi = nt.
Proof.
  unfold index_b0, index_dwi. rewrite <- length_app.
  rewrite filter_app_complement. apply length_seq.
Qed.
End Partition.

End Identification.

(** ** The classifier of the script *)

Section Classifier.
Context {F : Type} `{PyFloat F} {mat : Type}.
Implicit Types (bvecs : list (list F)) (s : state (mat:=mat)).

(** C5, as the script has it.  A table of [nt] rows whose first row has
    three entries and whose rows have a norm (no square, sum or square
    root raises) is classified without transposition and without a
    message: the classifier returns two strictly increasing sequences that
    are disjoint and together hold exactly the time indices [0..nt-1], and
    a time index is in [index_b0] exactly when the Euclidean norm of its
    row is below 0.01. *)
Theorem vector_classification bvecs (nt : nat) (row0 : list F) s :
  length bvecs = nt → bvecs !! 0 = Some row0 → length row0 = 3 →
  Forall has_norm bvecs →
  ∃ index_b0 index_dwi : list nat,
    identify_b0_dwi bvecs nt s = (s, Ok (index_b0, index_dwi)) ∧
    StronglySorted lt index_b0 ∧ StronglySorted lt index_dwi ∧
    (∀ t, t ∈ index_b0 → t ∉ index_dwi) ∧
    (∀ t, t < nt ↔ t ∈ index_b0 ∨ t ∈ index_dwi) ∧
    (∀ t row, bvecs !! t = Some row →
       (t ∈ index_b0 ↔ ∃ n, euclidean_norm row n ∧ flt n f_0_01 = true)).
Proof.
  intros Hnt Hrow0 Hw Hrows.
  exists (filter (λ t, b0_row bvecs t) (seq 0 nt)),
         (filter (λ t, ¬ b0_row bvecs t) (seq 0 nt)).
  split; [|split; [|split; [|split; [|split]]]].
  - unfold identify_b0_dwi, mbind, ST_bind.
    change 0%Z with (Z.of_nat 0). rewrite (index_nat_Some _ _ _ Hrow0).
    cbn. rewrite Hw. cbn. rewrite identify_filter; [done|lia|].
    by rewrite take_ge by lia.
  - apply index_b0_sorted.
  - apply index_dwi_sorted.
  - apply index_disjoint.
  - apply index_cover.
  - intros t row Hrow. rewrite elem_of_index_b0.
    rewrite (b0_row_below bvecs t row Hrow)
      by (eapply Forall_lookup_1; [exact Hrows|exact Hrow]).
    apply lookup_lt_Some in Hrow. unfold below_0_01. intuition lia.
Qed.

(** C8, as the script has it.  A table whose first row does not have three
    entries is not rejected: the classifier prints a warning, transposes
    the table itself and classifies the rows of the transposed table; it
    never fails with [MalformedGradientTable]. *)
Theorem transposes_when_not_nx3 bvecs (nt : nat) (row0 : list F) s :
  bvecs !! 0 = Some row0 → length row0 ≠ 3 →
  identify_b0_dwi bvecs nt s = (warned s, identify (Py.zip_star bvecs) nt) ∧
  identify (Py.zip_star bvecs) nt ≠ Raise MalformedGradientTable.
Proof.
  intros Hrow0 Hw. split.
  - unfold identify_b0_dwi, mbind, ST_bind.
    change 0%Z with (Z.of_nat 0). rewrite (index_nat_Some _ _ _ Hrow0).
    cbn. destruct (Nat.eqb_spec (length row0) 3) as [|_]; [done|]. cbn.
    by destruct (identify (Py.zip_star bvecs) nt).
  - intros Hid. apply identify_loop_raises in Hid as [?|[?|?]]; discriminate.
Qed.

End Classifier.

Lemma vector_classification_witness :
  length Sample.bvecs_threshold = 4 ∧
  Sample.bvecs_threshold !! 0 = Some [0;0;0]%float ∧
  Forall has_norm Sample.bvecs_threshold ∧
  ∃ index_b0 index_dwi : list nat,
    identify_b0_dwi Sample.bvecs_threshold 4 (Sample.start Sample.param0)
      = (Sample.start Sample.param0, Ok (index_b0, index_dwi)) ∧
    StronglySorted lt index_b0 ∧ StronglySorted lt index_dwi ∧
    (∀ t, t ∈ index_b0 → t ∉ index_dwi) ∧
    (∀ t, t < 4 ↔ t ∈ index_b0 ∨ t ∈ index_dwi) ∧
    (∀ t row, Sample.bvecs_threshold !! t = Some row →
       (t ∈ index_b0 ↔ ∃ n, euclidean_norm row n ∧ flt n f_0_01 = true)).
Proof.
  assert (Forall has_norm Sample.bvecs_threshold) as Hrows.
  { repeat constructor; eexists; apply norm_Ok; vm_compute; reflexivity. }
  split; [reflexivity|]. split; [reflexivity|]. split; [exact Hrows|].
  apply (vector_classification Sample.bvecs_threshold 4 [0;0;0]%float);
    [reflexivity | reflexivity | reflexivity | exact Hrows].
Defined.

(** On that table the norm tells the second volume, whose components are
    5/1024, from the third, whose components are 3/512: the norms are
    0.00845... and 0.01014..., where the sum of the components is above
    0.01 for both and the largest component below 0.01 for both. *)
Example classification_near_the_threshold :
  (identify_b0_dwi Sample.bvecs_threshold 4 (Sample.start Sample.param0)).2
    = Ok ([0; 1], [2; 3]).
Proof. reflexivity. Qed.

(** C5 as the specification states it fails on a table whose row is
    (2^600, 0, 0): the square of the first component is out of range,
    [i**2] raises [OverflowError] and no classification is output.  It
    also fails on the table without row of a series without volume: the
    classifier asks for the first row. *)
Lemma overflowing_row_is_not_classified :
  length Sample.bvecs_overflow = 1 ∧
  Forall (λ row, length row = 3) Sample.bvecs_overflow ∧
  (identify_b0_dwi Sample.bvecs_overflow 1 (Sample.start Sample.param0)).2
    = Raise OverflowError ∧
  (identify_b0_dwi (F:=float) [] 0 (Sample.start Sample.param0)).2 = Raise IndexError.
Proof. repeat split; repeat constructor. Qed.

Lemma transposes_when_not_nx3_witness :
  Sample.bvecs3xn !! 0 = Some [0;1]%float ∧
  identify_b0_dwi Sample.bvecs3xn 2 (Sample.start Sample.param0)
    = (warned (Sample.start Sample.param0), identify (Py.zip_star Sample.bvecs3xn) 2) ∧
  identify (Py.zip_star Sample.bvecs3xn) 2 ≠ Raise MalformedGradientTable.
Proof.
  split; [reflexivity|].
  apply (transposes_when_not_nx3 Sample.bvecs3xn 2 [0;1]%float).
  - reflexivity.
  - cbn. lia.
Defined.

(** C8 as the specification states it fails on a table written 3xn: no row
    has three entries, and the classifier returns a classification, the one
    of the transposed table. *)
Lemma not_nx3_is_not_rejected :
  Forall (λ row, length row ≠ 3) Sample.bvecs3xn ∧
  (identify_b0_dwi Sample.bvecs3xn 2 (Sample.start Sample.param0)).2 = Ok ([0], [1]) ∧
  (identify_b0_dwi Sample.bvecs3xn 2 (Sample.start Sample.param0)).2
    ≠ Raise MalformedGradientTable.
Proof.
  split; [|split].
  - repeat constructor; cbn; lia.
  - reflexivity.
  - discriminate.
Qed.

(** ** The DWI groups *)

Section Groups.
Context {A : Type}.
Implicit Types (l : list A).

(** The chunks of [size] elements cut from the front of [l]. *)
Lemma concat_chunks l (size q : nat) :
  concat ((λ i, take size (drop (i * size) l)) <$> seq 0 q) = take (q * size) l.
Proof.
  induction q as [|q IH]; [by rewrite take_0|].
  rewrite seq_S, fmap_app, concat_app, IH. cbn.
  rewrite app_nil_r, take_take_drop. f_equal. lia.
Qed.

Lemma chunk_length l (size i : nat) :
  (i + 1) * size ≤ length l → length (take size (drop (i * size) l)) = size.
Proof. intros Hi. rewrite length_take, length_drop. lia. Qed.

End Groups.

(** The groups the script builds, for a positive group size. *)
Lemma build_groups_pos (index_dwi : list nat) (size : nat) :
  0 < size →
  let n := length index_dwi in
  let full := (λ i, take size (drop (i * size) index_dwi)) <$> seq 0 (n / size) in
  let rest := if decide (n `mod` size = 0) then []
              else [drop (n - n `mod` size) index_dwi] in
  build_groups index_dwi (Z.of_nat n) (Z.of_nat size)
    = Ok (Z.of_nat (length (full ++ rest)), full ++ rest).
Proof.
  intros Hsize n full rest. unfold build_groups.
  destruct (Z.eqb_spec (Z.of_nat size) 0) as [|_]; [lia|].
  rewrite <- Nat2Z.inj_div, <- Nat2Z.inj_mod.
  unfold Py.range. rewrite Nat2Z.id.
  assert (((λ iGroup : nat,
             Py.slice index_dwi (Z.of_nat iGroup * Z.of_nat size)
               ((Z.of_nat iGroup + 1) * Z.of_nat size)) <$> seq 0 (n / size)) = full)
    as ->.
  { apply list_fmap_ext. intros _ i _.
    replace (Z.of_nat i * Z.of_nat size)%Z with (Z.of_nat (i * size)) by lia.
    replace ((Z.of_nat i + 1) * Z.of_nat size)%Z with (Z.of_nat ((i + 1) * size)) by lia.
    rewrite slice_nat_clamp by lia. f_equal. lia. }
  pose proof (Nat.mod_upper_bound n size ltac:(lia)) as Hr.
  pose proof (Nat.div_mod_eq n size) as Hdm.
  subst rest. destruct (decide (n `mod` size = 0)) as [Hz|Hnz].
  - destruct (Z.ltb_spec 0 (Z.of_nat (n `mod` size))) as [|_]; [lia|].
    rewrite app_nil_r. unfold full at 2.
    by rewrite length_fmap, length_seq.
  - destruct (Z.ltb_spec 0 (Z.of_nat (n `mod` size))) as [_|]; [|lia].
    replace (Z.of_nat (length index_dwi) - Z.of_nat (n `mod` size))%Z
      with (Z.of_nat (n - n `mod` size)) by (subst n; lia).
    rewrite slice_nat by (subst n; lia).
    rewrite take_ge by (rewrite length_drop; subst n; lia).
    do 2 f_equal. rewrite length_app. unfold full.
    rewrite length_fmap, length_seq. cbn. lia.
Qed.

(** The full groups and the group of the remaining images, put end to
    end. *)
Lemma groups_concat {A} (l : list A) (size : nat) :
  0 < size →
  let n := length l in
  concat (((λ i, take size (drop (i * size) l)) <$> seq 0 (n / size)) ++
          (if decide (n `mod` size = 0) then [] else [drop (n - n `mod` size) l])) = l.
Proof.
  intros Hsize n.
  pose proof (Nat.mod_upper_bound n size ltac:(lia)) as Hr.
  pose proof (Nat.div_mod_eq n size) as Hdm.
  rewrite concat_app, concat_chunks.
  destruct (decide (n `mod` size = 0)) as [Hz|Hnz]; cbn.
  - rewrite app_nil_r, take_ge; [done|]. fold n. lia.
  - rewrite app_nil_r. replace (n - n `mod` size) with (n / size * size) by lia.
    apply take_drop.
Qed.

(** C4. For a positive group size the builder returns [n_dwi / size] full
    groups, each made of [size] consecutive elements of [index_dwi], then
    one more group with the last [n_dwi mod size] elements when that is not
    zero; the number it returns is the number of groups, and the groups
    put end to end are [index_dwi]. *)
Theorem group_builder_law (index_dwi : list nat) (dwi_group_size : Z) :
  (0 < dwi_group_size)%Z →
  let n_dwi := length index_dwi in
  let size := Z.to_nat dwi_group_size in
  ∃ full rest : list (list nat),
    build_groups index_dwi (Z.of_nat n_dwi) dwi_group_size
      = Ok (Z.of_nat (length (full ++ rest)), full ++ rest) ∧
    length full = n_dwi / size ∧
    (∀ i grp, full !! i = Some grp →
       grp = take size (drop (i * size) index_dwi) ∧ length grp = size) ∧
    (n_dwi `mod` size = 0 → rest = []) ∧
    (n_dwi `mod` size ≠ 0 →
       ∃ grp, rest = [grp] ∧ length grp = n_dwi `mod` size ∧
              grp = drop (n_dwi - n_dwi `mod` size) index_dwi) ∧
    concat (full ++ rest) = index_dwi.
Proof.
  intros Hpos n size.
  assert (0 < size) as Hsize by (subst size; lia).
  pose proof (build_groups_pos index_dwi size Hsize) as Hb. cbn zeta in Hb.
  fold n in Hb. replace (Z.of_nat size) with dwi_group_size in Hb by (subst size; lia).
  pose proof (Nat.mod_upper_bound n size ltac:(lia)) as Hr.
  pose proof (Nat.div_mod_eq n size) as Hdm.
  eexists _, _. split; [exact Hb|].
  split; [by rewrite length_fmap, length_seq|].
  split; [|split; [|split]].
  - intros i grp Hi. rewrite list_lookup_fmap in Hi.
    destruct (seq 0 (n / size) !! i) as [j|] eqn:Hj; [|done].
    apply lookup_seq in Hj as [-> Hlt]. injection Hi as <-. split; [done|].
    apply chunk_length. fold n. nia.
  - intros Hz. by rewrite decide_True.
  - intros Hnz. rewrite decide_False by done. eexists. split; [done|].
    split; [|done]. rewrite length_drop. fold n. lia.
  - by apply groups_concat.
Qed.

Lemma group_builder_law_witness :
  (0 < 3)%Z ∧
  ∃ full rest : list (list nat),
    build_groups [1;2;3;5;6;7;8] 7 3 = Ok (Z.of_nat (length (full ++ rest)), full ++ rest) ∧
    length full = 7 / 3 ∧
    (∀ i grp, full !! i = Some grp →
       grp = take 3 (drop (i * 3) [1;2;3;5;6;7;8]) ∧ length grp = 3) ∧
    (7 `mod` 3 = 0 → rest = []) ∧
    (7 `mod` 3 ≠ 0 →
       ∃ grp, rest = [grp] ∧ length grp = 7 `mod` 3 ∧
              grp = drop (7 - 7 `mod` 3) [1;2;3;5;6;7;8]) ∧
    concat (full ++ rest) = [1;2;3;5;6;7;8].
Proof.
  split; [lia|]. apply (group_builder_law [1;2;3;5;6;7;8] 3). lia.
Defined.

(** Scenarios 1 and 2 of the specification. *)
Example scenario1_groups :
  build_groups [1;2;3;5;6;7;8] 7 3 = Ok (3%Z, [[1;2;3];[5;6;7];[8]]).
Proof. reflexivity. Qed.

Example scenario2_groups :
  build_groups [1;2;3;5;6;7;8] 7 7 = Ok (1%Z, [[1;2;3;5;6;7;8]]).
Proof. reflexivity. Qed.

Example scenario1_identify :
  identify Sample.bvecs10 10 = Ok ([0;4;9], [1;2;3;5;6;7;8]).
Proof. reflexivity. Qed.

(** ** The target of the registration of the b=0 volumes *)


Section Target.
Context {F : Type} `{PyFloat F}.
Variables (bvecs : list (list F)) (nt : nat).
Let index_b0 := filter (λ t, b0_row bvecs t) (seq 0 nt).
Let index_dwi := filter (λ t, ¬ b0_row bvecs t) (seq 0 nt).




End Target.

(** Scenario 3: the series starts with a DWI volume. *)
Example scenario3_target :
  b0_target "dmri" [1;3] [0;2;4] = Ok "dmri_T0001.nii".
Proof. reflexivity. Qed.

(** ** Copies of matrix files *)

Lemma range_nat (n : nat) : Py.range (Z.of_nat n) = seq 0 n.
Proof. unfold Py.range. by rewrite Nat2Z.id. Qed.

Section Copies.
Context {mat : Type}.
Implicit Types (fs : gmap matfile mat) (k src dst : matfile).

Lemma cp_Some src dst fs m :
  fs !! src = Some m → src ≠ dst → cp src dst fs = (<[dst:=m]> fs, Ok tt).
Proof. intros Hm Hne. unfold cp. rewrite Hm. by rewrite decide_False. Qed.

Lemma mv_Some src dst fs m :
  fs !! src = Some m → src ≠ dst →
  mv src dst fs = (<[dst:=m]> (delete src fs), Ok tt).
Proof. intros Hm Hne. unfold mv. rewrite Hm. by rewrite decide_False. Qed.


Lemma copied_iff (W W' : matfile → Prop) vol fs fs' :
  (∀ k, W k ↔ W' k) → copied W vol fs fs' → copied W' vol fs fs'.
Proof.
  intros HW Hc k. destruct (Hc k) as [Hin Hout].
  split; intros Hk; [apply Hin | apply Hout]; by rewrite HW.
Qed.

Lemma copied_start vol fs : copied (λ _, False) vol fs fs.
Proof. intros k. split; [done|auto]. Qed.

(** One more file copied from the source volume. *)
Lemma copied_step (W : matfile → Prop) vol fs fs' (t z : nat) (dstd : string) m :
  copied W vol fs fs' → ¬ W (vol, z) → fs !! (vol, z) = Some m →
  copied (λ k, W k ∨ k = (dstd, t, z)) vol fs (<[(dstd, t, z):=m]> fs').
Proof.
  intros Hc Hsrc Hm k. destruct (decide (k = (dstd, t, z))) as [->|Hk].
  - rewrite lookup_insert_eq. split; [by cbn|]. intros Hn. exfalso. auto.
  - rewrite lookup_insert_ne by done. destruct (Hc k) as [Hin Hout].
    split; [intros [?|?]; [auto|done] | intros Hn; apply Hout; auto].
Qed.

(** The matrices of one volume copied, slice by slice, onto the volumes
    [dsts] of the folder [dstd]. *)
Lemma copy_volume (body : nat → nat → ST (gmap matfile mat) unit)
    (dsts : list nat) (nz : nat) (vol : string * nat) (dstd : string) fs :
  (∀ j t z fs', dsts !! j = Some t → z < nz →
     body j z fs' = cp (vol, z) (dstd, t, z) fs') →
  (vol.1 ≠ dstd ∨ vol.2 ∉ dsts) →
  (∀ z, z < nz → is_Some (fs !! (vol, z))) →
  ∃ fs', for_ (seq 0 (length dsts)) (λ j, for_ (seq 0 nz) (body j)) fs = (fs', Ok tt) ∧
         copied (λ k, k.1.1 = dstd ∧ k.1.2 ∈ dsts ∧ k.2 < nz) vol fs fs'.
Proof.
  intros Hbody Hsrc Hex.
  assert (∀ t z : nat, t ∈ dsts → ((vol, z) : matfile) ≠ (dstd, t, z)) as Hne.
  { intros t z Ht Heq. destruct vol as [sd st]; cbn in *.
    injection Heq as -> ->. destruct Hsrc as [?|?]; done. }
  pose (Iout := λ (j : nat) (fs' : gmap matfile mat),
    copied (λ k, k.1.1 = dstd ∧ k.1.2 ∈ take j dsts ∧ k.2 < nz) vol fs fs').
  assert (triple (Iout 0) (for_ (seq 0 (length dsts)) (λ j, for_ (seq 0 nz) (body j)))
            (λ _, Iout (length (seq 0 (length dsts)))) fails_not) as Hloop.
  { apply triple_for. intros j' j Hj. apply lookup_seq in Hj as [Heq Hj]. cbn in Heq. subst j'.
    destruct (lookup_lt_is_Some_2 dsts j Hj) as [t Ht].
    pose (Iin := λ (z0 : nat) (fs' : gmap matfile mat),
      copied (λ k, (k.1.1 = dstd ∧ k.1.2 ∈ take j dsts ∧ k.2 < nz)
                   ∨ (k.1.1 = dstd ∧ k.1.2 = t ∧ k.2 < z0)) vol fs fs').
    eapply triple_conseq with (P' := Iin 0) (Q' := λ _, Iin (length (seq 0 nz)))
                              (E' := fails_not).
    - apply triple_for. intros z' z Hz. apply lookup_seq in Hz as [Heq Hz]. cbn in Heq. subst z'.
      intros fs' Hfs'. rewrite (Hbody j t z fs' Ht Hz).
      destruct (Hex z Hz) as [m Hm].
      assert (¬ ((((vol, z) : matfile).1.1 = dstd ∧ ((vol, z) : matfile).1.2 ∈ take j dsts
                   ∧ ((vol, z) : matfile).2 < nz)
                 ∨ (((vol, z) : matfile).1.1 = dstd ∧ ((vol, z) : matfile).1.2 = t
                    ∧ ((vol, z) : matfile).2 < z))) as Hnw.
      { destruct vol as [sd st]. cbn. intros [(Hd & Hin & _)|(Hd & Ht' & _)].
        - apply (Hne st z); [by eapply subseteq_take | by rewrite Hd].
        - apply (Hne st z); [|by rewrite Hd].
          rewrite Ht'. by eapply list_elem_of_lookup_2. }
      rewrite (cp_Some _ _ _ m).
      + eapply copied_iff; [|exact (copied_step _ vol fs fs' t z dstd m Hfs' Hnw Hm)].
        intros [[d t'] z']. cbn. split.
        * intros [[?|(-> & -> & Hlt)]|[= -> -> ->]]; [by left| |].
          -- right. repeat split; lia.
          -- right. repeat split; lia.
        * intros [?|(-> & -> & Hlt)]; [by left; left|].
          destruct (decide (z' = z)) as [->|]; [by right|].
          left. right. repeat split; lia.
      + destruct (Hfs' (vol, z)) as [_ Hout]. rewrite Hout by done. exact Hm.
      + apply Hne. by eapply list_elem_of_lookup_2.
    - intros fs' Hfs'. eapply copied_iff; [|exact Hfs'].
      intros k. split; [by left|]. intros [?|(_ & _ & ?)]; [done|lia].
    - intros [] fs' Hfs'. rewrite length_seq in Hfs'.
      eapply copied_iff; [|exact Hfs'].
      intros k. rewrite (take_S_r _ _ _ Ht), elem_of_app, list_elem_of_singleton.
      split.
      + intros [(? & ? & ?)|(? & ? & ?)]; tauto.
      + intros (? & [?|?] & ?); tauto.
    - done. }
  destruct (triple_run _ _ _ fs Hloop) as (fs' & [] & Hrun & Hpost).
  { eapply copied_iff; [|apply copied_start].
    intros k. split; [done|]. cbn. intros (_ & Hin & _). by apply elem_of_nil in Hin. }
  exists fs'. split; [done|].
  rewrite length_seq in Hpost. unfold Iout in Hpost.
  by rewrite take_ge in Hpost.
Qed.

End Copies.

(** ** The nearest DWI volume *)

(** [argmin_from] on the rest [l] of a sequence [pre ++ l], knowing the
    best position of [pre]. *)
Lemma argmin_from_spec (pre l : list Z) (best_i : nat) (best : Z) :
  pre !! best_i = Some best →
  (∀ j y, pre !! j = Some y → (best ≤ y)%Z) →
  (∀ j y, j < best_i → pre !! j = Some y → (best < y)%Z) →
  ∃ x, (pre ++ l) !! argmin_from best_i best (length pre) l = Some x ∧
       (∀ j y, (pre ++ l) !! j = Some y → (x ≤ y)%Z) ∧
       (∀ j y, j < argmin_from best_i best (length pre) l →
               (pre ++ l) !! j = Some y → (x < y)%Z).
Proof.
  revert pre best_i best. induction l as [|x l IH]; intros pre best_i best Hb Hle Hlt.
  - cbn. rewrite app_nil_r. eauto.
  - cbn [argmin_from]. replace (pre ++ x :: l) with ((pre ++ [x]) ++ l)
      by (by rewrite <- app_assoc).
    replace (S (length pre)) with (length (pre ++ [x]))
      by (rewrite length_app; cbn; lia).
    destruct (Z.ltb_spec x best) as [Hx|Hx].
    + apply IH.
      * rewrite lookup_app_r by lia. by rewrite Nat.sub_diag.
      * intros j y Hj. apply lookup_app_Some in Hj as [Hj|[_ Hj]].
        -- specialize (Hle j y Hj). lia.
        -- apply list_lookup_singleton_Some in Hj as [_ ->]. lia.
      * intros j y Hjlt Hj. rewrite lookup_app_l in Hj by done.
        specialize (Hle j y Hj). lia.
    + apply IH.
      * rewrite lookup_app_l; [done|]. by eapply lookup_lt_Some.
      * intros j y Hj. apply lookup_app_Some in Hj as [Hj|[_ Hj]].
        -- by eapply Hle.
        -- apply list_lookup_singleton_Some in Hj as [_ ->]. lia.
      * intros j y Hjlt Hj. apply lookup_lt_Some in Hb.
        rewrite lookup_app_l in Hj by lia. by eapply Hlt.
Qed.

(** [np.argmin] returns the first position of the least element. *)
Lemma np_argmin_spec (l : list Z) :
  l ≠ [] →
  ∃ i x, np_argmin l = Ok i ∧ l !! i = Some x ∧
         (∀ j y, l !! j = Some y → (x ≤ y)%Z) ∧
         (∀ j y, j < i → l !! j = Some y → (x < y)%Z).
Proof.
  destruct l as [|x0 l]; [done|]. intros _. cbn [np_argmin].
  destruct (argmin_from_spec [x0] l 0 x0) as (x & Hx & Hle & Hlt).
  - done.
  - intros j y Hj. apply list_lookup_singleton_Some in Hj as [_ ->]. lia.
  - intros j y Hj. lia.
  - exists (argmin_from 0 x0 1 l), x. eauto.
Qed.


(** The bridge: the DWI index nearest to the last b=0 index, the earliest
    one when two are equally near. *)
Lemma bridge_index_spec (index_b0 index_dwi : list nat) :
  index_b0 ≠ [] → index_dwi ≠ [] →
  ∃ i d b, bridge_index index_b0 index_dwi = Ok i ∧
    last index_b0 = Some b ∧ index_dwi !! i = Some d ∧
    (∀ j d', index_dwi !! j = Some d' → (distance d b ≤ distance d' b)%Z) ∧
    (∀ j d', j < i → index_dwi !! j = Some d' → (distance d b < distance d' b)%Z).
Proof.
  intros Hb0 Hdwi.
  destruct (last index_b0) as [b|] eqn:Hlast; [|by apply last_None in Hlast].
  assert (Py.index index_b0 (Z.of_nat (length index_b0) - 1) = Ok b) as Hidx.
  { rewrite last_lookup in Hlast.
    replace (Z.of_nat (length index_b0) - 1)%Z with (Z.of_nat (pred (length index_b0))).
    - by apply index_nat_Some.
    - destruct index_b0; [done|]. cbn. lia. }
  destruct (np_argmin_spec ((λ d, Z.abs (Z.of_nat d - Z.of_nat b)) <$> index_dwi))
    as (i & x & Harg & Hx & Hle & Hlt).
  { by destruct index_dwi. }
  rewrite list_lookup_fmap in Hx.
  destruct (index_dwi !! i) as [d|] eqn:Hd; [|done]. injection Hx as <-.
  exists i, d, b. unfold bridge_index. rewrite Hidx. cbn.
  split; [exact Harg|]. split; [done|]. split; [done|]. split.
  - intros j d' Hj. apply (Hle j). by rewrite list_lookup_fmap, Hj.
  - intros j d' Hji Hj. apply (Hlt j); [done|]. by rewrite list_lookup_fmap, Hj.
Qed.

(** ** Group expansion and bridging *)

Lemma elem_of_concat {A} (gs : list (list A)) (x : A) :
  x ∈ concat gs ↔ ∃ l, l ∈ gs ∧ x ∈ l.
Proof.
  induction gs as [|c gs IH]; cbn.
  - split; [by intros ?%elem_of_nil | by intros (l & ?%elem_of_nil & _)].
  - rewrite elem_of_app, IH. split.
    + intros [Hx|(l & Hl & Hx)]; [exists c | exists l]; split; try done; by constructor.
    + intros (l & [->|Hl]%elem_of_cons & Hx); [by left | right; eauto].
Qed.

Lemma NoDup_concat_disjoint {A} (gs : list (list A)) (g i : nat) (a b : list A) x :
  NoDup (concat gs) → gs !! g = Some a → gs !! i = Some b → g ≠ i →
  x ∈ a → x ∈ b → False.
Proof.
  revert g i. induction gs as [|c gs IH]; intros g i Hnd Ha Hb Hne Hxa Hxb; [done|].
  cbn in Hnd. apply NoDup_app in Hnd as (_ & Hdisj & Hnd).
  assert (∀ j l, gs !! j = Some l → x ∈ l → x ∈ concat gs) as Hin.
  { intros j l Hl Hx. apply elem_of_concat. exists l. split; [|done].
    by eapply list_elem_of_lookup_2. }
  destruct g as [|g], i as [|i]; cbn in Ha, Hb.
  - done.
  - injection Ha as ->. eapply Hdisj; [done|]. by eapply Hin.
  - injection Hb as ->. eapply Hdisj; [done|]. by eapply Hin.
  - eapply (IH g i); eauto.
Qed.

Section Propagation.
Context {mat : Type}.
Implicit Types (fs : gmap matfile mat) (k : matfile).

(** After the group expansion every volume of a group has, slice by slice,
    the matrices estimated for its group; no other file is touched. *)
Lemma copy_groups_spec (groups : list (list nat)) (nz : nat) (mat_final : string) fs :
  mat_final ≠ mat_dwigroups →
  NoDup (concat groups) →
  (∀ g z, g < length groups → z < nz → is_Some (fs !! (mat_dwigroups, g, z))) →
  ∃ fs1, copy_groups (Z.of_nat (length groups)) groups nz mat_final fs = (fs1, Ok tt) ∧
    (∀ g grp t z, groups !! g = Some grp → t ∈ grp → z < nz →
       fs1 !! (mat_final, t, z) = fs !! (mat_dwigroups, g, z)) ∧
    (∀ k, ¬ (k.1.1 = mat_final ∧ k.1.2 ∈ concat groups ∧ k.2 < nz) →
       fs1 !! k = fs !! k).
Proof.
  intros Hdir Hnd Hex.
  pose (Inv := λ (i : nat) (fs1 : gmap matfile mat),
    (∀ g grp t z, g < i → groups !! g = Some grp → t ∈ grp → z < nz →
       fs1 !! (mat_final, t, z) = fs !! (mat_dwigroups, g, z)) ∧
    (∀ k, ¬ (k.1.1 = mat_final ∧ k.1.2 ∈ concat (take i groups) ∧ k.2 < nz) →
       fs1 !! k = fs !! k)).
  assert (triple (Inv 0) (copy_groups (Z.of_nat (length groups)) groups nz mat_final)
            (λ _, Inv (length (seq 0 (length groups)))) fails_not) as Hloop.
  { unfold copy_groups. rewrite range_nat. apply triple_for.
    intros i' i Hi. apply lookup_seq in Hi as [Heq Hi]. cbn in Heq. subst i'.
    destruct (lookup_lt_is_Some_2 groups i Hi) as [grp Hgrp].
    intros fs1 [Hdone Hrest].
    unfold mbind at 1, ST_bind at 1, lift at 1.
    rewrite (index_nat_Some _ _ _ Hgrp), !range_nat.
    destruct (copy_volume
      (λ dwi i_Z,
         g' ← lift (Ok grp);
         t ← lift (Py.index g' (Z.of_nat dwi));
         cp (mat_dwigroups, i, i_Z) (mat_final, t, i_Z))
      grp nz (mat_dwigroups, i) mat_final fs1) as (fs2 & -> & Hcp).
    - intros j t z fs' Hj Hz. unfold mbind, ST_bind, lift.
      by rewrite (index_nat_Some _ _ _ Hj).
    - left. cbn. congruence.
    - intros z Hz. rewrite Hrest; [by apply Hex|].
      cbn. intros [? _]. congruence.
    - split.
      + intros g grp' t z Hg Hgrp' Ht Hz.
        destruct (decide (g = i)) as [->|Hgi].
        * assert (grp' = grp) as -> by congruence.
          destruct (Hcp (mat_final, t, z)) as [Hin _].
          etrans; [by apply Hin|]. cbn.
          apply Hrest. cbn. intros [? _]. congruence.
        * destruct (Hcp (mat_final, t, z)) as [_ Hout]. etrans; [apply Hout|].
          -- cbn. intros (_ & Hin & _).
             by eapply (NoDup_concat_disjoint groups g i grp' grp t).
          -- apply (Hdone g grp'); [lia|done..].
      + intros k Hk. destruct (Hcp k) as [_ Hout]. etrans; [apply Hout|].
        * intros (Hd & Hin & Hz). apply Hk. split; [done|]. split; [|done].
          rewrite (take_S_r _ _ _ Hgrp), concat_app, elem_of_app. right.
          cbn. by rewrite app_nil_r.
        * apply Hrest. intros (Hd & Hin & Hz). apply Hk. split; [done|]. split; [|done].
          rewrite (take_S_r _ _ _ Hgrp), concat_app, elem_of_app. by left. }
  destruct (triple_run _ _ _ fs Hloop) as (fs1 & [] & Hrun & Hdone & Hrest).
  { split; [intros; lia|done]. }
  exists fs1. split; [done|]. rewrite length_seq in Hdone, Hrest. split.
  - intros g grp t z Hgrp. apply Hdone; [by eapply lookup_lt_Some|done].
  - intros k Hk. apply Hrest. by rewrite take_ge.
Qed.

(** After the bridging every b=0 volume has, slice by slice, the matrices
    that the DWI volume [d] chosen by [bridge_index] had before. *)
Lemma copy_bridge_spec (index_b0 index_dwi : list nat) (nz : nat)
    (mat_final : string) fs (i d : nat) :
  bridge_index index_b0 index_dwi = Ok i → index_dwi !! i = Some d →
  d ∉ index_b0 →
  (∀ z, z < nz → is_Some (fs !! (mat_final, d, z))) →
  ∃ fs2, copy_bridge index_b0 index_dwi nz mat_final fs = (fs2, Ok tt) ∧
    copied (λ k, k.1.1 = mat_final ∧ k.1.2 ∈ index_b0 ∧ k.2 < nz)
           (mat_final, d) fs fs2.
Proof.
  intros Hi Hd Hnotin Hex. unfold copy_bridge.
  unfold mbind at 1, ST_bind at 1, lift at 1. rewrite Hi, !range_nat.
  apply copy_volume.
  - intros j t z fs' Hj Hz. unfold mbind, ST_bind, lift.
    by rewrite (index_nat_Some _ _ _ Hd), (index_nat_Some _ _ _ Hj).
  - by right.
  - done.
Qed.

End Propagation.

(** ** The transformation matrices after expansion and bridging *)

Lemma build_groups_concat (index_dwi : list nat) (g nb_groups : Z)
    (group_indexes : list (list nat)) :
  (0 < g)%Z →
  build_groups index_dwi (Z.of_nat (length index_dwi)) g = Ok (nb_groups, group_indexes) →
  nb_groups = Z.of_nat (length group_indexes) ∧ concat group_indexes = index_dwi.
Proof.
  intros Hg Hb.
  assert (0 < Z.to_nat g) as Hsize by lia.
  pose proof (build_groups_pos index_dwi (Z.to_nat g) Hsize) as Heq. cbn zeta in Heq.
  rewrite Z2Nat.id in Heq by lia. rewrite Heq in Hb. injection Hb as <- <-.
  split; [done|]. by apply groups_concat.
Qed.

Section Final.
Context {F : Type} `{PyFloat F} {mat : Type}.
Implicit Types (fs : gmap matfile mat).

(** The two copies run to the end on the output of the classifier and of
    the group builder, once the DWI pass has left one matrix per group and
    slice. *)
Lemma expansion_and_bridging (bvecs : list (list F)) (nt nz : nat) (g nb_groups : Z)
    (index_b0 index_dwi : list nat) (group_indexes : list (list nat)) fs :
  identify bvecs nt = Ok (index_b0, index_dwi) →
  index_b0 ≠ [] → index_dwi ≠ [] → (0 < g)%Z →
  build_groups index_dwi (Z.of_nat (length index_dwi)) g = Ok (nb_groups, group_indexes) →
  (∀ i z, i < length group_indexes → z < nz → is_Some (fs !! (mat_dwigroups, i, z))) →
  ∃ fs1 fs2 i d b,
    copy_groups nb_groups group_indexes nz "mat_final/" fs = (fs1, Ok tt) ∧
    copy_bridge index_b0 index_dwi nz "mat_final/" fs1 = (fs2, Ok tt) ∧
    (∀ t z, t ∈ index_dwi → z < nz → is_Some (fs1 !! ("mat_final/", t, z))) ∧
    (∀ k : matfile, ¬ (k.1.1 = "mat_final/" ∧ k.1.2 ∈ index_dwi ∧ k.2 < nz) →
       fs1 !! k = fs !! k) ∧
    bridge_index index_b0 index_dwi = Ok i ∧
    last index_b0 = Some b ∧ index_dwi !! i = Some d ∧
    (∀ j d', index_dwi !! j = Some d' → (distance d b ≤ distance d' b)%Z) ∧
    (∀ j d', j < i → index_dwi !! j = Some d' → (distance d b < distance d' b)%Z) ∧
    copied (λ k, k.1.1 = "mat_final/" ∧ k.1.2 ∈ index_b0 ∧ k.2 < nz)
           ("mat_final/", d) fs1 fs2.
Proof.
  intros (Hnt & -> & ->)%identify_Ok Hb0 Hdwi Hg Hgroups Hengine.
  set (index_b0 := filter (λ t, b0_row bvecs t) (seq 0 nt)) in *.
  set (index_dwi := filter (λ t, ¬ b0_row bvecs t) (seq 0 nt)) in *.
  apply build_groups_concat in Hgroups as [-> Hcat]; [|done].
  destruct (copy_groups_spec group_indexes nz "mat_final/" fs)
    as (fs1 & Hrun1 & Hexp & Hrest); [done| |done|].
  { rewrite Hcat. apply NoDup_filter, NoDup_seq. }
  destruct (bridge_index_spec index_b0 index_dwi Hb0 Hdwi)
    as (i & d & b & Hi & Hlast & Hd & Hnear & Hfirst).
  assert (d ∈ index_dwi) as Hdin by (by eapply list_elem_of_lookup_2).
  assert (∀ t z, t ∈ index_dwi → z < nz → is_Some (fs1 !! ("mat_final/", t, z))) as Hsome.
  { intros t z Ht Hz. rewrite <- Hcat in Ht.
    apply elem_of_concat in Ht as (grp & Hgrp & Ht).
    apply list_elem_of_lookup in Hgrp as [j Hj].
    rewrite (Hexp j grp t z Hj Ht Hz). apply Hengine; [|done].
    by eapply lookup_lt_Some. }
  destruct (copy_bridge_spec index_b0 index_dwi nz "mat_final/" fs1 i d Hi Hd)
    as (fs2 & Hrun2 & Hcp).
  { intros Hin. by apply (index_disjoint bvecs nt d). }
  { intros z Hz. by apply Hsome. }
  exists fs1, fs2, i, d, b. rewrite Hcat in Hrest. done.
Qed.

(** C6.  With at least one b=0 and one DWI volume, a positive group size,
    one matrix per group and slice left by the DWI pass and a fresh
    [mat_final/] folder: after the group expansion and the bridging the
    folder holds a matrix for [(t, z)] exactly when [t < nt] and [z < nz];
    the files of a folder being a finite map, that is one matrix per key. *)
Theorem final_domain_coverage (bvecs : list (list F)) (nt nz : nat) (g nb_groups : Z)
    (index_b0 index_dwi : list nat) (group_indexes : list (list nat)) fs :
  identify bvecs nt = Ok (index_b0, index_dwi) →
  index_b0 ≠ [] → index_dwi ≠ [] → (0 < g)%Z →
  build_groups index_dwi (Z.of_nat (length index_dwi)) g = Ok (nb_groups, group_indexes) →
  (∀ i z, i < length group_indexes → z < nz → is_Some (fs !! (mat_dwigroups, i, z))) →
  (∀ t z, fs !! ("mat_final/", t, z) = None) →
  ∃ fs',
    (copy_groups nb_groups group_indexes nz "mat_final/";;
     copy_bridge index_b0 index_dwi nz "mat_final/") fs = (fs', Ok tt) ∧
    ∀ t z, is_Some (fs' !! ("mat_final/", t, z)) ↔ t < nt ∧ z < nz.
Proof.
  intros Hid Hb0 Hdwi Hg Hgroups Hengine Hfresh.
  destruct (expansion_and_bridging bvecs nt nz g nb_groups index_b0 index_dwi
              group_indexes fs Hid Hb0 Hdwi Hg Hgroups Hengine)
    as (fs1 & fs2 & i & d & b & Hrun1 & Hrun2 & Hsome & Hrest & _ & _ & Hd & _ & _ & Hcp).
  apply identify_Ok in Hid as (Hnt & -> & ->).
  exists fs2. split.
  { unfold mbind, ST_bind. by rewrite Hrun1. }
  assert (d ∈ filter (λ t, ¬ b0_row bvecs t) (seq 0 nt)) as Hdin
    by (by eapply list_elem_of_lookup_2).
  intros t z. destruct (Hcp ("mat_final/", t, z)) as [Hin Hout]. cbn in Hin, Hout.
  split.
  - intros Hs.
    destruct (decide (t ∈ filter (λ t, b0_row bvecs t) (seq 0 nt) ∧ z < nz)) as [[Ht Hz]|Hn].
    + split; [|done]. by apply elem_of_index_b0 in Ht as [? _].
    + rewrite Hout in Hs by tauto.
      destruct (decide (t ∈ filter (λ t, ¬ b0_row bvecs t) (seq 0 nt) ∧ z < nz))
        as [[Ht Hz]|Hn'].
      * split; [|done]. by apply elem_of_index_dwi in Ht as [? _].
      * rewrite Hrest, Hfresh in Hs by (cbn; tauto). by destruct Hs.
  - intros [Ht Hz]. apply (index_cover bvecs nt) in Ht as [Ht|Ht].
    + rewrite Hin by done. by apply Hsome.
    + rewrite Hout; [by apply Hsome|].
      intros (_ & Ht' & _). by apply (index_disjoint bvecs nt t).
Qed.

(** C1, as the script has it.  The matrices copied onto every b=0 volume,
    for every slice, are those that the expansion gave to one DWI volume:
    the one whose time index is nearest to the last b=0 index (the first
    such in time order if two are equally near). *)
Theorem bridge_is_nearest_dwi (bvecs : list (list F)) (nt nz : nat) (g nb_groups : Z)
    (index_b0 index_dwi : list nat) (group_indexes : list (list nat)) fs :
  identify bvecs nt = Ok (index_b0, index_dwi) →
  index_b0 ≠ [] → index_dwi ≠ [] → (0 < g)%Z →
  build_groups index_dwi (Z.of_nat (length index_dwi)) g = Ok (nb_groups, group_indexes) →
  (∀ i z, i < length group_indexes → z < nz → is_Some (fs !! (mat_dwigroups, i, z))) →
  ∃ fs1 fs2 i d b,
    copy_groups nb_groups group_indexes nz "mat_final/" fs = (fs1, Ok tt) ∧
    copy_bridge index_b0 index_dwi nz "mat_final/" fs1 = (fs2, Ok tt) ∧
    last index_b0 = Some b ∧ index_dwi !! i = Some d ∧
    (∀ j d', index_dwi !! j = Some d' → (distance d b ≤ distance d' b)%Z) ∧
    (∀ j d', j < i → index_dwi !! j = Some d' → (distance d b < distance d' b)%Z) ∧
    ∀ t z, t ∈ index_b0 → z < nz →
      is_Some (fs1 !! ("mat_final/", d, z)) ∧
      fs2 !! ("mat_final/", t, z) = fs1 !! ("mat_final/", d, z).
Proof.
  intros Hid Hb0 Hdwi Hg Hgroups Hengine.
  destruct (expansion_and_bridging bvecs nt nz g nb_groups index_b0 index_dwi
              group_indexes fs Hid Hb0 Hdwi Hg Hgroups Hengine)
    as (fs1 & fs2 & i & d & b & Hrun1 & Hrun2 & Hsome & _ & _ & Hlast & Hd
        & Hnear & Hfirst & Hcp).
  exists fs1, fs2, i, d, b. repeat (split; [done|]).
  intros t z Ht Hz. split.
  - apply Hsome; [|done]. by eapply list_elem_of_lookup_2.
  - destruct (Hcp ("mat_final/", t, z)) as [Hin _]. by apply Hin.
Qed.

End Final.

Lemma after_passes_dwigroups (i z : nat) :
  i < 3 → z < 1 → is_Some (Sample.after_passes !! (mat_dwigroups, i, z)).
Proof.
  intros Hi Hz. assert (z = 0) as -> by lia.
  destruct i as [|[|[|i]]]; [by eexists..|lia].
Qed.

Lemma after_passes_fresh (t z : nat) :
  Sample.after_passes !! ("mat_final/", t, z) = None.
Proof.
  apply not_elem_of_list_to_map_1. cbn.
  rewrite !elem_of_cons, elem_of_nil. intros H; decompose [or] H; done.
Qed.

Lemma final_domain_coverage_witness :
  ∃ fs',
    (copy_groups 3 [[1;2;3];[5;6;7];[8]] 1 "mat_final/";;
     copy_bridge [0;4;9] [1;2;3;5;6;7;8] 1 "mat_final/") Sample.after_passes
      = (fs', Ok tt) ∧
    ∀ t z, is_Some (fs' !! ("mat_final/", t, z)) ↔ t < 10 ∧ z < 1.
Proof.
  apply (final_domain_coverage Sample.bvecs10 10 1 3 3 [0;4;9] [1;2;3;5;6;7;8]
           [[1;2;3];[5;6;7];[8]] Sample.after_passes).
  - reflexivity.
  - done.
  - done.
  - lia.
  - reflexivity.
  - apply after_passes_dwigroups.
  - apply after_passes_fresh.
Defined.

Lemma bridge_is_nearest_dwi_witness :
  ∃ fs1 fs2 i d b,
    copy_groups 3 [[1;2;3];[5;6;7];[8]] 1 "mat_final/" Sample.after_passes = (fs1, Ok tt) ∧
    copy_bridge [0;4;9] [1;2;3;5;6;7;8] 1 "mat_final/" fs1 = (fs2, Ok tt) ∧
    last [0;4;9] = Some b ∧ [1;2;3;5;6;7;8] !! i = Some d ∧
    (∀ j d', [1;2;3;5;6;7;8] !! j = Some d' → (distance d b ≤ distance d' b)%Z) ∧
    (∀ j d', j < i → [1;2;3;5;6;7;8] !! j = Some d' → (distance d b < distance d' b)%Z) ∧
    ∀ t z, t ∈ [0;4;9] → z < 1 →
      is_Some (fs1 !! ("mat_final/", d, z)) ∧
      fs2 !! ("mat_final/", t, z) = fs1 !! ("mat_final/", d, z).
Proof.
  apply (bridge_is_nearest_dwi Sample.bvecs10 10 1 3 3 [0;4;9] [1;2;3;5;6;7;8]
           [[1;2;3];[5;6;7];[8]] Sample.after_passes).
  - reflexivity.
  - done.
  - done.
  - lia.
  - reflexivity.
  - apply after_passes_dwigroups.
Defined.

(** C1 as the specification states it fails on the series of scenario 1.
    The b=0 index nearest to the last DWI index (8) is 9; after the
    expansion no matrix is filed under 9, and what the b=0 volumes receive
    is the matrix of DWI volume 8, that of group 2. *)
Lemma bridge_is_not_nearest_b0 :
  let fs1 := (copy_groups 3 [[1;2;3];[5;6;7];[8]] 1 "mat_final/" Sample.after_passes).1 in
  let fs2 := (copy_bridge [0;4;9] [1;2;3;5;6;7;8] 1 "mat_final/" fs1).1 in
  identify Sample.bvecs10 10 = Ok ([0;4;9], [1;2;3;5;6;7;8]) ∧
  nearest_b0_to_last_dwi [0;4;9] [1;2;3;5;6;7;8] = Ok 9 ∧
  fs1 !! ("mat_final/", 9, 0) = None ∧
  fs2 !! ("mat_final/", 0, 0) = Some "DWI group 2" ∧
  fs2 !! ("mat_final/", 0, 0) ≠ fs1 !! ("mat_final/", 9, 0).
Proof. vm_compute. repeat split; done. Qed.

(** ** The calls of the registration engine *)

Lemma moco_calls_app (tr1 tr2 : list event) :
  moco_calls (tr1 ++ tr2) = moco_calls tr1 ++ moco_calls tr2.
Proof. unfold moco_calls. apply bind_app. Qed.

Section Calls.
Context {F : Type} `{PyFloat F} {mat : Type}.
Variable w : world (F:=F) (mat:=mat).
Local Abbreviation state := (state (mat:=mat)).

Lemma quiet_ret {A} (a : A) : quiet (mret a : ST state A).
Proof. by intros s. Qed.

Lemma quiet_lift {A} (r : result A) : quiet (lift r : ST state A).
Proof. by intros s. Qed.

Lemma quiet_gets {A} (f : state → A) : quiet (gets f).
Proof. by intros s. Qed.

Lemma quiet_bind {A B} (c : ST state A) (k : A → ST state B) :
  quiet c → (∀ a, quiet (k a)) → quiet (c ≫= k).
Proof.
  intros Hc Hk s. specialize (Hc s). unfold mbind, ST_bind.
  destruct (c s) as [s1 [a|e]]; cbn in *; [|done].
  by rewrite Hk.
Qed.

Lemma quiet_for {A} (l : list A) (body : A → ST state unit) :
  (∀ x, quiet (body x)) → quiet (for_ l body).
Proof.
  intros Hbody. induction l as [|x l IH]; cbn [for_].
  - apply quiet_ret.
  - apply quiet_bind; [apply Hbody | by intros _].
Qed.

Lemma quiet_set_param (f : param → param) : quiet (set_param (mat:=mat) f).
Proof. by intros s. Qed.

Lemma quiet_on_files {A} (c : ST (gmap matfile mat) A) : quiet (on_files c).
Proof. intros s. unfold on_files. by destruct (c (st_fs s)). Qed.

Lemma quiet_log (e : event) : moco_call e = [] → quiet (log (mat:=mat) e).
Proof.
  intros He s. cbn. rewrite moco_calls_app. cbn. by rewrite He, !app_nil_r.
Qed.

Lemma quiet_run (cmd : string) : quiet (run w cmd).
Proof.
  unfold run. apply quiet_bind; [by apply quiet_log|].
  intros _. destruct (sh w cmd); [apply quiet_ret | apply quiet_lift].
Qed.

Lemma quiet_combine_matrix : quiet (call CombineMatrix (combine_matrix w)).
Proof.
  intros s. unfold call, mbind, ST_bind. cbn.
  destruct (combine_matrix w (st_param s) (st_fs s)) as [[p' fs']|]; cbn;
    rewrite moco_calls_app; cbn; by rewrite app_nil_r.
Qed.

Lemma quiet_emits {A} (c : ST state A) : quiet c → emits c [].
Proof.
  intros Hc s. exists []. rewrite app_nil_r. split; [apply Hc|].
  by destruct ((c s).2).
Qed.

Lemma emits_bind {A B} (c : ST state A) (k : A → ST state B) l1 l2 :
  emits c l1 → (∀ a, emits (k a) l2) → emits (c ≫= k) (l1 ++ l2).
Proof.
  intros Hc Hk s. destruct (Hc s) as (cs1 & Hcs1 & Hr1).
  unfold mbind, ST_bind. destruct (c s) as [s1 [a|e]]; cbn in *.
  - subst cs1. destruct (Hk a s1) as (cs2 & Hcs2 & Hr2).
    exists (l1 ++ cs2). rewrite Hcs2, Hcs1, app_assoc. split; [done|].
    destruct ((k a s1).2); [by subst | by apply prefix_app].
  - exists cs1. split; [done|]. by apply prefix_app_r.
Qed.

Lemma emits_quiet_bind {A B} (c : ST state A) (k : A → ST state B) l :
  quiet c → (∀ a, emits (k a) l) → emits (c ≫= k) l.
Proof. intros Hc Hk. apply (emits_bind c k [] l); [by apply quiet_emits|done]. Qed.

Lemma emits_bind_quiet {A B} (c : ST state A) (k : A → ST state B) l :
  emits c l → (∀ a, quiet (k a)) → emits (c ≫= k) l.
Proof.
  intros Hc Hk. rewrite <- (app_nil_r l).
  apply emits_bind; [done|]. intros a. by apply quiet_emits.
Qed.

End Calls.

Section Routing.
Context {F : Type} `{PyFloat F} {mat : Type}.
Variable w : world (F:=F) (mat:=mat).

Lemma quiet_identify_b0_dwi (bvecs : list (list F)) (nt : nat) :
  quiet (identify_b0_dwi (mat:=mat) bvecs nt).
Proof.
  unfold identify_b0_dwi. apply quiet_bind; [apply quiet_lift|]. intros row0.
  apply quiet_bind; [|intros; apply quiet_lift].
  destruct (negb (length row0 =? 3)); [|apply quiet_ret].
  apply quiet_bind; [by apply quiet_log | intros; apply quiet_ret].
Qed.

Lemma quiet_split_and_average_b0 (fname_data file_data : string)
    (index_b0 : list nat) (n_b0 : Z) :
  quiet (split_and_average_b0 w fname_data file_data index_b0 n_b0).
Proof.
  unfold split_and_average_b0.
  repeat first [ apply quiet_run | apply quiet_lift
               | apply quiet_bind; [|intros ?] ].
Qed.

Lemma quiet_average_groups (file_data : string) (nb_groups : Z)
    (group_indexes : list (list nat)) :
  quiet (average_groups w file_data nb_groups group_indexes).
Proof.
  unfold average_groups.
  repeat first [ apply quiet_run | apply quiet_lift
               | apply quiet_for; intros ?
               | apply quiet_bind; [|intros ?] ].
Qed.

Lemma quiet_propagate (nb_groups : Z) (group_indexes : list (list nat))
    (index_b0 index_dwi : list nat) (nz : nat) (mat_final : string) :
  quiet (propagate (mat:=mat) nb_groups group_indexes index_b0 index_dwi nz mat_final).
Proof.
  unfold propagate.
  repeat first [ apply quiet_on_files | apply quiet_bind; [|intros ?] ].
Qed.

Lemma quiet_combine (mat_final : string) (nt nz : nat) (verbose : Z)
    (index_b0 : list nat) :
  quiet (combine w mat_final nt nz verbose index_b0).
Proof.
  unfold combine.
  apply quiet_bind; [apply quiet_set_param | intros _].
  apply quiet_bind; [apply quiet_set_param | intros _].
  apply quiet_bind; [apply quiet_combine_matrix | intros _].
  apply quiet_bind; [apply quiet_gets | intros p].
  apply quiet_bind.
  - destruct (Py.truthy (spline_fitting p)); [|apply quiet_ret].
    apply quiet_bind; [by apply quiet_log | intros _].
    apply quiet_bind; [apply quiet_gets | intros fs].
    destruct (spline w _ _ _ _ _ _ fs); [by intros s | apply quiet_lift].
  - intros _. apply quiet_bind; [apply quiet_gets | intros p'].
    destruct (Py.truthy (run_eddy p')); [|apply quiet_ret].
    apply quiet_bind; [apply quiet_set_param | intros _].
    apply quiet_bind; [apply quiet_set_param | intros _].
    apply quiet_combine_matrix.
Qed.

(** The DWI pass is asked for trilinear interpolation. *)
Lemma emits_estimate_dwi_groups :
  emits (estimate_dwi_groups w)
    [("dwi_averaged_groups.nii", "estimate_and_apply", "trilinear")].
Proof.
  intros s. unfold estimate_dwi_groups, call, mbind, ST_bind. cbn.
  match goal with |- context [moco w ?p ?fs] => destruct (moco w p fs) as [[p' fs']|] end;
    cbn; rewrite moco_calls_app; cbn; eexists; (split; [reflexivity|done]).
Qed.

(** So is the b=0 pass. *)
Lemma emits_estimate_b0 (file_data : string) (index_b0 index_dwi : list nat) :
  emits (estimate_b0 w file_data index_b0 index_dwi)
    [("b0.nii", "estimate_and_apply", "trilinear")].
Proof.
  intros s. unfold estimate_b0, call, mbind, ST_bind.
  destruct (b0_target file_data index_b0 index_dwi) as [target|e]; cbn.
  - match goal with |- context [moco w ?p ?fs] => destruct (moco w p fs) as [[p' fs']|] end;
      cbn; rewrite moco_calls_app; cbn; eexists; (split; [reflexivity|done]).
  - exists []. rewrite app_nil_r. split; [done|]. apply prefix_nil.
Qed.

(** The final pass is asked for the interpolation it is given. *)
Lemma emits_apply_all (fname_data_initial mat_final interp : string) :
  emits (apply_all w fname_data_initial mat_final interp)
    [(fname_data_initial, "apply", interp)].
Proof.
  intros s. unfold apply_all, call, run, mbind, ST_bind. cbn.
  match goal with |- context [moco w ?p ?fs] => destruct (moco w p fs) as [[p' fs']|] end; cbn.
  - match goal with |- context [sh w ?c] => destruct (sh w c) end;
      cbn; rewrite !moco_calls_app; cbn; rewrite app_nil_r;
      eexists; (split; [reflexivity|done]).
  - rewrite moco_calls_app; cbn. eexists; (split; [reflexivity|done]).
Qed.

(** C10.  Whatever the configuration, the collaborators and the series,
    in a run without a bvals file: the calls of the registration engine
    are, in this order, the pass on the DWI groups with trilinear
    interpolation, the pass on the b=0 volumes with trilinear
    interpolation, and the apply pass on the initial series with the
    interpolation configured at the start; a run that raises has made the
    first ones of these calls only. *)
Theorem interpolation_routing (fname_data_initial : string) (s : state (mat:=mat)) :
  fname_bvals (st_param s) = "" →
  ∃ cs,
    moco_calls (st_trace (dmri_moco w fname_data_initial s).1)
      = moco_calls (st_trace s) ++ cs ∧
    cs `prefix_of`
      [("dwi_averaged_groups.nii", "estimate_and_apply", "trilinear");
       ("b0.nii", "estimate_and_apply", "trilinear");
       (fname_data_initial, "apply", interp (st_param s))] ∧
    ((dmri_moco w fname_data_initial s).2 = Ok tt →
     cs = [("dwi_averaged_groups.nii", "estimate_and_apply", "trilinear");
           ("b0.nii", "estimate_and_apply", "trilinear");
           (fname_data_initial, "apply", interp (st_param s))]).
Proof.
  intros _.
  assert (∀ p0 : param, emits
    (let '(path_data, file_data, ext_data) := extract_fname w (fname_data p0) in
     let '(nx, ny, nz, nt) := get_dimension w (fname_data p0) in
     '(index_b0, index_dwi) ← identify_b0_dwi (read_bvecs w (fname_bvecs p0)) nt;
     split_and_average_b0 w (fname_data p0) file_data index_b0
       (Z.of_nat (length index_b0));;
     '(nb_groups, group_indexes) ←
       lift (build_groups index_dwi (Z.of_nat (length index_dwi)) (dwi_group_size p0));
     average_groups w file_data nb_groups group_indexes;;
     estimate_dwi_groups w;;
     estimate_b0 w file_data index_b0 index_dwi;;
     propagate nb_groups group_indexes index_b0 index_dwi nz "mat_final/";;
     combine w "mat_final/" nt nz (verbose p0) index_b0;;
     apply_all w fname_data_initial "mat_final/" (interp p0))
    [("dwi_averaged_groups.nii", "estimate_and_apply", "trilinear");
     ("b0.nii", "estimate_and_apply", "trilinear");
     (fname_data_initial, "apply", interp p0)]) as Hbody.
  { intros p0.
    destruct (extract_fname w (fname_data p0)) as [[path_data file_data] ext_data].
    destruct (get_dimension w (fname_data p0)) as [[[nx ny] nz] nt].
    apply emits_quiet_bind; [apply quiet_identify_b0_dwi|]. intros [index_b0 index_dwi].
    apply emits_quiet_bind; [apply quiet_split_and_average_b0|]. intros _.
    apply emits_quiet_bind; [apply quiet_lift|]. intros [nb_groups group_indexes].
    apply emits_quiet_bind; [apply quiet_average_groups|]. intros _.
    apply (emits_bind _ _ [_] [_; _]); [apply emits_estimate_dwi_groups|]. intros _.
    apply (emits_bind _ _ [_] [_]); [apply emits_estimate_b0|]. intros _.
    apply emits_quiet_bind; [apply quiet_propagate|]. intros _.
    apply emits_quiet_bind; [apply quiet_combine|]. intros _.
    apply emits_apply_all. }
  destruct (Hbody (st_param s) s) as (cs & Hcs & Hr).
  exists cs. split; [exact Hcs|].
  change (dmri_moco w fname_data_initial s) with
    ((let '(path_data, file_data, ext_data) := extract_fname w (fname_data (st_param s)) in
     let '(nx, ny, nz, nt) := get_dimension w (fname_data (st_param s)) in
     '(index_b0, index_dwi) ← identify_b0_dwi (read_bvecs w (fname_bvecs (st_param s))) nt;
     split_and_average_b0 w (fname_data (st_param s)) file_data index_b0
       (Z.of_nat (length index_b0));;
     '(nb_groups, group_indexes) ←
       lift (build_groups index_dwi (Z.of_nat (length index_dwi))
               (dwi_group_size (st_param s)));
     average_groups w file_data nb_groups group_indexes;;
     estimate_dwi_groups w;;
     estimate_b0 w file_data index_b0 index_dwi;;
     propagate nb_groups group_indexes index_b0 index_dwi nz "mat_final/";;
     combine w "mat_final/" nt nz (verbose (st_param s)) index_b0;;
     apply_all w fname_data_initial "mat_final/" (interp (st_param s))) s).
  destruct (_ s).2 as [[]|e]; [by subst|]. split; [done|]. discriminate.
Qed.

End Routing.

(** ** The events a command adds to the trace *)


Section Adds.
Context {F : Type} `{PyFloat F} {mat : Type}.
Variable w : world (F:=F) (mat:=mat).
Local Abbreviation state := (state (mat:=mat)).
Implicit Types (Q : event → Prop).






















End Adds.

(** ** Runs of commands *)

Lemma bind_Ok {S A B} (c : ST S A) (k : A → ST S B) s s' a :
  c s = (s', Ok a) → (c ≫= k) s = k a s'.
Proof. intros Hc. unfold mbind, ST_bind. by rewrite Hc. Qed.

Lemma bind_Raise {S A B} (c : ST S A) (k : A → ST S B) s s' e :
  c s = (s', Raise e) → (c ≫= k) s = (s', Raise e).
Proof. intros Hc. unfold mbind, ST_bind. by rewrite Hc. Qed.

(** ** The target of the pass on the b=0 volumes *)



Section B0Pass.
Context {F : Type} `{PyFloat F} {mat : Type}.
Variable w : world (F:=F) (mat:=mat).


End B0Pass.


(** Scenario 1: the first DWI index is 1, the pass on the b=0 volumes is
    given the volume of time index 0 as target. *)
Example scenario1_targets :
  let w := Sample.collaborators Sample.bvecs10 10 Sample.volumes10 (λ _, false) in
  let r := dmri_moco w "dmri.nii" (Sample.start Sample.param0) in
  r.2 = Ok tt ∧
  moco_targets (st_trace r.1) =
    [("dwi_averaged_groups.nii", "dwi_mean_0"); ("b0.nii", "dmri_T0000.nii");
     ("dmri.nii", "b0")].
Proof. vm_compute. done. Qed.

(** ** The scalar form *)

(** The identification from a bvals file does not look at the b-values:
    for every table it yields an empty array of b=0 indices, the array
    [[0]] of DWI indices, and counts one of each. *)
Lemma bvals_identify_constant {A} (bvals : list (list A)) :
  Bvals.identify bvals = ([[]], [[0]], 1%Z, 1%Z).
Proof. reflexivity. Qed.

(** C9 on four volumes with b-values 0, 1000, 1000, 0: the indices in the
    band are 1 and 2, and the script finds no b=0 index at all. *)
Lemma bvals_identify_ignores_band :
  band_indices [0; 1000; 1000; 0]%float = ([1;2], [0;3]) ∧
  Bvals.identify Sample.bvals4 = ([[]], [[0]], 1%Z, 1%Z).
Proof. split; reflexivity. Qed.

(** ** The renaming of the b=0 matrices *)

(** C2 on the series of four volumes whose b=0 indices are 0, 2 and 3.
    Rank 1 is moved onto the file of rank 2, which has not been moved yet,
    and is moved again as if it were rank 2: the matrix estimated for rank
    2 is lost, index 2 is left without a matrix and index 3 holds the
    matrix of rank 1. *)
Lemma rename_b0_overwrites_rank :
  let r := rename_b0 [0;2;3] Sample.after_b0_pass in
  identify Sample.bvecs4 4 = Ok ([0;2;3], [1]) ∧
  r.2 = Ok tt ∧
  r.1 !! (mat_b0groups, 0, 0) = Some "b0 rank 0" ∧
  r.1 !! (mat_b0groups, 2, 0) = None ∧
  r.1 !! (mat_b0groups, 3, 0) = Some "b0 rank 1" ∧
  (∀ k, r.1 !! k ≠ Some "b0 rank 2").
Proof.
  assert ((rename_b0 [0;2;3] Sample.after_b0_pass).1 =
            <[(mat_b0groups, 0, 0):="b0 rank 0"]>
              (<[(mat_b0groups, 3, 0):="b0 rank 1"]> ∅)) as Hr
    by (vm_compute; reflexivity).
  cbv zeta. repeat (split; [vm_compute; reflexivity|]).
  intros k. rewrite Hr.
  rewrite lookup_insert. case_decide; [done|].
  rewrite lookup_insert. case_decide; [done|].
  by rewrite lookup_empty.
Qed.

(** ** The names of the matrix files

    In one folder, the files of different volumes or slices have different
    names: the file map keyed by folder, volume and slice is the folder
    on disk. *)

Lemma pretty_N_char_digit (x : N) : is_digit (pretty_N_char x) = true.
Proof. unfold pretty_N_char. by repeat case_match. Qed.

Lemma pretty_N_go_digits (x : N) (s : string) :
  digits s → digits (pretty_N_go x s).
Proof.
  revert s. induction (N.lt_wf_0 x) as [x _ IH]; intros s Hs.
  assert (x = 0 ∨ 0 < x)%N as [->|Hpos] by lia.
  - by rewrite pretty_N_go_0.
  - rewrite pretty_N_go_step by done. apply IH.
    + by apply N.div_lt.
    + split; [apply pretty_N_char_digit | done].
Qed.

Lemma str_digits (n : nat) : digits (Py.str n).
Proof.
  unfold Py.str, pretty, pretty_nat, pretty, pretty_N.
  case_decide; [done|]. by apply pretty_N_go_digits.
Qed.

(** Two strings of digits followed by the same character that is not a
    digit. *)
Lemma digits_then_other (a a' r r' : string) (c : ascii) :
  digits a → digits a' → is_digit c = false →
  a +:+ String c r = a' +:+ String c r' → a = a' ∧ r = r'.
Proof.
  revert a'. induction a as [|x a IH]; intros [|x' a'] Ha Ha' Hc Heq; cbn in *.
  - by injection Heq as ->.
  - injection Heq as <- _. destruct Ha' as [Hx _]. congruence.
  - injection Heq as -> _. destruct Ha as [Hx _]. congruence.
  - injection Heq as -> Heq. destruct Ha as [_ Ha], Ha' as [_ Ha'].
    destruct (IH a' Ha Ha' Hc Heq) as [-> ->]. done.
Qed.

Lemma mat_path_inj (folder : string) (t z t' z' : nat) :
  mat_path (folder, t, z) = mat_path (folder, t', z') → t = t' ∧ z = z'.
Proof.
  unfold mat_path. cbn [fst snd]. intros Heq.
  apply (inj (String.append folder)) in Heq. cbn in Heq.
  injection Heq as Heq.
  apply digits_then_other in Heq as [Ht Heq]; [|apply str_digits..|done].
  injection Heq as Heq.
  apply digits_then_other in Heq as [Hz _]; [|apply str_digits..|done].
  split; by apply (inj pretty).
Qed.

Example mat_path_example :
  mat_path (mat_dwigroups, 12, 3) = "mat_dwigroups/mat.T12_Z3.txt".
Proof. reflexivity. Qed.

(** ** When the renaming realigns the b=0 matrices *)

Section Renaming.
Context {mat : Type}.
Implicit Types (fs : gmap matfile mat) (k : matfile).

(** The number of files of a folder that a predicate on (volume, slice)
    selects, when the selected files are those of the list [keys]. *)
Lemma glob_count (P : matfile * mat → Prop) `{∀ x, Decision (P x)}
    fs (keys : list matfile) :
  NoDup keys →
  (∀ k, k ∈ keys ↔ ∃ m, fs !! k = Some m ∧ P (k, m)) →
  size (filter P fs) = length keys.
Proof.
  intros Hnd Hkeys.
  rewrite <- (size_dom (D:=gset matfile)), <- (size_list_to_set (C:=gset matfile) keys Hnd).
  f_equal. apply set_eq. intros k.
  rewrite elem_of_dom, elem_of_list_to_set, Hkeys. unfold is_Some.
  by setoid_rewrite map_lookup_filter_Some.
Qed.

Section Folder.
Variables (fs : gmap matfile mat) (n nz : nat).
Hypothesis b0_pass :
  ∀ r z, is_Some (fs !! (mat_b0groups, r, z)) ↔ r < n ∧ z < nz.

Lemma glob_T0_b0groups : glob_T0 mat_b0groups fs = if decide (0 < n) then nz else 0.
Proof.
  unfold glob_T0.
  rewrite (glob_count _ fs ((λ z, (mat_b0groups, 0, z)) <$> seq 0 (if decide (0 < n) then nz else 0))).
  - by rewrite length_fmap, length_seq.
  - apply NoDup_fmap_2; [|apply NoDup_seq]. by intros z z' [= ->].
  - intros [[d t] z]. rewrite list_elem_of_fmap. cbn. split.
    + intros (z' & [= -> -> ->] & Hz%elem_of_seq).
      destruct (b0_pass 0 z') as [_ [m Hm]]; [case_decide; lia|]. eauto.
    + intros (m & Hm & -> & ->). exists z. split; [done|].
      destruct (b0_pass 0 z) as [Hin _]. apply elem_of_seq.
      rewrite decide_True by (destruct Hin; [eauto|lia]).
      destruct Hin; [eauto|lia].
Qed.

Lemma glob_Z0_b0groups : glob_Z0 mat_b0groups fs = if decide (0 < nz) then n else 0.
Proof.
  unfold glob_Z0.
  rewrite (glob_count _ fs ((λ t, (mat_b0groups, t, 0)) <$> seq 0 (if decide (0 < nz) then n else 0))).
  - by rewrite length_fmap, length_seq.
  - apply NoDup_fmap_2; [|apply NoDup_seq]. by intros t t' [= ->].
  - intros [[d t] z]. rewrite list_elem_of_fmap. cbn. split.
    + intros (t' & [= -> -> ->] & Ht%elem_of_seq).
      destruct (b0_pass t' 0) as [_ [m Hm]]; [case_decide; lia|]. eauto.
    + intros (m & Hm & -> & ->). exists t. split; [done|].
      destruct (b0_pass t 0) as [Hin _]. apply elem_of_seq.
      rewrite decide_True by (destruct Hin; [eauto|lia]).
      destruct Hin; [eauto|lia].
Qed.

End Folder.

(** The matrices of volume [a] of a folder moved, slice by slice, to
    volume [b]. *)
Lemma move_volume (body : nat → ST (gmap matfile mat) unit) (nz : nat)
    (folder : string) (a b : nat) fs :
  (∀ z fs', z < nz → body z fs' = mv (folder, a, z) (folder, b, z) fs') →
  a ≠ b →
  (∀ z, z < nz → is_Some (fs !! (folder, a, z))) →
  ∃ fs', for_ (seq 0 nz) body fs = (fs', Ok tt) ∧
    (∀ z, z < nz → fs' !! (folder, b, z) = fs !! (folder, a, z)) ∧
    (∀ z, z < nz → fs' !! (folder, a, z) = None) ∧
    (∀ k, ¬ (k.1.1 = folder ∧ (k.1.2 = a ∨ k.1.2 = b) ∧ k.2 < nz) → fs' !! k = fs !! k).
Proof.
  intros Hbody Hab Hex.
  pose (Inv := λ (z0 : nat) (fs' : gmap matfile mat),
    (∀ z, z < z0 → fs' !! (folder, b, z) = fs !! (folder, a, z)) ∧
    (∀ z, z < z0 → fs' !! (folder, a, z) = None) ∧
    (∀ k, ¬ (k.1.1 = folder ∧ (k.1.2 = a ∨ k.1.2 = b) ∧ k.2 < z0) → fs' !! k = fs !! k)).
  assert (triple (Inv 0) (for_ (seq 0 nz) body) (λ _, Inv (length (seq 0 nz))) fails_not)
    as Hloop.
  { apply triple_for. intros z' z Hz. apply lookup_seq in Hz as [Heq Hz]. cbn in Heq. subst z'.
    intros fs' (Hmoved & Hgone & Hrest). rewrite (Hbody z fs' Hz).
    destruct (Hex z Hz) as [m Hm].
    assert (fs' !! (folder, a, z) = Some m) as Hm'.
    { rewrite Hrest; [done|]. cbn. lia. }
    rewrite (mv_Some _ _ _ m Hm') by congruence.
    split; [|split].
    - intros z1 Hz1. destruct (decide (z1 = z)) as [->|Hne].
      + by rewrite lookup_insert_eq.
      + rewrite lookup_insert_ne by congruence. rewrite lookup_delete_ne by congruence.
        apply Hmoved. lia.
    - intros z1 Hz1. rewrite lookup_insert_ne by congruence.
      destruct (decide (z1 = z)) as [->|Hne].
      + by rewrite lookup_delete_eq.
      + rewrite lookup_delete_ne by congruence. apply Hgone. lia.
    - intros [[d t] z1] Hk. cbn in Hk.
      rewrite lookup_insert_ne
        by (intros [= <- <- <-]; apply Hk; split; [done|split; [tauto|lia]]).
      rewrite lookup_delete_ne
        by (intros [= <- <- <-]; apply Hk; split; [done|split; [tauto|lia]]).
      apply Hrest. cbn. intros (? & ? & ?). apply Hk. repeat split; [done..|lia]. }
  destruct (triple_run _ _ _ fs Hloop) as (fs' & [] & Hrun & Hpost).
  { split; [intros; lia|]. split; [intros; lia|done]. }
  rewrite length_seq in Hpost. exists fs'. split; [done|exact Hpost].
Qed.

(** The renaming puts every matrix of the b=0 pass under its time index
    when no b=0 index that differs from its rank is itself a rank, that is
    when each is either equal to its rank or at least the number of b=0
    volumes. *)
Lemma rename_b0_realigns (index_b0 : list nat) (nz : nat) fs :
  NoDup index_b0 →
  (∀ r b, index_b0 !! r = Some b → b = r ∨ length index_b0 ≤ b) →
  (∀ r z, is_Some (fs !! (mat_b0groups, r, z)) ↔ r < length index_b0 ∧ z < nz) →
  ∃ fs', rename_b0 index_b0 fs = (fs', Ok tt) ∧
    ∀ r b z, index_b0 !! r = Some b → z < nz →
      fs' !! (mat_b0groups, b, z) = fs !! (mat_b0groups, r, z).
Proof.
  intros Hnd Hfar Hpass. set (n := length index_b0) in *.
  unfold rename_b0.
  rewrite (bind_Ok _ _ fs fs (glob_T0 mat_b0groups fs)) by done.
  rewrite (bind_Ok _ _ fs fs (glob_Z0 mat_b0groups fs)) by done.
  rewrite (glob_T0_b0groups fs n nz Hpass), (glob_Z0_b0groups fs n nz Hpass), !range_nat.
  destruct (decide (0 < nz)) as [Hnz|Hnz]; [|exists fs; split; [done|intros; lia]].
  pose (Inv := λ (i : nat) (fs' : gmap matfile mat),
    (∀ r b z, r < i → index_b0 !! r = Some b → z < nz →
       fs' !! (mat_b0groups, b, z) = fs !! (mat_b0groups, r, z)) ∧
    (∀ r z, i ≤ r → r < n → z < nz →
       fs' !! (mat_b0groups, r, z) = fs !! (mat_b0groups, r, z))).
  match goal with |- ∃ fs', ?c fs = _ ∧ _ =>
    assert (triple (Inv 0) c (λ _, Inv (length (seq 0 n))) fails_not) as Hloop end.
  { apply triple_for. intros i' i Hi. apply lookup_seq in Hi as [Heq Hi]. cbn in Heq. subst i'.
    destruct (lookup_lt_is_Some_2 index_b0 i Hi) as [b Hb].
    intros fs1 [Hmoved Hpending].
    rewrite (bind_Ok _ _ fs1 fs1 b) by (unfold lift; by rewrite (index_nat_Some _ _ _ Hb)).
    destruct (decide (i ≠ b)) as [Hib|Hib].
    - assert (n ≤ b) as Hnb by (destruct (Hfar i b Hb); [congruence|done]).
      rewrite decide_True by lia.
      destruct (move_volume
        (λ iZ, b' ← lift (Py.index index_b0 (Z.of_nat i));
               mv (mat_b0groups, i, iZ) (mat_b0groups, b', iZ))
        nz mat_b0groups i b fs1) as (fs2 & -> & Hto & Hfrom & Hrest).
      + intros z fs' Hz. unfold mbind, ST_bind, lift.
        by rewrite (index_nat_Some _ _ _ Hb).
      + done.
      + intros z Hz. rewrite Hpending by lia. apply Hpass. lia.
      + split.
        * intros r b' z Hr Hb' Hz. destruct (decide (r = i)) as [->|Hri].
          -- assert (b' = b) as -> by congruence.
             rewrite Hto by done. apply Hpending; lia.
          -- rewrite Hrest; [apply (Hmoved r b' z); [lia|done..]|].
             cbn. intros (_ & [->| ->] & _).
             ++ destruct (Hfar r i Hb') as [?|?]; lia.
             ++ apply Hri. by eapply (NoDup_lookup index_b0 r i b).
        * intros r z Hr Hrn Hz. rewrite Hrest; [apply Hpending; lia|].
          cbn. lia.
    - cbn. split.
      + intros r b' z Hr Hb' Hz. destruct (decide (r = i)) as [->|Hri].
        * assert (b' = i) as -> by (destruct (decide (i = b)); [congruence|done]).
          apply Hpending; lia.
        * apply (Hmoved r b' z); [lia|done..].
      + intros r z Hr Hrn Hz. apply Hpending; lia. }
  destruct (triple_run _ _ _ fs Hloop) as (fs' & [] & Hrun & Hmoved & _).
  { split; [intros; lia|done]. }
  exists fs'. split; [done|]. rewrite length_seq in Hmoved.
  intros r b z Hb Hz. apply Hmoved; [by eapply lookup_lt_Some|done..].
Qed.

End Renaming.

(** Scenario 1: the b=0 indices 0, 4 and 9 are realigned. *)
Example rename_b0_scenario1 :
  let r := rename_b0 [0;4;9] Sample.after_passes in
  r.2 = Ok tt ∧
  r.1 !! (mat_b0groups, 0, 0) = Some "b0 rank 0" ∧
  r.1 !! (mat_b0groups, 4, 0) = Some "b0 rank 1" ∧
  r.1 !! (mat_b0groups, 9, 0) = Some "b0 rank 2".
Proof. vm_compute. done. Qed.

(** ** The exceptions of a run *)

Section Raises.
Context {S : Type}.
Implicit Types (E : exn → Prop).

Lemma raises_ret {A} E (a : A) : raises E (mret a : ST S A).
Proof. by intros s e. Qed.

Lemma raises_gets {A} E (f : S → A) : raises E (gets f).
Proof. by intros s e. Qed.

Lemma raises_modify E (f : S → S) : raises E (modify f).
Proof. by intros s e. Qed.

Lemma raises_lift {A} E (r : result A) :
  (∀ e, r = Raise e → E e) → raises E (lift r : ST S A).
Proof. intros Hr s e. cbn. apply Hr. Qed.

Lemma raises_bind {A B} E (c : ST S A) (k : A → ST S B) :
  raises E c → (∀ a, raises E (k a)) → raises E (c ≫= k).
Proof.
  intros Hc Hk s e. specialize (Hc s). unfold mbind, ST_bind.
  destruct (c s) as [s1 [a|e1]]; cbn in *; [apply Hk|].
  intros [= ->]. by apply Hc.
Qed.

Lemma raises_for {A} E (l : list A) (body : A → ST S unit) :
  (∀ x, raises E (body x)) → raises E (for_ l body).
Proof.
  intros Hbody. induction l as [|x l IH]; cbn [for_].
  - apply raises_ret.
  - apply raises_bind; [apply Hbody | by intros _].
Qed.

End Raises.

Lemma builtin_index {A} (l : list A) (i : Z) e : Py.index l i = Raise e → builtin e.
Proof. intros ->%index_raises. by left. Qed.

Lemma builtin_build_groups (index_dwi : list nat) (n g : Z) e :
  build_groups index_dwi n g = Raise e → builtin e.
Proof.
  unfold build_groups. repeat case_match; try done. intros [= <-]. right. by left.
Qed.

Lemma builtin_bridge_index (index_b0 index_dwi : list nat) e :
  bridge_index index_b0 index_dwi = Raise e → builtin e.
Proof.
  unfold bridge_index.
  destruct (Py.index index_b0 _) as [b|e'] eqn:Hb; cbn.
  - unfold np_argmin. case_match; [|done]. intros [= <-]. right. right. by left.
  - intros [= <-]. by eapply builtin_index.
Qed.

Lemma result_bind_Raise {A B} (r : result A) (k : A → result B) e :
  r ≫= k = Raise e → r = Raise e ∨ ∃ a, r = Ok a ∧ k a = Raise e.
Proof. destruct r as [a|e']; cbn; [eauto|]. intros [= ->]. by left. Qed.

Lemma builtin_b0_target (file_data : string) (index_b0 index_dwi : list nat) e :
  b0_target file_data index_b0 index_dwi = Raise e → builtin e.
Proof.
  unfold b0_target. intros Hr.
  apply result_bind_Raise in Hr as [Hd|(d & _ & Hk)]; [by eapply builtin_index|].
  destruct (negb (d =? 0)).
  - apply result_bind_Raise in Hk as [Hb|(b & _ & Hk)]; [|done].
    by eapply builtin_index.
  - apply result_bind_Raise in Hk as [Hb|(b & _ & Hk)]; [|done].
    by eapply builtin_index.
Qed.

Lemma builtin_append_each (cmd : string) (its : list nat)
    (piece : nat → result string) e :
  (∀ i e', piece i = Raise e' → builtin e') →
  append_each cmd its piece = Raise e → builtin e.
Proof.
  intros Hp. revert cmd. induction its as [|i its IH]; intros cmd; cbn; [done|].
  destruct (piece i) as [s|e'] eqn:Hi; cbn; [apply IH|].
  intros [= <-]. by eapply Hp.
Qed.

Section RaisesScript.
Context {F : Type} `{PyFloat F} {mat : Type}.
Variable w : world (F:=F) (mat:=mat).

Lemma raises_cp (src dst : matfile) : raises builtin (cp (mat:=mat) src dst).
Proof.
  intros fs e. unfold cp. repeat case_match; cbn; try done;
    intros [= <-]; by repeat right.
Qed.

Lemma raises_mv (src dst : matfile) : raises builtin (mv (mat:=mat) src dst).
Proof.
  intros fs e. unfold mv. repeat case_match; cbn; try done;
    intros [= <-]; by repeat right.
Qed.

Lemma raises_on_files {A} (c : ST (gmap matfile mat) A) :
  raises builtin c → raises builtin (on_files c).
Proof.
  intros Hc s e. unfold on_files. specialize (Hc (st_fs s) e).
  by destruct (c (st_fs s)).
Qed.

Lemma raises_run (cmd : string) : raises builtin (run w cmd).
Proof.
  intros s e. unfold run, mbind, ST_bind. cbn.
  destruct (sh w cmd); cbn; [done|]. intros [= <-]. by repeat right.
Qed.

Lemma raises_call (e : param → event) f : raises builtin (call (mat:=mat) e f).
Proof.
  intros s e'. unfold call, mbind, ST_bind. cbn.
  match goal with |- context [f ?p ?fs] => destruct (f p fs) as [[p' fs']|] end;
    cbn; [done|]. intros [= <-]. by repeat right.
Qed.

Lemma raises_set_param (f : param → param) : raises builtin (set_param (mat:=mat) f).
Proof. by intros s e. Qed.

Lemma raises_log (e : event) : raises builtin (log (mat:=mat) e).
Proof. by intros s e'. Qed.

Lemma raises_identify_b0_dwi (bvecs : list (list F)) (nt : nat) :
  raises builtin (identify_b0_dwi (mat:=mat) bvecs nt).
Proof.
  unfold identify_b0_dwi.
  apply raises_bind; [apply raises_lift, builtin_index | intros row0].
  apply raises_bind.
  - destruct (negb (length row0 =? 3)); [|apply raises_ret].
    apply raises_bind; [apply raises_log | intros; apply raises_ret].
  - intros table. apply raises_lift.
    intros e [-> | [-> | ->]]%identify_loop_raises; unfold builtin; tauto.
Qed.

(** One step on a command of the script, chosen by the shape of the
    command. *)
Ltac raises_step :=
  lazymatch goal with
  | |- raises _ (_ ≫= _) => apply raises_bind; [|intros ?]
  | |- raises _ (mret _) => apply raises_ret
  | |- raises _ (gets _) => apply raises_gets
  | |- raises _ (set_param _) => apply raises_set_param
  | |- raises _ (log _) => apply raises_log
  | |- raises _ (run _ _) => apply raises_run
  | |- raises _ (call _ _) => apply raises_call
  | |- raises _ (cp _ _) => apply raises_cp
  | |- raises _ (mv _ _) => apply raises_mv
  | |- raises _ (on_files _) => apply raises_on_files
  | |- raises _ (for_ _ _) => apply raises_for; intros ?
  | |- raises _ (lift (append_each _ _ _)) =>
      apply raises_lift; intros ?; apply builtin_append_each; intros ? ?
  | |- raises _ (lift _) =>
      apply raises_lift; intros ?;
      first [ apply builtin_index | apply builtin_build_groups
            | apply builtin_bridge_index | apply builtin_b0_target ]
  | |- raises _ (if ?b then _ else _) => destruct b
  | |- raises _ (match ?o with Some _ => _ | None => _ end) => destruct o
  end.

Lemma builtin_piece {A} (l : list A) (i : Z) (f : A → string) e :
  (x ← Py.index l i; Ok (f x)) = Raise e → builtin e.
Proof.
  destruct (Py.index l i) as [x|e'] eqn:Hx; cbn; [done|].
  intros [= <-]. by eapply builtin_index.
Qed.

Lemma raises_split_and_average_b0 (fname_data file_data : string)
    (index_b0 : list nat) (n_b0 : Z) :
  raises builtin (split_and_average_b0 w fname_data file_data index_b0 n_b0).
Proof.
  unfold split_and_average_b0. repeat raises_step.
  apply (builtin_piece index_b0 _ (λ b, " " +:+ volume file_data b)).
Qed.

Lemma raises_average_groups (file_data : string) (nb_groups : Z)
    (group_indexes : list (list nat)) :
  raises builtin (average_groups w file_data nb_groups group_indexes).
Proof.
  unfold average_groups. repeat raises_step; [|done].
  match goal with |- (_ ← Py.index ?l _; _) = _ → _ =>
    apply (builtin_piece l _ (λ t, " " +:+ volume file_data t)) end.
Qed.

Lemma raises_estimate_dwi_groups : raises builtin (estimate_dwi_groups w).
Proof. unfold estimate_dwi_groups. repeat raises_step. Qed.

Lemma raises_estimate_b0 (file_data : string) (index_b0 index_dwi : list nat) :
  raises builtin (estimate_b0 w file_data index_b0 index_dwi).
Proof. unfold estimate_b0. repeat raises_step. Qed.

Lemma raises_propagate (nb_groups : Z) (group_indexes : list (list nat))
    (index_b0 index_dwi : list nat) (nz : nat) (mat_final : string) :
  raises builtin
    (propagate (mat:=mat) nb_groups group_indexes index_b0 index_dwi nz mat_final).
Proof.
  unfold propagate, copy_groups, copy_bridge, rename_b0. repeat raises_step.
Qed.

Lemma raises_combine (mat_final : string) (nt nz : nat) (verbose : Z)
    (index_b0 : list nat) :
  raises builtin (combine w mat_final nt nz verbose index_b0).
Proof.
  unfold combine. repeat raises_step.
  - by intros s e.
  - apply raises_lift. intros e [= <-]. unfold builtin. tauto.
Qed.

Lemma raises_apply_all (fname_data_initial mat_final interp : string) :
  raises builtin (apply_all w fname_data_initial mat_final interp).
Proof. unfold apply_all. repeat raises_step. Qed.

(** Whatever the collaborators do, a run that raises raises an exception of
    Python or the failure of an external call: never one of the error
    kinds of the specification. *)
Lemma dmri_moco_raises (fname_data_initial : string) :
  raises builtin (dmri_moco w fname_data_initial).
Proof.
  unfold dmri_moco. apply raises_bind; [apply raises_gets|]. intros p0.
  destruct (extract_fname w (fname_data p0)) as [[path_data file_data] ext_data].
  destruct (get_dimension w (fname_data p0)) as [[[nx ny] nz] nt].
  apply raises_bind; [apply raises_identify_b0_dwi|]. intros [index_b0 index_dwi].
  apply raises_bind; [apply raises_split_and_average_b0|]. intros _.
  apply raises_bind; [apply raises_lift, builtin_build_groups|].
  intros [nb_groups group_indexes].
  apply raises_bind; [apply raises_average_groups|]. intros _.
  apply raises_bind; [apply raises_estimate_dwi_groups|]. intros _.
  apply raises_bind; [apply raises_estimate_b0|]. intros _.
  apply raises_bind; [apply raises_propagate|]. intros _.
  apply raises_bind; [apply raises_combine|]. intros _.
  apply raises_apply_all.
Qed.

End RaisesScript.

Lemma interpolation_routing_witness :
  let w := Sample.collaborators Sample.bvecs10 10 Sample.volumes10 (λ _, false) in
  let s := Sample.start Sample.param0 in
  fname_bvals (st_param s) = "" ∧
  (dmri_moco w "dmri.nii.gz" s).2 = Ok tt ∧
  ∃ cs,
    moco_calls (st_trace (dmri_moco w "dmri.nii.gz" s).1)
      = moco_calls (st_trace s) ++ cs ∧
    cs `prefix_of`
      [("dwi_averaged_groups.nii", "estimate_and_apply", "trilinear");
       ("b0.nii", "estimate_and_apply", "trilinear");
       ("dmri.nii.gz", "apply", interp (st_param s))] ∧
    ((dmri_moco w "dmri.nii.gz" s).2 = Ok tt →
     cs = [("dwi_averaged_groups.nii", "estimate_and_apply", "trilinear");
           ("b0.nii", "estimate_and_apply", "trilinear");
           ("dmri.nii.gz", "apply", interp (st_param s))]).
Proof.
  split; [reflexivity|]. split; [reflexivity|].
  apply (interpolation_routing (Sample.collaborators Sample.bvecs10 10 Sample.volumes10 (λ _, false))
           "dmri.nii.gz" (Sample.start Sample.param0)).
  reflexivity.
Defined.

(** Scenario 1 from end to end, with collaborators that succeed: the run
    completes, the three calls are made, and [mat_final/] holds a matrix
    for each of the ten volumes. *)
Example scenario1_run :
  let r := dmri_moco (Sample.collaborators Sample.bvecs10 10 Sample.volumes10 (λ _, false))
             "dmri.nii.gz" (Sample.start Sample.param0) in
  r.2 = Ok tt ∧
  moco_calls (st_trace r.1) =
    [("dwi_averaged_groups.nii", "estimate_and_apply", "trilinear");
     ("b0.nii", "estimate_and_apply", "trilinear");
     ("dmri.nii.gz", "apply", "spline")] ∧
  (λ t, st_fs r.1 !! ("mat_final/", t, 0)) <$> seq 0 10 =
    Some <$> ["mat_dwigroups 2"; "mat_dwigroups 0"; "mat_dwigroups 0"; "mat_dwigroups 0";
              "mat_dwigroups 2"; "mat_dwigroups 1"; "mat_dwigroups 1"; "mat_dwigroups 1";
              "mat_dwigroups 2"; "mat_dwigroups 2"].
Proof. vm_compute. done. Qed.

(** ** Runs whose external commands succeed *)

Lemma append_each_Ok (cmd : string) (its : list nat) (piece : nat → result string) :
  (∀ i, i ∈ its → ∃ s, piece i = Ok s) →
  ∃ c, append_each cmd its piece = Ok c.
Proof.
  revert cmd. induction its as [|i its IH]; intros cmd Hp; cbn; [eauto|].
  destruct (Hp i) as [s ->]; [left|]. cbn.
  apply IH. intros j Hj. apply Hp. by right.
Qed.

(** The command a loop [cmd = cmd + ' ' + f(i)] builds. *)
Lemma append_each_fold (cmd : string) (its : list nat) (f : nat → string) :
  append_each cmd its (λ i, Ok (" " +:+ f i))
    = Ok (fold_left (λ cmd x, cmd +:+ (" " +:+ x)) (f <$> its) cmd).
Proof.
  revert cmd. induction its as [|i its IH]; intros cmd; cbn; [done|]. apply IH.
Qed.

Lemma append_each_ext (cmd : string) (its : list nat) (piece piece' : nat → result string) :
  (∀ i, i ∈ its → piece i = piece' i) →
  append_each cmd its piece = append_each cmd its piece'.
Proof.
  revert cmd. induction its as [|i its IH]; intros cmd Hp; cbn; [done|].
  rewrite (Hp i) by left. destruct (piece' i) as [x|e]; cbn; [|done].
  apply IH. intros j Hj. apply Hp. by right.
Qed.

(** The command a loop [cmd = cmd + ' ' + f(l[i])] over the positions of
    [l] builds. *)
Lemma append_each_index (cmd : string) (l : list nat) (f : nat → string) :
  append_each cmd (Py.range (Z.of_nat (length l)))
      (λ i, x ← Py.index l (Z.of_nat i); Ok (" " +:+ f x))
    = Ok (fold_left (λ cmd x, cmd +:+ (" " +:+ x)) (f <$> l) cmd).
Proof.
  rewrite range_nat.
  rewrite (append_each_ext _ _ _ (λ i, Ok (" " +:+ f (default 0 (l !! i))))).
  - rewrite append_each_fold. do 2 f_equal.
    apply list_eq. intros i. rewrite !list_lookup_fmap.
    destruct (decide (i < length l)) as [Hi|Hi].
    + rewrite lookup_seq_lt by done. cbn.
      destruct (lookup_lt_is_Some_2 l i Hi) as [x ->]. done.
    + rewrite lookup_seq_ge by lia. by rewrite lookup_ge_None_2 by lia.
  - intros i Hi%elem_of_seq.
    destruct (lookup_lt_is_Some_2 l i) as [x Hx]; [lia|].
    by rewrite (index_nat_Some _ _ _ Hx), Hx.
Qed.

Lemma build_groups_nil (g : Z) : g ≠ 0%Z → build_groups [] 0 g = Ok (0%Z, []).
Proof.
  intros Hg. unfold build_groups.
  destruct (Z.eqb_spec g 0) as [|_]; [done|].
  by rewrite Zdiv_0_l, Zmod_0_l.
Qed.

Lemma b0_target_no_dwi (file_data : string) (index_b0 : list nat) :
  b0_target file_data index_b0 [] = Raise IndexError.
Proof. reflexivity. Qed.

(** A command followed by one that does not return does not return. *)
Lemma bind_stops_r {S A B} (c : ST S A) (k : A → ST S B) s :
  (∀ a s', ∃ e, (k a s').2 = Raise e) → ∃ e, ((c ≫= k) s).2 = Raise e.
Proof.
  intros Hk. unfold mbind, ST_bind. destruct (c s) as [s1 [a|e]]; cbn; eauto.
Qed.

Lemma bind_stops_l {S A B} (c : ST S A) (k : A → ST S B) s :
  (∃ e, (c s).2 = Raise e) → ∃ e, ((c ≫= k) s).2 = Raise e.
Proof.
  intros [e He]. unfold mbind, ST_bind. destruct (c s) as [s1 [a|e']]; cbn in *; eauto.
  done.
Qed.

Section Succeeds.
Context {F : Type} `{PyFloat F} {mat : Type}.
Variable w : world (F:=F) (mat:=mat).
Hypothesis sh_ok : ∀ cmd, sh w cmd = true.
Hypothesis moco_ok : ∀ p fs, is_Some (moco w p fs).

Lemma run_Ok (cmd : string) (s : state (mat:=mat)) :
  ∃ s', run w cmd s = (s', Ok tt) ∧ st_trace s' = st_trace s ++ [Run cmd].
Proof. unfold run, mbind, ST_bind. cbn. rewrite sh_ok. eauto. Qed.

Lemma split_and_average_b0_Ok (fname_data file_data : string)
    (index_b0 : list nat) (s : state (mat:=mat)) :
  ∃ s', split_and_average_b0 w fname_data file_data index_b0
          (Z.of_nat (length index_b0)) s = (s', Ok tt) ∧
        st_trace s' = st_trace s ++
          [Run (fslsplit fname_data file_data);
           Run (fslmerge "b0" (volume file_data <$> index_b0));
           Run (fslmaths_Tmean "b0" "b0_mean")].
Proof.
  unfold split_and_average_b0.
  destruct (run_Ok (fslsplit fname_data file_data) s) as (s1 & Hs1 & Htr1).
  rewrite (bind_Ok _ _ _ _ _ Hs1).
  rewrite (bind_Ok _ _ s1 s1 (fslmerge "b0" (volume file_data <$> index_b0)))
    by (unfold lift; by rewrite (append_each_index _ index_b0 (volume file_data))).
  destruct (run_Ok (fslmerge "b0" (volume file_data <$> index_b0)) s1) as (s2 & Hs2 & Htr2).
  rewrite (bind_Ok _ _ _ _ _ Hs2).
  destruct (run_Ok (fslmaths_Tmean "b0" "b0_mean") s2) as (s3 & Hs3 & Htr3).
  exists s3. split; [exact Hs3|].
  rewrite Htr3, Htr2, Htr1, <- !app_assoc. done.
Qed.

(** The round of the loop on the groups for group [i]. *)
Lemma average_group_Ok (file_data : string) (group_indexes : list (list nat))
    (i : nat) (g : list nat) (s : state (mat:=mat)) :
  group_indexes !! i = Some g →
  ∃ s',
    (index_dwi_i ← lift (Py.index group_indexes (Z.of_nat i));
     cmd ← lift (append_each (fsloutput +:+ "fslmerge -t " +:+ (file_dwi +:+ "_" +:+ Py.str i))
                   (Py.range (Z.of_nat (length index_dwi_i)))
                   (λ iT, t ← Py.index index_dwi_i (Z.of_nat iT);
                          Ok (" " +:+ volume file_data t)));
     run w cmd;;
     run w (fsloutput +:+ "fslmaths " +:+ (file_dwi +:+ "_" +:+ Py.str i) +:+ " -Tmean "
              +:+ (file_dwi +:+ "_mean_" +:+ Py.str i))) s = (s', Ok tt) ∧
    st_trace s' = st_trace s ++
      [Run (fslmerge ("dwi_" +:+ Py.str i) (volume file_data <$> g));
       Run (fslmaths_Tmean ("dwi_" +:+ Py.str i) ("dwi_mean_" +:+ Py.str i))].
Proof.
  intros Hg.
  rewrite (bind_Ok _ _ s s g) by (unfold lift; by rewrite (index_nat_Some _ _ _ Hg)).
  rewrite (bind_Ok _ _ s s (fslmerge ("dwi_" +:+ Py.str i) (volume file_data <$> g)))
    by (unfold lift; by rewrite (append_each_index _ g (volume file_data))).
  destruct (run_Ok (fslmerge ("dwi_" +:+ Py.str i) (volume file_data <$> g)) s)
    as (s1 & Hs1 & Htr1).
  rewrite (bind_Ok _ _ _ _ _ Hs1).
  destruct (run_Ok (fslmaths_Tmean ("dwi_" +:+ Py.str i) ("dwi_mean_" +:+ Py.str i)) s1)
    as (s2 & Hs2 & Htr2).
  exists s2. split; [exact Hs2|]. rewrite Htr2, Htr1, <- app_assoc. done.
Qed.

Lemma average_groups_Ok (file_data : string) (nb_groups : Z)
    (group_indexes : list (list nat)) (s : state (mat:=mat)) :
  Z.to_nat nb_groups ≤ length group_indexes →
  ∃ s', average_groups w file_data nb_groups group_indexes s = (s', Ok tt) ∧
        st_trace s' = st_trace s ++
          (Run <$> dwi_stream file_data (take (Z.to_nat nb_groups) group_indexes)).
Proof.
  intros Hnb. unfold average_groups.
  set (round := λ (i : nat) (g : list nat),
         [fslmerge ("dwi_" +:+ Py.str i) (volume file_data <$> g);
          fslmaths_Tmean ("dwi_" +:+ Py.str i) ("dwi_mean_" +:+ Py.str i)]).
  match goal with |- ∃ s', (for_ ?l ?body ≫= _) s = _ ∧ _ =>
    assert (triple (λ s0, s0 = s) (for_ l body)
              (λ _ s', st_trace s' = st_trace s ++
                 (Run <$> mjoin (imap round (take (Z.to_nat nb_groups) group_indexes))))
              fails_not) as Hloop end.
  { eapply triple_conseq.
    - apply (triple_for (λ i s', st_trace s' = st_trace s ++
                 (Run <$> mjoin (imap round (take i group_indexes))))).
      intros i iGroup Hi s0 Hs0.
      assert (iGroup = i ∧ i < Z.to_nat nb_groups) as [-> Hlt].
      { unfold Py.range in Hi. apply lookup_seq in Hi. lia. }
      destruct (lookup_lt_is_Some_2 group_indexes i) as [g Hg]; [lia|].
      destruct (average_group_Ok file_data group_indexes i g s0 Hg) as (s1 & Hs1 & Htr1).
      rewrite Hs1. rewrite Htr1, Hs0, <- app_assoc. f_equal.
      rewrite (take_S_r _ _ _ Hg), imap_app, join_app, fmap_app.
      f_equal. cbn. rewrite length_take_le by lia. rewrite Nat.add_0_r. done.
    - intros s0 ->. cbn. by rewrite app_nil_r.
    - intros [] s' Hs'. cbn in Hs'. unfold Py.range in Hs'. by rewrite length_seq in Hs'.
    - done. }
  destruct (triple_run _ _ _ s Hloop eq_refl) as (s1 & [] & Hs1 & Htr1).
  rewrite (bind_Ok _ _ _ _ _ Hs1).
  set (means := (λ i : nat, "dwi_mean_" +:+ Py.str i) <$>
                  seq 0 (length (take (Z.to_nat nb_groups) group_indexes))).
  rewrite (bind_Ok _ _ s1 s1 (fslmerge "dwi_averaged_groups" means)).
  2:{ unfold lift, means. rewrite length_take_le by lia.
      by rewrite (append_each_fold _ _ (λ i, "dwi_mean_" +:+ Py.str i)). }
  destruct (run_Ok (fslmerge "dwi_averaged_groups" means) s1) as (s2 & Hs2 & Htr2).
  rewrite (bind_Ok _ _ _ _ _ Hs2).
  destruct (run_Ok (fslmaths_Tmean "dwi_averaged_groups" "dwi_mean") s2)
    as (s3 & Hs3 & Htr3).
  exists s3. split; [exact Hs3|].
  rewrite Htr3, Htr2, Htr1. unfold dwi_stream. fold round. fold means.
  rewrite fmap_app, <- !app_assoc. done.
Qed.

Lemma estimate_dwi_groups_Ok (s : state (mat:=mat)) :
  ∃ s' p, estimate_dwi_groups w s = (s', Ok tt) ∧
    st_trace s' = st_trace s ++ [Moco p] ∧
    fname_data p = "dwi_averaged_groups.nii" ∧ fname_target p = "dwi_mean_0" ∧
    todo p = "estimate_and_apply" ∧ mat_moco p = "mat_dwigroups" ∧
    interp p = "trilinear".
Proof.
  unfold estimate_dwi_groups, call, mbind, ST_bind. cbn.
  match goal with |- context [moco w ?p ?fs] => destruct (moco_ok p fs) as [[p' fs'] ->] end.
  cbn. eexists _, _. split; [reflexivity|]. split; [reflexivity|]. done.
Qed.

End Succeeds.

(** ** A series without DWI volume *)

Lemma estimate_b0_no_dwi {F} `{PyFloat F} {mat} (w : world (F:=F) (mat:=mat))
    (file_data : string) (index_b0 : list nat) (s : state (mat:=mat)) :
  ∃ s', estimate_b0 w file_data index_b0 [] s = (s', Raise IndexError) ∧
        st_trace s' = st_trace s.
Proof. unfold estimate_b0, mbind, ST_bind. cbn. eauto. Qed.

(** C7, as the script has it.  When every volume is classified b=0 from
    the gradient table and the group size is not zero, the script does
    not check the number of DWI volumes: it builds no group and goes on.
    Whatever the external commands do, the run does not return, and what
    it raises is an exception of Python or the failure of a command.
    When the commands and the engine succeed, the script splits the
    series, merges and averages the b=0 volumes, runs the merge and the
    average of the DWI stream on no group at all, calls the registration
    engine for the pass on the DWI groups, and then raises [IndexError]
    on [index_dwi[0]] when it chooses the target of the b=0 pass. *)
Theorem zero_dwi_run {F} `{PyFloat F} {mat} (w : world (F:=F) (mat:=mat))
    (fname_data_initial : string) (s s1 : state (mat:=mat)) (index_b0 : list nat) :
  fname_bvals (st_param s) = "" →
  identify_b0_dwi (read_bvecs w (fname_bvecs (st_param s)))
      (get_dimension w (fname_data (st_param s))).2 s
    = (s1, Ok (index_b0, [])) →
  dwi_group_size (st_param s) ≠ 0%Z →
  let r := dmri_moco w fname_data_initial s in
  let series := fname_data (st_param s) in
  let file_data := (extract_fname w series).1.2 in
  build_groups [] 0 (dwi_group_size (st_param s)) = Ok (0%Z, []) ∧
  (∃ e, r.2 = Raise e ∧ builtin e) ∧
  ((∀ cmd, sh w cmd = true) → (∀ p fs, is_Some (moco w p fs)) →
   r.2 = Raise IndexError ∧
   (∃ p, st_trace r.1 = st_trace s1 ++
           [Run (fslsplit series file_data);
            Run (fslmerge "b0" (volume file_data <$> index_b0));
            Run (fslmaths_Tmean "b0" "b0_mean");
            Run (fslmerge "dwi_averaged_groups" []);
            Run (fslmaths_Tmean "dwi_averaged_groups" "dwi_mean");
            Moco p] ∧
         fname_data p = "dwi_averaged_groups.nii" ∧ fname_target p = "dwi_mean_0" ∧
         todo p = "estimate_and_apply" ∧ mat_moco p = "mat_dwigroups" ∧
         interp p = "trilinear") ∧
   moco_calls (st_trace r.1) =
     moco_calls (st_trace s) ++
       [("dwi_averaged_groups.nii", "estimate_and_apply", "trilinear")]).
Proof.
  intros _ Hid Hg. cbn zeta.
  set (series := fname_data (st_param s)) in *.
  set (r := dmri_moco w fname_data_initial s).
  assert (r = dmri_moco w fname_data_initial s) as Hr0 by done.
  assert (r = (let '(path_data, file_data, ext_data) := extract_fname w series in
               let '(nx, ny, nz, nt) := get_dimension w series in
    (split_and_average_b0 w series file_data index_b0 (Z.of_nat (length index_b0));;
     '(nb_groups, group_indexes) ←
       lift (build_groups [] (Z.of_nat (length (@nil nat))) (dwi_group_size (st_param s)));
     average_groups w file_data nb_groups group_indexes;;
     estimate_dwi_groups w;;
     estimate_b0 w file_data index_b0 [];;
     propagate nb_groups group_indexes index_b0 [] nz "mat_final/";;
     combine w "mat_final/" nt nz (verbose (st_param s)) index_b0;;
     apply_all w fname_data_initial "mat_final/" (interp (st_param s))) s1)) as Hr.
  { unfold r, dmri_moco. rewrite (bind_Ok _ _ s s (st_param s)) by done.
    fold series. revert Hid.
    destruct (extract_fname w series) as [[path_data fd] ext_data].
    destruct (get_dimension w series) as [[[nx ny] nz] nt]. cbn [snd].
    intros Hid. by rewrite (bind_Ok _ _ _ _ _ Hid). }
  clearbody r. revert Hid Hr.
  destruct (extract_fname w series) as [[path_data file_data] ext_data].
  destruct (get_dimension w series) as [[[nx ny] nz] nt]. cbn [fst snd].
  intros Hid Hr.
  split; [by apply build_groups_nil|]. split.
  - assert (∃ e, r.2 = Raise e) as [e He].
    { rewrite Hr. apply bind_stops_r. intros _ s2.
      apply bind_stops_r. intros [nb_groups group_indexes] s3.
      apply bind_stops_r. intros _ s4.
      apply bind_stops_r. intros _ s5.
      apply bind_stops_l.
      destruct (estimate_b0_no_dwi w file_data index_b0 s5) as (s6 & -> & _). eauto. }
    exists e. split; [done|]. apply (dmri_moco_raises w fname_data_initial s e).
    by rewrite <- Hr0.
  - intros sh_ok moco_ok.
    destruct (split_and_average_b0_Ok w sh_ok series file_data index_b0 s1)
      as (s2 & Hs2 & Htr2).
    rewrite (bind_Ok _ _ _ _ _ Hs2) in Hr.
    rewrite (bind_Ok _ _ s2 s2 (0%Z, []))
      in Hr by (unfold lift; cbn [length]; by rewrite build_groups_nil).
    destruct (average_groups_Ok w sh_ok file_data 0 [] s2) as (s3 & Hs3 & Htr3);
      [cbn; lia|].
    rewrite (bind_Ok _ _ _ _ _ Hs3) in Hr.
    destruct (estimate_dwi_groups_Ok w moco_ok s3) as (s4 & p & Hs4 & Htr4 & Hp).
    rewrite (bind_Ok _ _ _ _ _ Hs4) in Hr.
    destruct (estimate_b0_no_dwi w file_data index_b0 s4) as (s5 & Hs5 & Htr5).
    rewrite (bind_Raise _ _ _ _ _ Hs5) in Hr.
    rewrite Hr. cbn [fst snd].
    assert (st_trace s5 = st_trace s1 ++
              [Run (fslsplit series file_data);
               Run (fslmerge "b0" (volume file_data <$> index_b0));
               Run (fslmaths_Tmean "b0" "b0_mean");
               Run (fslmerge "dwi_averaged_groups" []);
               Run (fslmaths_Tmean "dwi_averaged_groups" "dwi_mean");
               Moco p]) as Htr.
    { rewrite Htr5, Htr4, Htr3, Htr2, <- !app_assoc. done. }
    split; [done|]. split; [by exists p|].
    pose proof (quiet_identify_b0_dwi (mat:=mat)
                  (read_bvecs w (fname_bvecs (st_param s))) nt s) as Hq1.
    rewrite Hid in Hq1. cbn [fst] in Hq1.
    rewrite Htr, moco_calls_app, Hq1. f_equal.
    destruct Hp as (Hp1 & _ & Hp2 & _ & Hp3).
    unfold moco_calls. cbn. by rewrite Hp1, Hp2, Hp3.
Qed.

Lemma zero_dwi_run_witness :
  let w := Sample.collaborators Sample.bvecs_b0_only 2 Sample.volumes_b0_only (λ _, false) in
  let s := Sample.start Sample.param0 in
  fname_bvals (st_param s) = "" ∧
  identify_b0_dwi Sample.bvecs_b0_only 2 s = (s, Ok ([0;1], [])) ∧
  (∀ cmd, sh w cmd = true) ∧ (∀ p fs, is_Some (moco w p fs)) ∧
  let r := dmri_moco w "dmri.nii" s in
  build_groups [] 0 3 = Ok (0%Z, []) ∧
  (∃ e, r.2 = Raise e ∧ builtin e) ∧
  ((∀ cmd, sh w cmd = true) → (∀ p fs, is_Some (moco w p fs)) →
   r.2 = Raise IndexError ∧
   (∃ p, st_trace r.1 = st_trace s ++
           [Run (fslsplit "dmri.nii" "dmri");
            Run (fslmerge "b0" (volume "dmri" <$> [0;1]));
            Run (fslmaths_Tmean "b0" "b0_mean");
            Run (fslmerge "dwi_averaged_groups" []);
            Run (fslmaths_Tmean "dwi_averaged_groups" "dwi_mean");
            Moco p] ∧
         fname_data p = "dwi_averaged_groups.nii" ∧ fname_target p = "dwi_mean_0" ∧
         todo p = "estimate_and_apply" ∧ mat_moco p = "mat_dwigroups" ∧
         interp p = "trilinear") ∧
   moco_calls (st_trace r.1) =
     moco_calls (st_trace s) ++
       [("dwi_averaged_groups.nii", "estimate_and_apply", "trilinear")]).
Proof.
  split; [reflexivity|]. split; [reflexivity|].
  split; [intros cmd; reflexivity|].
  split; [intros p fs; exact (mk_is_Some _ _ eq_refl)|].
  apply (zero_dwi_run
           (Sample.collaborators Sample.bvecs_b0_only 2 Sample.volumes_b0_only (λ _, false))
           "dmri.nii" (Sample.start Sample.param0) (Sample.start Sample.param0) [0;1]).
  - reflexivity.
  - reflexivity.
  - done.
Defined.

(** The commands of that run, as the shell is given them. *)
Example zero_dwi_commands :
  let w := Sample.collaborators Sample.bvecs_b0_only 2 Sample.volumes_b0_only (λ _, false) in
  commands (st_trace (dmri_moco w "dmri.nii" (Sample.start Sample.param0)).1) =
    ["export FSLOUTPUTTYPE=NIFTI; fslsplit dmri.nii dmri_T";
     "export FSLOUTPUTTYPE=NIFTI; fslmerge -t b0 dmri_T0000 dmri_T0001";
     "export FSLOUTPUTTYPE=NIFTI; fslmaths b0 -Tmean b0_mean";
     "export FSLOUTPUTTYPE=NIFTI; fslmerge -t dwi_averaged_groups";
     "export FSLOUTPUTTYPE=NIFTI; fslmaths dwi_averaged_groups -Tmean dwi_mean"].
Proof. vm_compute. reflexivity. Qed.

(** C7 as the specification states it fails on a series of two b=0
    volumes.  When the commands succeed the run ends with [IndexError]
    after the call of the registration engine for the DWI groups; when the
    merge of the (empty) list of group means fails, it ends with the
    failure of that command.  In neither case with [ConfigurationError]. *)
Lemma zero_dwi_is_not_rejected :
  let s := Sample.start Sample.param0 in
  let merge := "export FSLOUTPUTTYPE=NIFTI; fslmerge -t dwi_averaged_groups" in
  let r1 := dmri_moco (Sample.collaborators Sample.bvecs_b0_only 2 Sample.volumes_b0_only (λ _, false))
              "dmri.nii" s in
  let r2 := dmri_moco (Sample.collaborators Sample.bvecs_b0_only 2 Sample.volumes_b0_only
              (String.eqb merge))
              "dmri.nii" s in
  (identify_b0_dwi Sample.bvecs_b0_only 2 s).2 = Ok ([0;1], []) ∧
  r1.2 = Raise IndexError ∧
  moco_calls (st_trace r1.1)
    = [("dwi_averaged_groups.nii", "estimate_and_apply", "trilinear")] ∧
  r2.2 = Raise EngineFailure ∧
  last (st_trace r2.1) = Some (Run merge) ∧
  r1.2 ≠ Raise ConfigurationError ∧ r2.2 ≠ Raise ConfigurationError.
Proof. vm_compute. repeat split; discriminate. Qed.

(** * Further properties

    What the code does at the edges of the properties above, and the
    command line. *)

(** ** The table and the series *)

Lemma identify_loop_app {F} `{PyFloat F} (bvecs : list (list F))
    (its1 its2 index_b0 index_dwi : list nat) :
  identify_loop bvecs (its1 ++ its2) index_b0 index_dwi =
    '(b0, dwi) ← identify_loop bvecs its1 index_b0 index_dwi;
    identify_loop bvecs its2 b0 dwi.
Proof.
  revert index_b0 index_dwi.
  induction its1 as [|t its1 IH]; intros index_b0 index_dwi; [done|].
  cbn [app identify_loop].
  destruct (Py.index bvecs (Z.of_nat t)) as [row|e]; [|done]. cbn.
  destruct (is_b0 row) as [[]|e]; [| |done]; cbn; apply IH.
Qed.

(** The loop on a table that has rows for the first time indices only. *)
Lemma identify_short {F} `{PyFloat F} (bvecs : list (list F)) (nt : nat) :
  length bvecs < nt → Forall has_norm bvecs → identify bvecs nt = Raise IndexError.
Proof.
  intros Hlt Hrows. unfold identify.
  replace nt with (length bvecs + S (nt - length bvecs - 1)) by lia.
  rewrite seq_app, identify_loop_app.
  assert (identify bvecs (length bvecs) =
            Ok (filter (λ t, b0_row bvecs t) (seq 0 (length bvecs)),
                filter (λ t, ¬ b0_row bvecs t) (seq 0 (length bvecs)))) as Hpre.
  { apply identify_filter; [done|]. by rewrite take_ge by lia. }
  unfold identify in Hpre. rewrite Hpre. cbn [mbind result_bind seq identify_loop].
  rewrite index_nat_None; [done|]. by apply lookup_ge_None_2.
Qed.

(** X1. A table written nx3 (its first row has three entries) with fewer
    rows than the series has volumes is not classified.  Whatever its rows
    hold the classifier raises, without a message; and when its rows have
    a norm, the loop reads [bvecs[it]] up to the first row that is missing
    and raises [IndexError] there. *)
Theorem identify_short_table {F} `{PyFloat F} {mat} (bvecs : list (list F)) (nt : nat)
    (row0 : list F) (s : state (mat:=mat)) :
  bvecs !! 0 = Some row0 → length row0 = 3 → length bvecs < nt →
  (∃ e, identify_b0_dwi bvecs nt s = (s, Raise e) ∧
        (e = IndexError ∨ e = OverflowError ∨ e = ValueError)) ∧
  (Forall has_norm bvecs → identify_b0_dwi bvecs nt s = (s, Raise IndexError)).
Proof.
  intros Hrow0 Hw Hlt.
  assert (identify_b0_dwi bvecs nt s = (s, identify bvecs nt)) as ->.
  { unfold identify_b0_dwi, mbind, ST_bind.
    change 0%Z with (Z.of_nat 0). rewrite (index_nat_Some _ _ _ Hrow0).
    cbn. rewrite Hw. cbn. by destruct (identify bvecs nt). }
  split.
  - destruct (identify bvecs nt) as [[index_b0 index_dwi]|e] eqn:Hid.
    + apply identify_Ok in Hid as [Hle _]. lia.
    + exists e. split; [done|]. by eapply identify_loop_raises.
  - intros Hrows. by rewrite identify_short.
Qed.

Lemma identify_short_table_witness :
  Sample.bvecs4 !! 0 = Some [0;0;0]%float ∧ length Sample.bvecs4 < 5 ∧
  Forall has_norm Sample.bvecs4 ∧
  (∃ e, identify_b0_dwi Sample.bvecs4 5 (Sample.start Sample.param0)
          = (Sample.start Sample.param0, Raise e) ∧
        (e = IndexError ∨ e = OverflowError ∨ e = ValueError)) ∧
  (Forall has_norm Sample.bvecs4 →
   identify_b0_dwi Sample.bvecs4 5 (Sample.start Sample.param0)
     = (Sample.start Sample.param0, Raise IndexError)).
Proof.
  split; [reflexivity|]. split; [cbn; lia|].
  split; [repeat constructor; eexists; apply norm_Ok; vm_compute; reflexivity|].
  apply (identify_short_table Sample.bvecs4 5 [0;0;0]%float); [reflexivity|reflexivity|].
  cbn. lia.
Defined.

Lemma filter_ext_elem {A} (P Q : A → Prop) `{∀ x, Decision (P x)} `{∀ x, Decision (Q x)}
    (l : list A) :
  (∀ x, x ∈ l → P x ↔ Q x) → filter P l = filter Q l.
Proof.
  induction l as [|x l IH]; intros Hext; [done|].
  rewrite !filter_cons.
  rewrite IH by (intros y Hy; apply Hext; by right).
  destruct (decide (P x)) as [Hp|Hp], (decide (Q x)) as [Hq|Hq]; try done.
  - destruct Hq. apply Hext; [by left|done].
  - destruct Hp. apply Hext; [by left|done].
Qed.

Lemma identify_loop_take {F} `{PyFloat F} (bvecs : list (list F)) (nt : nat)
    (its index_b0 index_dwi : list nat) :
  (∀ t, t ∈ its → t < nt) →
  identify_loop (take nt bvecs) its index_b0 index_dwi
    = identify_loop bvecs its index_b0 index_dwi.
Proof.
  revert index_b0 index_dwi.
  induction its as [|t its IH]; intros index_b0 index_dwi Hits; [done|].
  cbn [identify_loop].
  assert (Py.index (take nt bvecs) (Z.of_nat t) = Py.index bvecs (Z.of_nat t)) as ->.
  { assert (take nt bvecs !! t = bvecs !! t) as Ht
      by (apply lookup_take_lt, Hits; left).
    destruct (bvecs !! t) as [row|] eqn:Hrow.
    - by rewrite (index_nat_Some _ _ _ Ht), (index_nat_Some _ _ _ Hrow).
    - by rewrite (index_nat_None _ _ Ht), (index_nat_None _ _ Hrow). }
  destruct (Py.index bvecs (Z.of_nat t)) as [row|e]; [|done]. cbn.
  destruct (is_b0 row) as [[]|e]; [| |done]; cbn;
    apply IH; intros t' Ht'; apply Hits; by right.
Qed.

(** X2. In a table written nx3 (its first row has three entries), for a
    series of at least one volume, the rows after the first [nt] are never
    read: the classifier does on the table what it does on the table cut
    to its first [nt] rows, so that a table longer than the series is
    accepted silently. *)
Theorem identify_ignores_rows_after_nt {F} `{PyFloat F} {mat} (bvecs : list (list F))
    (nt : nat) (row0 : list F) (s : state (mat:=mat)) :
  bvecs !! 0 = Some row0 → length row0 = 3 → 0 < nt →
  identify_b0_dwi bvecs nt s = identify_b0_dwi (take nt bvecs) nt s.
Proof.
  intros Hrow0 Hw Hnt.
  assert (take nt bvecs !! 0 = Some row0) as Hrow0' by (by rewrite lookup_take_lt).
  unfold identify_b0_dwi, mbind, ST_bind.
  change 0%Z with (Z.of_nat 0).
  rewrite (index_nat_Some _ _ _ Hrow0), (index_nat_Some _ _ _ Hrow0').
  cbn. rewrite Hw. cbn. unfold identify.
  rewrite identify_loop_take; [done|]. intros t Ht%elem_of_seq. lia.
Qed.

Lemma identify_ignores_rows_after_nt_witness :
  Sample.bvecs10 !! 0 = Some [0;0;0]%float ∧
  identify_b0_dwi Sample.bvecs10 4 (Sample.start Sample.param0)
    = identify_b0_dwi (take 4 Sample.bvecs10) 4 (Sample.start Sample.param0).
Proof.
  split; [reflexivity|].
  apply (identify_ignores_rows_after_nt Sample.bvecs10 4 [0;0;0]%float);
    [reflexivity | reflexivity | lia].
Defined.

(** ** The transposition *)

Lemma zip_star_three {A} (xs ys zs : list A) (t : nat) x y z :
  xs !! t = Some x → ys !! t = Some y → zs !! t = Some z →
  Py.zip_star [xs; ys; zs] !! t = Some [x; y; z].
Proof.
  intros Hx Hy Hz. cbn [Py.zip_star].
  apply lookup_zip_with_Some. exists x, [y; z]. split; [done|]. split; [done|].
  apply lookup_zip_with_Some. exists y, [z]. split; [done|]. split; [done|].
  by rewrite list_lookup_fmap, Hz.
Qed.

Lemma zip_star_three_length {A} (xs ys zs : list A) (n : nat) :
  length xs = n → length ys = n → length zs = n →
  length (Py.zip_star [xs; ys; zs]) = n.
Proof.
  intros Hx Hy Hz. cbn [Py.zip_star].
  rewrite !length_zip_with, length_fmap. lia.
Qed.

(** X3. A table written 3xn, three rows of [nt] entries with [nt] other
    than 3, whose columns have a norm, is transposed with a warning and
    classified by its columns: time index [t] is b=0 exactly when the
    Euclidean norm of the vector made of the [t]-th entries of the three
    rows is below 0.01, and DWI exactly when it is not. *)
Theorem transposed_table_classifies_columns {F} `{PyFloat F} {mat}
    (xs ys zs : list F) (nt : nat) (s : state (mat:=mat)) :
  length xs = nt → length ys = nt → length zs = nt → nt ≠ 3 →
  (∀ t x y z, xs !! t = Some x → ys !! t = Some y → zs !! t = Some z →
     has_norm [x; y; z]) →
  ∃ index_b0 index_dwi,
    identify_b0_dwi [xs; ys; zs] nt s = (warned s, Ok (index_b0, index_dwi)) ∧
    ∀ t x y z, xs !! t = Some x → ys !! t = Some y → zs !! t = Some z →
      (t ∈ index_b0 ↔ ∃ n, euclidean_norm [x; y; z] n ∧ flt n f_0_01 = true) ∧
      (t ∈ index_dwi ↔ ∃ n, euclidean_norm [x; y; z] n ∧ flt n f_0_01 = false).
Proof.
  intros Hx Hy Hz Hnt Hcols.
  pose proof (zip_star_three_length xs ys zs nt Hx Hy Hz) as Hlen.
  assert (∀ t, t < nt → ∃ x y z, xs !! t = Some x ∧ ys !! t = Some y ∧
                                 zs !! t = Some z) as Hcol.
  { intros t Ht.
    destruct (lookup_lt_is_Some_2 xs t) as [x Htx]; [lia|].
    destruct (lookup_lt_is_Some_2 ys t) as [y Hty]; [lia|].
    destruct (lookup_lt_is_Some_2 zs t) as [z Htz]; [lia|]. eauto 6. }
  eexists _, _. split.
  - unfold identify_b0_dwi, mbind, ST_bind.
    change 0%Z with (Z.of_nat 0).
    rewrite (index_nat_Some [xs; ys; zs] 0 xs eq_refl).
    cbn -[Py.zip_star identify length].
    destruct (Nat.eqb_spec (length xs) 3) as [|_]; [congruence|].
    cbn -[Py.zip_star identify].
    rewrite (identify_filter (Py.zip_star [xs; ys; zs]) nt); [done|lia|].
    apply Forall_lookup_2. intros t row Hrow.
    assert (t < nt) as Ht.
    { apply lookup_lt_Some in Hrow. rewrite length_take in Hrow. lia. }
    rewrite lookup_take_lt in Hrow by done.
    destruct (Hcol t Ht) as (x & y & z & Htx & Hty & Htz).
    rewrite (zip_star_three xs ys zs t x y z Htx Hty Htz) in Hrow.
    injection Hrow as <-. eauto.
  - intros t x y z Htx Hty Htz.
    assert (t < nt) as Hlt by (rewrite <- Hx; by eapply lookup_lt_Some).
    pose proof (zip_star_three xs ys zs t x y z Htx Hty Htz) as Hrow.
    pose proof (Hcols t x y z Htx Hty Htz) as Hn.
    rewrite elem_of_index_b0, elem_of_index_dwi.
    pose proof (b0_row_below _ t _ Hrow Hn) as Hb. unfold below_0_01 in Hb.
    destruct Hn as [n Hn].
    assert (∀ n', euclidean_norm [x; y; z] n' → n' = n) as Hfun.
    { intros n' Hn'. apply norm_Ok in Hn, Hn'. congruence. }
    split.
    + rewrite <- Hb. intuition lia.
    + split.
      * intros [_ Hf]. exists n. split; [done|].
        destruct (flt n f_0_01) eqn:Hlt'; [|done].
        assert (b0_row (Py.zip_star [xs; ys; zs]) t = true) by (apply Hb; eauto).
        congruence.
      * intros (n' & Hn' & Hf). split; [done|].
        apply not_true_is_false. intros Hrow'.
        apply Hb in Hrow' as (n'' & Hn'' & Hf'').
        rewrite (Hfun n' Hn') in Hf. rewrite (Hfun n'' Hn'') in Hf''. congruence.
Qed.

Lemma transposed_table_classifies_columns_witness :
  (∀ t x y z, [0;1]%float !! t = Some x → [0;0]%float !! t = Some y →
     [0;0]%float !! t = Some z → has_norm [x; y; z]) ∧
  ∃ index_b0 index_dwi,
    identify_b0_dwi [[0;1];[0;0];[0;0]]%float 2 (Sample.start Sample.param0)
      = (warned (Sample.start Sample.param0), Ok (index_b0, index_dwi)) ∧
    ∀ t x y z, [0;1]%float !! t = Some x → [0;0]%float !! t = Some y →
      [0;0]%float !! t = Some z →
      (t ∈ index_b0 ↔ ∃ n, euclidean_norm [x; y; z] n ∧ flt n f_0_01 = true) ∧
      (t ∈ index_dwi ↔ ∃ n, euclidean_norm [x; y; z] n ∧ flt n f_0_01 = false).
Proof.
  assert (∀ t x y z, [0;1]%float !! t = Some x → [0;0]%float !! t = Some y →
            [0;0]%float !! t = Some z → has_norm [x; y; z]) as Hcols.
  { intros [|[|t]] x y z; cbn; intros [= <-] [= <-] [= <-];
      eexists; apply norm_Ok; vm_compute; reflexivity. }
  split; [exact Hcols|].
  apply (transposed_table_classifies_columns [0;1]%float [0;0]%float [0;0]%float 2
           (Sample.start Sample.param0)); [reflexivity|reflexivity|reflexivity|lia|exact Hcols].
Defined.

(** ** Group sizes *)

Lemma build_groups_inv (index_dwi : list nat) (g nb_groups : Z)
    (group_indexes : list (list nat)) :
  (0 < g)%Z →
  build_groups index_dwi (Z.of_nat (length index_dwi)) g = Ok (nb_groups, group_indexes) →
  let n := length index_dwi in
  let size := Z.to_nat g in
  nb_groups = Z.of_nat (length group_indexes) ∧
  group_indexes =
    ((λ i, take size (drop (i * size) index_dwi)) <$> seq 0 (n / size)) ++
    (if decide (n `mod` size = 0) then [] else [drop (n - n `mod` size) index_dwi]).
Proof.
  intros Hg Hb n size.
  assert (0 < size) as Hsize by (subst size; lia).
  pose proof (build_groups_pos index_dwi size Hsize) as Hb'. cbn zeta in Hb'.
  replace (Z.of_nat size) with g in Hb' by (subst size; lia).
  rewrite Hb in Hb'. injection Hb' as -> ->. done.
Qed.

Lemma build_groups_negative (index_dwi : list nat) (g : Z) :
  (g < 0)%Z →
  let n_dwi := Z.of_nat (length index_dwi) in
  build_groups index_dwi n_dwi g = Ok ((n_dwi / g)%Z, []) ∧ (n_dwi / g ≤ 0)%Z.
Proof.
  intros Hg n_dwi.
  pose proof (Z.mod_neg_bound n_dwi g Hg) as Hm.
  assert (n_dwi / g ≤ 0)%Z as Hq.
  { pose proof (Z.div_mod n_dwi g ltac:(lia)) as Hdm. subst n_dwi. nia. }
  split; [|done]. unfold build_groups.
  destruct (Z.eqb_spec g 0) as [|_]; [lia|].
  unfold Py.range. replace (Z.to_nat (n_dwi / g)) with 0 by lia. cbn [seq fmap list_fmap].
  destruct (Z.ltb_spec 0 (n_dwi `mod` g)) as [|_]; [lia|]. done.
Qed.

(** X4. A negative group size is not rejected: the builder returns no
    group and a number of groups that is not positive, and the expansion
    then copies no matrix at all. *)
Theorem negative_group_size_builds_no_group {mat} (index_dwi : list nat) (g : Z) :
  (g < 0)%Z →
  ∃ nb_groups,
    build_groups index_dwi (Z.of_nat (length index_dwi)) g = Ok (nb_groups, []) ∧
    (nb_groups ≤ 0)%Z ∧
    ∀ (nz : nat) (mat_final : string) (fs : gmap matfile mat),
      copy_groups nb_groups [] nz mat_final fs = (fs, Ok tt).
Proof.
  intros Hg. destruct (build_groups_negative index_dwi g Hg) as [Hb Hle].
  eexists. split; [exact Hb|]. split; [exact Hle|].
  intros nz mat_final fs. unfold copy_groups, Py.range.
  by replace (Z.to_nat (Z.of_nat (length index_dwi) / g)) with 0 by lia.
Qed.

Lemma negative_group_size_builds_no_group_witness :
  (-3 < 0)%Z ∧
  ∃ nb_groups,
    build_groups [1;2;3;5;6;7;8] 7 (-3) = Ok (nb_groups, []) ∧
    (nb_groups ≤ 0)%Z ∧
    ∀ (nz : nat) (mat_final : string) (fs : gmap matfile string),
      copy_groups nb_groups [] nz mat_final fs = (fs, Ok tt).
Proof.
  split; [lia|].
  apply (negative_group_size_builds_no_group (mat:=string) [1;2;3;5;6;7;8] (-3)). lia.
Defined.

(** X5. For a positive group size the number of groups is the ceiling of
    [n_dwi / size], no group is empty or longer than the size, the groups
    hold the DWI indices and nothing else, and when no DWI index is
    repeated no index is in two groups. *)
Theorem groups_partition (index_dwi : list nat) (g nb_groups : Z)
    (group_indexes : list (list nat)) :
  (0 < g)%Z →
  build_groups index_dwi (Z.of_nat (length index_dwi)) g = Ok (nb_groups, group_indexes) →
  nb_groups = ((Z.of_nat (length index_dwi) + g - 1) / g)%Z ∧
  (∀ grp, grp ∈ group_indexes → grp ≠ [] ∧ (Z.of_nat (length grp) ≤ g)%Z) ∧
  (∀ t, t ∈ index_dwi ↔ ∃ grp, grp ∈ group_indexes ∧ t ∈ grp) ∧
  (NoDup index_dwi →
   ∀ i j grp grp' t, group_indexes !! i = Some grp → group_indexes !! j = Some grp' →
     t ∈ grp → t ∈ grp' → i = j).
Proof.
  intros Hg Hb.
  destruct (build_groups_concat _ _ _ _ Hg Hb) as [Hnb Hcat].
  destruct (build_groups_inv _ _ _ _ Hg Hb) as [_ Hgroups]. cbn zeta in Hgroups.
  set (n := length index_dwi) in *. set (size := Z.to_nat g) in *.
  assert (0 < size) as Hsize by (subst size; lia).
  pose proof (Nat.mod_upper_bound n size ltac:(lia)) as Hr.
  pose proof (Nat.div_mod_eq n size) as Hdm.
  split; [|split; [|split]].
  - rewrite Hnb, Hgroups, length_app, length_fmap, length_seq.
    replace g with (Z.of_nat size) by (subst size; lia).
    destruct (decide (n `mod` size = 0)) as [Hz|Hnz]; cbn [length].
    + apply Z.div_unique with (r := (Z.of_nat size - 1)%Z); [lia|]. nia.
    + apply Z.div_unique with (r := (Z.of_nat (n `mod` size) - 1)%Z); [lia|]. nia.
  - intros grp Hin. rewrite Hgroups in Hin.
    apply elem_of_app in Hin as [Hin|Hin].
    + apply list_elem_of_fmap in Hin as (i & -> & Hi%elem_of_seq).
      assert (length (take size (drop (i * size) index_dwi)) = size) as Hlen
        by (apply chunk_length; fold n; nia).
      split; [|lia]. intros Hnil. rewrite Hnil in Hlen. cbn in Hlen. lia.
    + destruct (decide (n `mod` size = 0)) as [Hz|Hnz]; [by apply elem_of_nil in Hin|].
      apply list_elem_of_singleton in Hin as ->.
      assert (length (drop (n - n `mod` size) index_dwi) = n `mod` size) as Hlen
        by (rewrite length_drop; fold n; lia).
      split; [|lia]. intros Hnil. rewrite Hnil in Hlen. cbn in Hlen. lia.
  - intros t. by rewrite <- Hcat, elem_of_concat.
  - intros Hnd i j grp grp' t Hi Hj Ht Ht'.
    destruct (decide (i = j)) as [|Hne]; [done|]. exfalso.
    rewrite <- Hcat in Hnd.
    by eapply (NoDup_concat_disjoint group_indexes i j grp grp' t).
Qed.

Lemma groups_partition_witness :
  (0 < 3)%Z ∧
  3%Z = ((7 + 3 - 1) / 3)%Z ∧
  (∀ grp, grp ∈ [[1;2;3];[5;6;7];[8]] → grp ≠ [] ∧ (Z.of_nat (length grp) ≤ 3)%Z) ∧
  (∀ t, t ∈ [1;2;3;5;6;7;8] ↔ ∃ grp, grp ∈ [[1;2;3];[5;6;7];[8]] ∧ t ∈ grp) ∧
  (NoDup [1;2;3;5;6;7;8] →
   ∀ i j grp grp' t, [[1;2;3];[5;6;7];[8]] !! i = Some grp →
     [[1;2;3];[5;6;7];[8]] !! j = Some grp' → t ∈ grp → t ∈ grp' → i = j).
Proof.
  split; [lia|].
  apply (groups_partition [1;2;3;5;6;7;8] 3 3 [[1;2;3];[5;6;7];[8]]); [lia|reflexivity].
Defined.

(** ** After the expansion and the bridging *)

(** X6. After the expansion every volume of a group holds, slice by
    slice, the matrix estimated for its group, so that two volumes of one
    group hold the same matrices; the files outside [mat_final/] are
    untouched. *)
Theorem expansion_shares_group_matrix {mat} (index_dwi : list nat) (g nb_groups : Z)
    (group_indexes : list (list nat)) (nz : nat) (fs : gmap matfile mat) :
  NoDup index_dwi → (0 < g)%Z →
  build_groups index_dwi (Z.of_nat (length index_dwi)) g = Ok (nb_groups, group_indexes) →
  (∀ i z, i < length group_indexes → z < nz → is_Some (fs !! (mat_dwigroups, i, z))) →
  ∃ fs1, copy_groups nb_groups group_indexes nz "mat_final/" fs = (fs1, Ok tt) ∧
    (∀ i grp t z, group_indexes !! i = Some grp → t ∈ grp → z < nz →
       fs1 !! ("mat_final/", t, z) = fs !! (mat_dwigroups, i, z)) ∧
    (∀ i grp t t' z, group_indexes !! i = Some grp → t ∈ grp → t' ∈ grp → z < nz →
       fs1 !! ("mat_final/", t, z) = fs1 !! ("mat_final/", t', z)) ∧
    (∀ folder t z, folder ≠ "mat_final/" → fs1 !! (folder, t, z) = fs !! (folder, t, z)).
Proof.
  intros Hnd Hg Hb Hfs.
  destruct (build_groups_concat _ _ _ _ Hg Hb) as [-> Hcat].
  destruct (copy_groups_spec group_indexes nz "mat_final/" fs) as (fs1 & Hrun & Hgrp & Hrest);
    [done|by rewrite Hcat|done|].
  exists fs1. split; [done|]. split; [done|]. split.
  - intros i grp t t' z Hi Ht Ht' Hz.
    by rewrite (Hgrp i grp t z), (Hgrp i grp t' z).
  - intros folder t z Hne. apply Hrest. cbn. tauto.
Qed.

Lemma expansion_shares_group_matrix_witness :
  ∃ fs1, copy_groups 3 [[1;2;3];[5;6;7];[8]] 1 "mat_final/" Sample.after_passes = (fs1, Ok tt) ∧
    (∀ i grp t z, [[1;2;3];[5;6;7];[8]] !! i = Some grp → t ∈ grp → z < 1 →
       fs1 !! ("mat_final/", t, z) = Sample.after_passes !! (mat_dwigroups, i, z)) ∧
    (∀ i grp t t' z, [[1;2;3];[5;6;7];[8]] !! i = Some grp → t ∈ grp → t' ∈ grp → z < 1 →
       fs1 !! ("mat_final/", t, z) = fs1 !! ("mat_final/", t', z)) ∧
    (∀ folder t z, folder ≠ "mat_final/" →
       fs1 !! (folder, t, z) = Sample.after_passes !! (folder, t, z)).
Proof.
  apply (expansion_shares_group_matrix [1;2;3;5;6;7;8] 3 3 [[1;2;3];[5;6;7];[8]] 1
           Sample.after_passes).
  - apply (bool_decide_unpack (NoDup [1;2;3;5;6;7;8])). vm_compute. exact I.
  - lia.
  - reflexivity.
  - intros i z Hi Hz. apply after_passes_dwigroups; [exact Hi|exact Hz].
Defined.

(** X7. The bridging writes the files of the b=0 volumes only: the
    matrices of the DWI volumes are those the expansion left, all b=0
    volumes hold the same matrix in each slice, and the folders of the two
    estimation passes are untouched. *)
Theorem bridging_writes_b0_only {F} `{PyFloat F} {mat} (bvecs : list (list F))
    (nt nz : nat) (g nb_groups : Z) (index_b0 index_dwi : list nat)
    (group_indexes : list (list nat)) (fs : gmap matfile mat) :
  identify bvecs nt = Ok (index_b0, index_dwi) →
  index_b0 ≠ [] → index_dwi ≠ [] → (0 < g)%Z →
  build_groups index_dwi (Z.of_nat (length index_dwi)) g = Ok (nb_groups, group_indexes) →
  (∀ i z, i < length group_indexes → z < nz → is_Some (fs !! (mat_dwigroups, i, z))) →
  ∃ fs1 fs2,
    copy_groups nb_groups group_indexes nz "mat_final/" fs = (fs1, Ok tt) ∧
    copy_bridge index_b0 index_dwi nz "mat_final/" fs1 = (fs2, Ok tt) ∧
    (∀ t z, t ∈ index_dwi → fs2 !! ("mat_final/", t, z) = fs1 !! ("mat_final/", t, z)) ∧
    (∀ b b' z, b ∈ index_b0 → b' ∈ index_b0 → z < nz →
       fs2 !! ("mat_final/", b, z) = fs2 !! ("mat_final/", b', z)) ∧
    (∀ folder t z, folder ≠ "mat_final/" → fs2 !! (folder, t, z) = fs !! (folder, t, z)).
Proof.
  intros Hid Hb0 Hdwi Hg Hb Hfs.
  destruct (expansion_and_bridging bvecs nt nz g nb_groups index_b0 index_dwi
              group_indexes fs Hid Hb0 Hdwi Hg Hb Hfs)
    as (fs1 & fs2 & i & d & b & Hrun1 & Hrun2 & _ & Hrest & _ & _ & _ & _ & _ & Hcp).
  apply identify_Ok in Hid as (_ & -> & ->).
  exists fs1, fs2. split; [done|]. split; [done|]. split; [|split].
  - intros t z Ht. destruct (Hcp ("mat_final/", t, z)) as [_ Hk]. apply Hk. cbn.
    intros (_ & Hin & _). by eapply index_disjoint.
  - intros b1 b2 z H1 H2 Hz.
    destruct (Hcp ("mat_final/", b1, z)) as [Hk1 _].
    destruct (Hcp ("mat_final/", b2, z)) as [Hk2 _].
    rewrite Hk1, Hk2; done.
  - intros folder t z Hne.
    destruct (Hcp (folder, t, z)) as [_ Hk]. rewrite Hk by (cbn; tauto).
    apply Hrest. cbn. tauto.
Qed.

Lemma bridging_writes_b0_only_witness :
  ∃ fs1 fs2,
    copy_groups 3 [[1;2;3];[5;6;7];[8]] 1 "mat_final/" Sample.after_passes = (fs1, Ok tt) ∧
    copy_bridge [0;4;9] [1;2;3;5;6;7;8] 1 "mat_final/" fs1 = (fs2, Ok tt) ∧
    (∀ t z, t ∈ [1;2;3;5;6;7;8] →
       fs2 !! ("mat_final/", t, z) = fs1 !! ("mat_final/", t, z)) ∧
    (∀ b b' z, b ∈ [0;4;9] → b' ∈ [0;4;9] → z < 1 →
       fs2 !! ("mat_final/", b, z) = fs2 !! ("mat_final/", b', z)) ∧
    (∀ folder t z, folder ≠ "mat_final/" →
       fs2 !! (folder, t, z) = Sample.after_passes !! (folder, t, z)).
Proof.
  apply (bridging_writes_b0_only Sample.bvecs10 10 1 3 3 [0;4;9] [1;2;3;5;6;7;8]
           [[1;2;3];[5;6;7];[8]] Sample.after_passes).
  - reflexivity.
  - done.
  - done.
  - lia.
  - reflexivity.
  - apply after_passes_dwigroups.
Defined.

(** ** Copies that return *)

Section Returned.
Context {mat : Type}.
Implicit Types (fs : gmap matfile mat).

Lemma grown_refl folder fs : grown folder fs fs.
Proof. by split. Qed.

Lemma grown_trans folder fs1 fs2 fs3 :
  grown folder fs1 fs2 → grown folder fs2 fs3 → grown folder fs1 fs3.
Proof.
  intros [Hk1 Ho1] [Hk2 Ho2]. split; [auto|].
  intros k Hk. by rewrite Ho2, Ho1.
Qed.

Lemma cp_Ok src dst fs fs' :
  cp src dst fs = (fs', Ok tt) →
  is_Some (fs !! src) ∧ is_Some (fs' !! dst) ∧ grown dst.1.1 fs fs'.
Proof.
  unfold cp. destruct (fs !! src) as [m|] eqn:Hsrc; [|done].
  destruct (decide (src = dst)); [done|]. intros [= <-].
  split; [done|]. split; [by rewrite lookup_insert_eq|]. split.
  - intros k Hk. destruct (decide (dst = k)) as [->|Hne].
    + by rewrite lookup_insert_eq.
    + by rewrite lookup_insert_ne.
  - intros k Hk. rewrite lookup_insert_ne; [done|]. by intros <-.
Qed.

(** A loop that returns, when each round lets the files grow in [folder]
    only and leaves [Q x] true, which growing keeps true. *)
Lemma for_returned {A} (l : list A) (body : A → ST (gmap matfile mat) unit)
    (folder : string) (Q : A → gmap matfile mat → Prop) fs fs' :
  (∀ x fs1 fs2, Q x fs1 → grown folder fs1 fs2 → Q x fs2) →
  (∀ x fs1 fs2, x ∈ l → body x fs1 = (fs2, Ok tt) → grown folder fs1 fs2 ∧ Q x fs2) →
  for_ l body fs = (fs', Ok tt) →
  grown folder fs fs' ∧ ∀ x, x ∈ l → Q x fs'.
Proof.
  intros Hstable. revert fs. induction l as [|x l IH]; intros fs Hbody Hrun.
  - injection Hrun as <-. split; [apply grown_refl|]. by intros x Hx%elem_of_nil.
  - cbn [for_] in Hrun. destruct (body x fs) as [fs1 [[]|e]] eqn:Hx;
      [|by rewrite (bind_Raise _ _ _ _ _ Hx) in Hrun].
    rewrite (bind_Ok _ _ _ _ _ Hx) in Hrun.
    destruct (Hbody x fs fs1 ltac:(left) Hx) as [Hgrow1 Hq1].
    destruct (IH fs1) as [Hgrow Hq]; [|done|].
    { intros y fs2 fs3 Hy. apply Hbody. by right. }
    split; [by eapply grown_trans|].
    intros y [->|Hy]%elem_of_cons; [by eapply Hstable|auto].
Qed.

(** A loop that raises, raises what one of its rounds raises. *)
Lemma for_Raise {S A} (E : exn → Prop) (l : list A) (body : A → ST S unit) (s : S) e :
  (∀ x s1 e1, x ∈ l → (body x s1).2 = Raise e1 → E e1) →
  (for_ l body s).2 = Raise e → E e.
Proof.
  revert s. induction l as [|x l IH]; intros s Hbody Hrun; [done|].
  cbn [for_] in Hrun. destruct (body x s) as [s1 [[]|e1]] eqn:Hx.
  - rewrite (bind_Ok _ _ _ _ _ Hx) in Hrun. apply (IH s1); [|done].
    intros y s2 e2 Hy. apply Hbody. by right.
  - rewrite (bind_Raise _ _ _ _ _ Hx) in Hrun. injection Hrun as <-.
    apply (Hbody x s e1); [by left|by rewrite Hx].
Qed.

Lemma copy_groups_returned (groups : list (list nat)) (nz : nat) (mat_final : string)
    fs fs' :
  copy_groups (Z.of_nat (length groups)) groups nz mat_final fs = (fs', Ok tt) →
  grown mat_final fs fs' ∧
  (∀ t z, t ∈ concat groups → z < nz → is_Some (fs' !! (mat_final, t, z))) ∧
  (∀ i grp z, groups !! i = Some grp → grp ≠ [] → z < nz →
     is_Some (fs' !! (mat_dwigroups, i, z))).
Proof.
  unfold copy_groups. rewrite range_nat. intros Hrun.
  apply (for_returned _ _ mat_final
           (λ i fs2, ∀ grp t z, groups !! i = Some grp → t ∈ grp → z < nz →
              is_Some (fs2 !! (mat_final, t, z)) ∧
              is_Some (fs2 !! (mat_dwigroups, i, z)))) in Hrun as [Hgrow Hq].
  - split; [done|]. split.
    + intros t z (grp & Hgrp & Ht)%elem_of_concat Hz.
      apply list_elem_of_lookup in Hgrp as [i Hi].
      eapply (Hq i); [apply elem_of_seq; apply lookup_lt_Some in Hi; lia|done..].
    + intros i grp z Hi Hne Hz. destruct grp as [|t grp]; [done|].
      eapply (Hq i); [apply elem_of_seq; apply lookup_lt_Some in Hi; lia|done| |done].
      by left.
  - intros i fs1 fs2 Hq [Hkeep _] grp t z Hgrp Ht Hz.
    destruct (Hq grp t z Hgrp Ht Hz). auto.
  - intros i fs1 fs2 Hi%elem_of_seq.
    destruct (lookup_lt_is_Some_2 groups i) as [grp Hgrp]; [lia|]. intros Hbody.
    rewrite (bind_Ok _ _ fs1 fs1 grp) in Hbody
      by (unfold lift; by rewrite (index_nat_Some _ _ _ Hgrp)).
    rewrite range_nat in Hbody.
    apply (for_returned _ _ mat_final
             (λ j fs2, ∀ t z, grp !! j = Some t → z < nz →
                is_Some (fs2 !! (mat_final, t, z)) ∧
                is_Some (fs2 !! (mat_dwigroups, i, z)))) in Hbody as [Hgrow Hq].
    + split; [done|]. intros grp' t z Hgrp' Ht Hz.
      assert (grp' = grp) as -> by congruence.
      apply list_elem_of_lookup in Ht as [j Hj].
      eapply (Hq j); [apply elem_of_seq; apply lookup_lt_Some in Hj; lia|done..].
    + intros j fs3 fs4 Hq [Hkeep _] t z Ht Hz. destruct (Hq t z Ht Hz). auto.
    + intros j fs3 fs4 Hj%elem_of_seq.
      destruct (lookup_lt_is_Some_2 grp j) as [t Ht]; [lia|]. intros Hinner.
      rewrite range_nat in Hinner.
      apply (for_returned _ _ mat_final
               (λ z fs2, is_Some (fs2 !! (mat_final, t, z)) ∧
                         is_Some (fs2 !! (mat_dwigroups, i, z)))) in Hinner as [Hgrow Hq].
      * split; [done|]. intros t' z Ht' Hz.
        assert (t' = t) as -> by congruence.
        apply (Hq z). apply elem_of_seq. lia.
      * intros z fs5 fs6 [? ?] [Hkeep _]. auto.
      * intros z fs5 fs6 _ Hcp.
        rewrite (bind_Ok _ _ fs5 fs5 grp) in Hcp
          by (unfold lift; by rewrite (index_nat_Some _ _ _ Hgrp)).
        rewrite (bind_Ok _ _ fs5 fs5 t) in Hcp
          by (unfold lift; by rewrite (index_nat_Some _ _ _ Ht)).
        apply cp_Ok in Hcp as (Hsrc & Hdst & Hgrow). split; [done|].
        split; [done|]. by apply Hgrow.
Qed.

Lemma copy_groups_raises (groups : list (list nat)) (nz : nat) (mat_final : string)
    fs e :
  (copy_groups (Z.of_nat (length groups)) groups nz mat_final fs).2 = Raise e →
  e = EngineFailure.
Proof.
  unfold copy_groups. rewrite range_nat.
  apply (for_Raise (λ e, e = EngineFailure)). intros i fs1 e1 Hi%elem_of_seq.
  destruct (lookup_lt_is_Some_2 groups i) as [grp Hgrp]; [lia|].
  rewrite (bind_Ok _ _ fs1 fs1 grp)
    by (unfold lift; by rewrite (index_nat_Some _ _ _ Hgrp)).
  rewrite range_nat. apply (for_Raise (λ e, e = EngineFailure)).
  intros j fs2 e2 Hj%elem_of_seq.
  destruct (lookup_lt_is_Some_2 grp j) as [t Ht]; [lia|].
  apply (for_Raise (λ e, e = EngineFailure)). intros z fs3 e3 _.
  rewrite (bind_Ok _ _ fs3 fs3 grp)
    by (unfold lift; by rewrite (index_nat_Some _ _ _ Hgrp)).
  rewrite (bind_Ok _ _ fs3 fs3 t)
    by (unfold lift; by rewrite (index_nat_Some _ _ _ Ht)).
  unfold cp. destruct (fs3 !! _); [case_decide|]; cbn; congruence.
Qed.


End Returned.

(** X8. When the matrix of one slice of a group that has a volume is
    missing, the expansion does not go on without it: it stops with the
    failure of the [cp] command. *)
Theorem expansion_needs_every_group_matrix {mat} (groups : list (list nat)) (nz : nat)
    (fs : gmap matfile mat) (i z : nat) (grp : list nat) :
  groups !! i = Some grp → grp ≠ [] → z < nz →
  fs !! (mat_dwigroups, i, z) = None →
  (copy_groups (Z.of_nat (length groups)) groups nz "mat_final/" fs).2
    = Raise EngineFailure.
Proof.
  intros Hgrp Hne Hz Hmissing.
  destruct (copy_groups (Z.of_nat (length groups)) groups nz "mat_final/" fs)
    as [fs' [[]|e]] eqn:Hrun; cbn [snd].
  - apply copy_groups_returned in Hrun as ([_ Hout] & _ & Hsrc).
    specialize (Hsrc i grp z Hgrp Hne Hz).
    rewrite Hout, Hmissing in Hsrc by done. by destruct Hsrc.
  - f_equal. apply (copy_groups_raises groups nz "mat_final/" fs). by rewrite Hrun.
Qed.

Lemma expansion_needs_every_group_matrix_witness :
  [[1;2;3];[5;6;7];[8]] !! 2 = Some [8] ∧
  Sample.after_b0_pass !! (mat_dwigroups, 2, 0) = None ∧
  (copy_groups 3 [[1;2;3];[5;6;7];[8]] 1 "mat_final/" Sample.after_b0_pass).2
    = Raise EngineFailure.
Proof.
  split; [reflexivity|]. split; [reflexivity|].
  apply (expansion_needs_every_group_matrix [[1;2;3];[5;6;7];[8]] 1 Sample.after_b0_pass
           2 0 [8]); [reflexivity|done|lia|reflexivity].
Defined.



(** ** The renaming after the identification *)

Lemma after_passes_b0groups (r z : nat) :
  is_Some (Sample.after_passes !! (mat_b0groups, r, z)) ↔ r < 3 ∧ z < 1.
Proof.
  split.
  - intros [m Hm]. apply elem_of_list_to_map_2 in Hm. cbn in Hm.
    rewrite !elem_of_cons, elem_of_nil in Hm.
    decompose [or] Hm; try done; simplify_eq; lia.
  - intros [Hr Hz]. assert (z = 0) as -> by lia.
    destruct r as [|[|[|r]]]; [by eexists..|lia].
Qed.

Lemma StronglySorted_lt_NoDup (l : list nat) : StronglySorted lt l → NoDup l.
Proof.
  induction 1 as [|x l Hl IH Hall]; constructor; [|done].
  intros Hin. eapply Forall_forall in Hall; [|exact Hin]. lia.
Qed.

(** X10. After the identification, the renaming puts the matrix of every
    b=0 rank under the time index of its volume when each b=0 index is
    its own rank or is at least the number of b=0 volumes. *)
Theorem renaming_realigns_b0_matrices {F} `{PyFloat F} {mat} (bvecs : list (list F))
    (nt nz : nat) (index_b0 index_dwi : list nat) (fs : gmap matfile mat) :
  identify bvecs nt = Ok (index_b0, index_dwi) →
  (∀ r b, index_b0 !! r = Some b → b = r ∨ length index_b0 ≤ b) →
  (∀ r z, is_Some (fs !! (mat_b0groups, r, z)) ↔ r < length index_b0 ∧ z < nz) →
  ∃ fs', rename_b0 index_b0 fs = (fs', Ok tt) ∧
    ∀ r b z, index_b0 !! r = Some b → z < nz →
      fs' !! (mat_b0groups, b, z) = fs !! (mat_b0groups, r, z).
Proof.
  intros Hid Hfar Hpass. apply (rename_b0_realigns index_b0 nz fs); [|done..].
  apply identify_Ok in Hid as (_ & -> & _).
  apply StronglySorted_lt_NoDup, index_b0_sorted.
Qed.

Lemma renaming_realigns_b0_matrices_witness :
  ∃ fs', rename_b0 [0;4;9] Sample.after_passes = (fs', Ok tt) ∧
    ∀ r b z, [0;4;9] !! r = Some b → z < 1 →
      fs' !! (mat_b0groups, b, z) = Sample.after_passes !! (mat_b0groups, r, z).
Proof.
  apply (renaming_realigns_b0_matrices Sample.bvecs10 10 1 [0;4;9] [1;2;3;5;6;7;8]
           Sample.after_passes).
  - reflexivity.
  - intros r b Hr. destruct r as [|[|[|r]]]; cbn in Hr; [injection Hr as <-..|done];
      cbn; lia.
  - apply after_passes_b0groups.
Defined.

(** ** Names of files *)

Lemma pretty_N_char_zero (x : N) : (0 < x < 10)%N → pretty_N_char x ≠ "0"%char.
Proof.
  intros Hx.
  assert (x = 1 ∨ x = 2 ∨ x = 3 ∨ x = 4 ∨ x = 5 ∨ x = 6 ∨ x = 7 ∨ x = 8 ∨ x = 9)%N
    as Hcases by lia.
  destruct_or!; subst x; done.
Qed.

Lemma pretty_N_go_leading (x : N) (s : string) :
  (0 < x)%N → ∃ c r, pretty_N_go x s = String c r ∧ c ≠ "0"%char.
Proof.
  revert s. induction (N.lt_wf_0 x) as [x _ IH]; intros s Hpos.
  rewrite pretty_N_go_step by done.
  destruct (N.eq_dec (x `div` 10)%N 0%N) as [Hz|Hq%N.neq_0_lt_0].
  - rewrite Hz, pretty_N_go_0. eexists _, _. split; [done|].
    apply pretty_N_char_zero. split.
    + assert (x `mod` 10 = x)%N as -> by (apply N.mod_small, N.div_small_iff; [done|done]). done.
    + by apply N.mod_lt.
  - apply IH; [by apply N.div_lt|done].
Qed.

Lemma str_leading_zero (n : nat) (r : string) : Py.str n = String "0" r → r = "".
Proof.
  unfold Py.str, pretty, pretty_nat, pretty, pretty_N.
  case_decide as Hn; [by intros [= <-]|].
  destruct (pretty_N_go_leading (N.of_nat n) "" ltac:(lia)) as (c & r' & -> & Hc).
  intros [= -> _]. done.
Qed.

Lemma str_nonempty (n : nat) : Py.str n ≠ "".
Proof.
  unfold Py.str, pretty, pretty_nat, pretty, pretty_N.
  case_decide as Hn; [done|].
  destruct (pretty_N_go_leading (N.of_nat n) "" ltac:(lia)) as (c & r' & -> & Hc). done.
Qed.

Lemma zeros_app_inj (a a' : nat) (s s' : string) :
  s ≠ "" → s' ≠ "" →
  (∀ r, s = String "0" r → r = "") → (∀ r, s' = String "0" r → r = "") →
  Py.zeros a +:+ s = Py.zeros a' +:+ s' → s = s'.
Proof.
  intros Hs Hs' Hz Hz'. revert a'.
  induction a as [|a IH]; intros [|a'] Heq; cbn in Heq.
  - done.
  - pose proof (Hz _ Heq) as Hnil.
    destruct (Py.zeros a') as [|]; cbn in Hnil; [done|done].
  - symmetry in Heq. pose proof (Hz' _ Heq) as Hnil.
    destruct (Py.zeros a) as [|]; cbn in Hnil; [by symmetry in Hnil|done].
  - injection Heq as Heq. by apply (IH a').
Qed.

Lemma volume_inj (file_data : string) (t t' : nat) :
  volume file_data t = volume file_data t' → t = t'.
Proof.
  unfold volume, Py.zfill. intros Heq.
  apply (inj (String.append file_data)) in Heq. cbn in Heq.
  injection Heq as Heq.
  apply zeros_app_inj in Heq.
  - by apply (inj pretty).
  - apply str_nonempty.
  - apply str_nonempty.
  - apply str_leading_zero.
  - apply str_leading_zero.
Qed.

(** X11. In one folder, two different pairs of a volume and a slice never
    get the same matrix file name. *)
Theorem matrix_names_are_distinct (folder : string) (t z t' z' : nat) :
  (t, z) ≠ (t', z') → mat_path (folder, t, z) ≠ mat_path (folder, t', z').
Proof. intros Hne Heq. apply mat_path_inj in Heq as [-> ->]. done. Qed.

Lemma matrix_names_are_distinct_witness :
  (1, 11) ≠ (11, 1) ∧ mat_path ("mat_final/", 1, 11) ≠ mat_path ("mat_final/", 11, 1).
Proof.
  split; [discriminate|]. apply (matrix_names_are_distinct "mat_final/" 1 11 11 1).
  discriminate.
Defined.

(** X12. Two different volumes never get the same [fslsplit] name, also
    beyond the four digits the names are padded to. *)
Theorem volume_names_are_distinct (file_data : string) (t t' : nat) :
  t ≠ t' → volume file_data t ≠ volume file_data t'.
Proof. intros Hne Heq. by apply volume_inj in Heq. Qed.

Lemma volume_names_are_distinct_witness :
  7 ≠ 12 ∧ volume "dmri" 7 ≠ volume "dmri" 12.
Proof.
  split; [lia|]. apply (volume_names_are_distinct "dmri" 7 12). lia.
Defined.

(** ** A series without b=0 volume *)

Lemma index_empty {A} (i : Z) : Py.index (@nil A) i = Raise IndexError.
Proof.
  unfold Py.index. rewrite lookup_nil. by repeat case_match.
Qed.

Lemma b0_target_no_b0 (file_data : string) (index_dwi : list nat) :
  b0_target file_data [] index_dwi = Raise IndexError.
Proof.
  unfold b0_target. destruct (Py.index index_dwi 0) as [d|e] eqn:Hd;
    unfold mbind, result_bind.
  - destruct (negb (d =? 0)); by rewrite index_empty.
  - by rewrite (index_raises _ _ _ Hd).
Qed.

Lemma estimate_b0_no_b0 {F} `{PyFloat F} {mat} (w : world (F:=F) (mat:=mat))
    (file_data : string) (index_dwi : list nat) (s : state (mat:=mat)) :
  ∃ s', estimate_b0 w file_data [] index_dwi s = (s', Raise IndexError) ∧
        st_trace s' = st_trace s.
Proof.
  unfold estimate_b0, mbind, ST_bind, lift. cbn -[b0_target].
  rewrite b0_target_no_b0. eauto.
Qed.

Section NoB0.
Context {F : Type} `{PyFloat F} {mat : Type}.
Variable w : world (F:=F) (mat:=mat).
Hypothesis sh_ok : ∀ cmd, sh w cmd = true.
Hypothesis moco_ok : ∀ p fs, is_Some (moco w p fs).

(** X13. A series without b=0 volume is not rejected either.  When every
    volume is classified DWI, the group size is not zero and the external
    commands succeed, the script splits the series, runs the merge of the
    b=0 volumes on no volume and its average, builds the groups, runs the
    merge and average commands of the DWI stream on the groups it loops
    over, calls the registration engine for the pass on the DWI groups,
    and then raises [IndexError] while it chooses the target of the b=0
    pass, before the engine is called for that pass. *)
Theorem zero_b0_run (fname_data_initial : string) (s s1 : state (mat:=mat))
    (index_dwi : list nat) :
  fname_bvals (st_param s) = "" →
  identify_b0_dwi (read_bvecs w (fname_bvecs (st_param s)))
      (get_dimension w (fname_data (st_param s))).2 s
    = (s1, Ok ([], index_dwi)) →
  dwi_group_size (st_param s) ≠ 0%Z →
  let r := dmri_moco w fname_data_initial s in
  let series := fname_data (st_param s) in
  let file_data := (extract_fname w series).1.2 in
  ∃ (nb_groups : Z) (group_indexes : list (list nat)) (p : param),
    build_groups index_dwi (Z.of_nat (length index_dwi)) (dwi_group_size (st_param s))
      = Ok (nb_groups, group_indexes) ∧
    r.2 = Raise IndexError ∧
    st_trace r.1 = st_trace s1 ++
      [Run (fslsplit series file_data);
       Run (fslmerge "b0" []);
       Run (fslmaths_Tmean "b0" "b0_mean")] ++
      (Run <$> dwi_stream file_data (take (Z.to_nat nb_groups) group_indexes)) ++
      [Moco p] ∧
    fname_data p = "dwi_averaged_groups.nii" ∧ fname_target p = "dwi_mean_0" ∧
    todo p = "estimate_and_apply" ∧ mat_moco p = "mat_dwigroups" ∧
    interp p = "trilinear" ∧
    moco_calls (st_trace r.1) =
      moco_calls (st_trace s) ++
        [("dwi_averaged_groups.nii", "estimate_and_apply", "trilinear")].
Proof.
  intros _ Hid Hg. cbn zeta.
  set (series := fname_data (st_param s)) in *.
  set (r := dmri_moco w fname_data_initial s).
  assert (r = (let '(path_data, file_data, ext_data) := extract_fname w series in
               let '(nx, ny, nz, nt) := get_dimension w series in
    (split_and_average_b0 w series file_data [] (Z.of_nat (length (@nil nat)));;
     '(nb_groups, group_indexes) ←
       lift (build_groups index_dwi (Z.of_nat (length index_dwi))
               (dwi_group_size (st_param s)));
     average_groups w file_data nb_groups group_indexes;;
     estimate_dwi_groups w;;
     estimate_b0 w file_data [] index_dwi;;
     propagate nb_groups group_indexes [] index_dwi nz "mat_final/";;
     combine w "mat_final/" nt nz (verbose (st_param s)) [];;
     apply_all w fname_data_initial "mat_final/" (interp (st_param s))) s1)) as Hr.
  { unfold r, dmri_moco. rewrite (bind_Ok _ _ s s (st_param s)) by done.
    fold series. revert Hid.
    destruct (extract_fname w series) as [[path_data fd] ext_data].
    destruct (get_dimension w series) as [[[nx ny] nz] nt]. cbn [snd].
    intros Hid. by rewrite (bind_Ok _ _ _ _ _ Hid). }
  clearbody r. revert Hid Hr.
  destruct (extract_fname w series) as [[path_data file_data] ext_data].
  destruct (get_dimension w series) as [[[nx ny] nz] nt]. cbn [fst snd].
  intros Hid Hr.
  destruct (split_and_average_b0_Ok w sh_ok series file_data [] s1)
    as (s2 & Hs2 & Htr2).
  rewrite (bind_Ok _ _ _ _ _ Hs2) in Hr.
  assert (∃ nb_groups group_indexes,
            build_groups index_dwi (Z.of_nat (length index_dwi)) (dwi_group_size (st_param s))
              = Ok (nb_groups, group_indexes) ∧
            Z.to_nat nb_groups ≤ length group_indexes) as (nb & groups & Hb & Hnb).
  { destruct (Z.lt_trichotomy (dwi_group_size (st_param s)) 0) as [Hneg|[?|Hpos]]; [|done|].
    - destruct (build_groups_negative index_dwi _ Hneg) as [Hb Hle].
      eexists _, _. split; [exact Hb|]. cbn. lia.
    - destruct (build_groups index_dwi (Z.of_nat (length index_dwi))
                  (dwi_group_size (st_param s))) as [[nb groups]|e] eqn:Hb.
      + destruct (build_groups_concat _ _ _ _ Hpos Hb) as [-> _].
        eexists _, _. split; [done|]. lia.
      + pose proof (build_groups_pos index_dwi (Z.to_nat (dwi_group_size (st_param s)))
                      ltac:(lia)) as Hb'. cbn zeta in Hb'.
        rewrite Z2Nat.id in Hb' by lia. congruence. }
  rewrite (bind_Ok _ _ s2 s2 (nb, groups)) in Hr by (unfold lift; by rewrite Hb).
  destruct (average_groups_Ok w sh_ok file_data nb groups s2 Hnb) as (s3 & Hs3 & Htr3).
  rewrite (bind_Ok _ _ _ _ _ Hs3) in Hr.
  destruct (estimate_dwi_groups_Ok w moco_ok s3) as (s4 & p & Hs4 & Htr4 & Hp).
  rewrite (bind_Ok _ _ _ _ _ Hs4) in Hr.
  destruct (estimate_b0_no_b0 w file_data index_dwi s4) as (s5 & Hs5 & Htr5).
  rewrite (bind_Raise _ _ _ _ _ Hs5) in Hr.
  exists nb, groups, p. rewrite Hr. cbn [fst snd].
  assert (st_trace s5 = st_trace s1 ++
            [Run (fslsplit series file_data);
             Run (fslmerge "b0" []);
             Run (fslmaths_Tmean "b0" "b0_mean")] ++
            (Run <$> dwi_stream file_data (take (Z.to_nat nb) groups)) ++
            [Moco p]) as Htr.
  { rewrite Htr5, Htr4, Htr3, Htr2, <- !app_assoc. done. }
  split; [done|]. split; [done|]. split; [done|].
  destruct Hp as (Hp1 & Hp2 & Hp3 & Hp4 & Hp5).
  split; [done|]. split; [done|]. split; [done|]. split; [done|]. split; [done|].
  pose proof (quiet_identify_b0_dwi (mat:=mat)
                (read_bvecs w (fname_bvecs (st_param s))) nt s) as Hq1.
  rewrite Hid in Hq1. cbn [fst] in Hq1.
  rewrite Htr, !moco_calls_app, Hq1. f_equal.
  assert (moco_calls (Run <$> dwi_stream file_data (take (Z.to_nat nb) groups)) = [])
    as ->.
  { generalize (dwi_stream file_data (take (Z.to_nat nb) groups)).
    intros l. by induction l. }
  unfold moco_calls. cbn. by rewrite Hp1, Hp3, Hp5.
Qed.

End NoB0.

Lemma zero_b0_run_witness :
  let w := Sample.collaborators SampleRun.bvecs_dwi_only 2 Sample.volumes10 (λ _, false) in
  let s := Sample.start Sample.param0 in
  fname_bvals (st_param s) = "" ∧
  identify_b0_dwi SampleRun.bvecs_dwi_only 2 s = (s, Ok ([], [0;1])) ∧
  let r := dmri_moco w "dmri.nii" s in
  ∃ (nb_groups : Z) (group_indexes : list (list nat)) (p : param),
    build_groups [0;1] 2 3 = Ok (nb_groups, group_indexes) ∧
    r.2 = Raise IndexError ∧
    st_trace r.1 = st_trace s ++
      [Run (fslsplit "dmri.nii" "dmri");
       Run (fslmerge "b0" []);
       Run (fslmaths_Tmean "b0" "b0_mean")] ++
      (Run <$> dwi_stream "dmri" (take (Z.to_nat nb_groups) group_indexes)) ++
      [Moco p] ∧
    fname_data p = "dwi_averaged_groups.nii" ∧ fname_target p = "dwi_mean_0" ∧
    todo p = "estimate_and_apply" ∧ mat_moco p = "mat_dwigroups" ∧
    interp p = "trilinear" ∧
    moco_calls (st_trace r.1) =
      moco_calls (st_trace s) ++
        [("dwi_averaged_groups.nii", "estimate_and_apply", "trilinear")].
Proof.
  split; [reflexivity|]. split; [reflexivity|].
  apply (zero_b0_run (Sample.collaborators SampleRun.bvecs_dwi_only 2 Sample.volumes10 (λ _, false))
           (λ _, eq_refl) (λ p fs, mk_is_Some _ _ eq_refl)
           "dmri.nii" (Sample.start Sample.param0) (Sample.start Sample.param0) [0;1]).
  - reflexivity.
  - reflexivity.
  - done.
Defined.

(** The commands of that run, as the shell is given them. *)
Example zero_b0_commands :
  let w := Sample.collaborators SampleRun.bvecs_dwi_only 2 Sample.volumes10 (λ _, false) in
  commands (st_trace (dmri_moco w "dmri.nii" (Sample.start Sample.param0)).1) =
    ["export FSLOUTPUTTYPE=NIFTI; fslsplit dmri.nii dmri_T";
     "export FSLOUTPUTTYPE=NIFTI; fslmerge -t b0";
     "export FSLOUTPUTTYPE=NIFTI; fslmaths b0 -Tmean b0_mean";
     "export FSLOUTPUTTYPE=NIFTI; fslmerge -t dwi_0 dmri_T0000 dmri_T0001";
     "export FSLOUTPUTTYPE=NIFTI; fslmaths dwi_0 -Tmean dwi_mean_0";
     "export FSLOUTPUTTYPE=NIFTI; fslmerge -t dwi_averaged_groups dwi_mean_0";
     "export FSLOUTPUTTYPE=NIFTI; fslmaths dwi_averaged_groups -Tmean dwi_mean"].
Proof. vm_compute. reflexivity. Qed.

(** ** The command line *)

Lemma proc_bind_Returns {S A B} (c : Proc S A) (k : A → Proc S B) (s s' : S) (a : A) :
  c s = (s', Returns a) → (c ≫= k) s = k a s'.
Proof. intros Hc. unfold mbind, Proc_bind. by rewrite Hc. Qed.

Lemma proc_bind_Stops {S A B} (c : Proc S A) (k : A → Proc S B) (s s' : S) (e : stop) :
  c s = (s', Stops e) → (c ≫= k) s = (s', Stops e).
Proof. intros Hc. unfold mbind, Proc_bind. by rewrite Hc. Qed.

Section MainFacts.
Context {F : Type} `{PyFloat F} {mat : Type}.
Variable w : world (F:=F) (mat:=mat).
Variable sys : system (F:=F) (mat:=mat).
Implicit Types (m : process (F:=F) (mat:=mat)).

Lemma script_gets {A} (f : state (mat:=mat) → A) m :
  script (gets f) m = (m, Returns (f (pr_script m))).
Proof. by destruct m. Qed.

Lemma syscall_Returns (c : syscall) m :
  syscall_ c m =
    ({| pr_script := pr_script m; pr_options := pr_options m;
        pr_calls := pr_calls m ++ [c] |}, Returns tt).
Proof. done. Qed.

(** What one round of the option loop does. *)
Lemma read_option_spec (opt arg : string) m :
  opt ∈ option_names →
  ∃ m' r, read_option sys opt arg m = (m', r) ∧
    st_trace (pr_script m') = st_trace (pr_script m) ∧
    st_fs (pr_script m') = st_fs (pr_script m) ∧
    pr_calls m' = pr_calls m ∧
    (r = Returns tt ∨ r = Stops (SystemExit 2) ∨ r = Stops (Uncaught ValueError)) ∧
    (opt ≠ "-i" →
       fname_data (st_param (pr_script m')) = fname_data (st_param (pr_script m))) ∧
    (opt ≠ "-b" →
       fname_bvecs (st_param (pr_script m')) = fname_bvecs (st_param (pr_script m))) ∧
    (opt ≠ "-o" →
       path_out (st_param (pr_script m')) = path_out (st_param (pr_script m))) ∧
    (opt = "-o" → r = Returns tt ∧ path_out (st_param (pr_script m')) = arg).
Proof.
  intros Hopt. unfold option_names in Hopt.
  repeat (apply elem_of_cons in Hopt as [->|Hopt]); [..|by apply elem_of_nil in Hopt];
    unfold read_option; cbn -[int_of float_of];
    try (unfold int_of; destruct (py_int sys arg) as [n|]; cbn);
    try (unfold float_of; destruct (py_float sys arg) as [x|]; cbn);
    eexists _, _; (split; [reflexivity|]); cbn; repeat split; auto; try done.
Qed.

(** The option loop, when no option is [-i], [-b] or [-o]. *)
Lemma read_loop_spec (opts : list (string * string)) m :
  Forall (λ oa, oa.1 ∈ option_names) opts →
  ∃ m' r, for_each opts (λ oa, read_option sys oa.1 oa.2) m = (m', r) ∧
    st_trace (pr_script m') = st_trace (pr_script m) ∧
    st_fs (pr_script m') = st_fs (pr_script m) ∧
    pr_calls m' = pr_calls m ∧
    (r = Returns tt ∨ r = Stops (SystemExit 2) ∨ r = Stops (Uncaught ValueError)) ∧
    ("-i" ∉ opts.*1 →
       fname_data (st_param (pr_script m')) = fname_data (st_param (pr_script m))) ∧
    ("-b" ∉ opts.*1 →
       fname_bvecs (st_param (pr_script m')) = fname_bvecs (st_param (pr_script m))) ∧
    ("-o" ∉ opts.*1 →
       path_out (st_param (pr_script m')) = path_out (st_param (pr_script m))).
Proof.
  intros Hnames. revert m. induction Hnames as [|[opt arg] opts Hopt _ IH]; intros m.
  - exists m, (Returns tt). cbn. by repeat split; auto.
  - cbn [for_each fst snd].
    destruct (read_option_spec opt arg m Hopt)
      as (m1 & r1 & Hr1 & Htr1 & Hfs1 & Hc1 & Hcases1 & Hi1 & Hb1 & Ho1 & _).
    destruct r1 as [[]|e].
    + rewrite (proc_bind_Returns _ _ _ _ _ Hr1).
      destruct (IH m1) as (m' & r & Hr & Htr & Hfs & Hc & Hcases & Hi & Hb & Ho).
      exists m', r. split; [done|]. rewrite Htr, Hfs, Hc.
      do 4 (split; [done|]). cbn [fmap list_fmap fst].
      split; [|split]; intros Hnot%not_elem_of_cons.
      * rewrite Hi, Hi1; [done|destruct Hnot; first [done|congruence]..].
      * rewrite Hb, Hb1; [done|destruct Hnot; first [done|congruence]..].
      * rewrite Ho, Ho1; [done|destruct Hnot; first [done|congruence]..].
    + rewrite (proc_bind_Stops _ _ _ _ _ Hr1). exists m1, (Stops e).
      split; [done|]. do 3 (split; [done|]). split; [done|].
      cbn [fmap list_fmap fst].
      split; [|split]; intros [Hne _]%not_elem_of_cons;
        [apply Hi1|apply Hb1|apply Ho1]; congruence.
Qed.

(** The option loop with an option [-o] that no other [-o] follows. *)
Lemma read_loop_output (opts1 opts2 : list (string * string)) (arg : string) m m' :
  Forall (λ oa, oa.1 ∈ option_names) (opts1 ++ ("-o", arg) :: opts2) →
  "-o" ∉ opts2.*1 →
  for_each (opts1 ++ ("-o", arg) :: opts2) (λ oa, read_option sys oa.1 oa.2) m
    = (m', Returns tt) →
  path_out (st_param (pr_script m')) = arg.
Proof.
  revert m. induction opts1 as [|[opt a] opts1 IH]; intros m Hnames Hlast Hrun.
  - cbn [app for_each fst snd] in Hrun.
    apply Forall_cons in Hnames as [Hopt Hnames].
    destruct (read_option_spec "-o" arg m Hopt)
      as (m1 & r1 & Hr1 & _ & _ & _ & _ & _ & _ & _ & Ho).
    destruct (Ho eq_refl) as [-> Hout].
    rewrite (proc_bind_Returns _ _ _ _ _ Hr1) in Hrun.
    destruct (read_loop_spec opts2 m1 Hnames)
      as (m2 & r2 & Hr2 & _ & _ & _ & _ & _ & _ & Hkeep).
    rewrite Hr2 in Hrun. injection Hrun as -> _. by rewrite Hkeep.
  - cbn [app for_each fst snd] in Hrun.
    apply Forall_cons in Hnames as [Hopt Hnames].
    destruct (read_option_spec opt a m Hopt) as (m1 & r1 & Hr1 & _).
    destruct r1 as [[]|e].
    + rewrite (proc_bind_Returns _ _ _ _ _ Hr1) in Hrun. by apply (IH m1).
    + by rewrite (proc_bind_Stops _ _ _ _ _ Hr1) in Hrun.
Qed.

(** The run of [read_options] that returns. *)
Lemma read_options_Returns (argv : list string) m m' :
  read_options sys argv m = (m', Returns tt) →
  ∃ opts m0 m1,
    getopt sys argv = Some opts ∧
    path_out (st_param (pr_script m0)) = path_out (st_param (pr_script m)) ∧
    for_each opts (λ oa, read_option sys oa.1 oa.2) m0 = (m1, Returns tt) ∧
    path_out (st_param (pr_script m')) = path_out (st_param (pr_script m1)).
Proof.
  unfold read_options. intros Hrun.
  rewrite (proc_bind_Returns _ _ _ _ _ (syscall_Returns _ m)) in Hrun.
  set (mg := {| pr_script := pr_script m; pr_options := pr_options m;
                pr_calls := pr_calls m ++ [GetStatusOutput "echo $SCT_DIR"] |}) in *.
  destruct (getstatusoutput sys "echo $SCT_DIR") as [status path_sct].
  rewrite (proc_bind_Returns _ _ mg mg (pr_options mg)) in Hrun by done.
  match type of Hrun with ((?c ≫= _) mg = _) =>
    assert (∃ m0, c mg = (m0, Returns tt) ∧
              path_out (st_param (pr_script m0)) = path_out (st_param (pr_script m)))
      as (m0 & Hm0 & Hout0) end.
  { destruct (Py.truthy (debug (pr_options mg))); [|by exists mg].
    eexists. split; [reflexivity|]. done. }
  rewrite (proc_bind_Returns _ _ _ _ _ Hm0) in Hrun.
  destruct (getopt sys argv) as [opts|]; [|done].
  rewrite (proc_bind_Returns _ _ m0 m0 opts) in Hrun by done.
  destruct (for_each opts (λ oa, read_option sys oa.1 oa.2) m0) as [m1 [[]|e]] eqn:Hloop;
    [|by rewrite (proc_bind_Stops _ _ _ _ _ Hloop) in Hrun].
  rewrite (proc_bind_Returns _ _ _ _ _ Hloop) in Hrun.
  rewrite (proc_bind_Returns _ _ _ _ _ (script_gets st_param m1)) in Hrun.
  exists opts, m0, m1. do 3 (split; [done|]).
  destruct (String.eqb (fname_data (st_param (pr_script m1))) "" ||
            String.eqb (fname_bvecs (st_param (pr_script m1))) "").
  - unfold mbind, Proc_bind in Hrun. cbn in Hrun. done.
  - rewrite (proc_bind_Returns _ _ m1 m1 tt) in Hrun by done.
    rewrite (proc_bind_Returns _ _ m1 m1 (pr_options m1)) in Hrun by done.
    destruct (String.eqb (cost_function_flirt (pr_options m1)) "");
      cbn in Hrun; by injection Hrun as <-.
Qed.

(** X14. Without an option [-i], or without an option [-b], [main] stops
    before it does anything with the series: with [sys.exit(2)] from
    [usage()], or with the [ValueError] of a malformed number among the
    options.  The one call it has made is the shell command
    [echo $SCT_DIR] of line 87, which is run before the options are read;
    no command of [sct.run] is run, no matrix file is touched, and no file
    check, folder change, eddy-current correction or output file is
    made. *)
Theorem main_needs_data_and_bvecs (argv : list string) (opts : list (string * string)) m :
  debug (pr_options m) = 0%Z →
  getopt sys argv = Some opts →
  Forall (λ oa, oa.1 ∈ option_names) opts →
  (fname_data (st_param (pr_script m)) = "" ∧ "-i" ∉ opts.*1) ∨
  (fname_bvecs (st_param (pr_script m)) = "" ∧ "-b" ∉ opts.*1) →
  ∃ m' e, main w sys argv m = (m', Stops e) ∧
    (e = SystemExit 2 ∨ e = Uncaught ValueError) ∧
    commands (st_trace (pr_script m')) = commands (st_trace (pr_script m)) ∧
    st_fs (pr_script m') = st_fs (pr_script m) ∧
    pr_calls m' = pr_calls m ++ [GetStatusOutput "echo $SCT_DIR"].
Proof.
  intros Hdebug Hopts Hnames Hmissing.
  assert (∃ m' e, read_options sys argv m = (m', Stops e) ∧
    (e = SystemExit 2 ∨ e = Uncaught ValueError) ∧
    commands (st_trace (pr_script m')) = commands (st_trace (pr_script m)) ∧
    st_fs (pr_script m') = st_fs (pr_script m) ∧
    pr_calls m' = pr_calls m ++ [GetStatusOutput "echo $SCT_DIR"])
    as (m' & e & Hrun & He & Hkeep).
  { unfold read_options.
    rewrite (proc_bind_Returns _ _ _ _ _ (syscall_Returns _ m)).
    set (mg := {| pr_script := pr_script m; pr_options := pr_options m;
                  pr_calls := pr_calls m ++ [GetStatusOutput "echo $SCT_DIR"] |}).
    destruct (getstatusoutput sys "echo $SCT_DIR") as [status path_sct].
    rewrite (proc_bind_Returns _ _ mg mg (pr_options mg)) by done.
    change (pr_options mg) with (pr_options m).
    rewrite Hdebug. cbn [Py.truthy Z.eqb negb].
    rewrite (proc_bind_Returns _ _ mg mg tt) by done.
    rewrite Hopts. rewrite (proc_bind_Returns _ _ mg mg opts) by done.
    destruct (read_loop_spec opts mg Hnames)
      as (m1 & r & Hr & Htr & Hfs & Hc & Hcases & Hi & Hb & _).
    change (pr_script mg) with (pr_script m) in *.
    change (pr_calls mg) with (pr_calls m ++ [GetStatusOutput "echo $SCT_DIR"]) in *.
    destruct r as [[]|e].
    - rewrite (proc_bind_Returns _ _ _ _ _ Hr).
      rewrite (proc_bind_Returns _ _ _ _ _ (script_gets st_param m1)).
      assert (String.eqb (fname_data (st_param (pr_script m1))) "" ||
              String.eqb (fname_bvecs (st_param (pr_script m1))) "" = true) as ->.
      { destruct Hmissing as [[Hd Hno]|[Hd Hno]].
        - by rewrite (Hi Hno), Hd.
        - rewrite (Hb Hno), Hd. apply orb_true_r. }
      eexists _, _. split; [reflexivity|]. split; [by left|].
      cbn. rewrite Htr, Hfs, Hc. split; [|done].
      unfold commands. rewrite bind_app. cbn. by rewrite app_nil_r.
    - rewrite (proc_bind_Stops _ _ _ _ _ Hr). exists m1, e.
      split; [done|]. split; [by destruct Hcases as [|[[= ->]|[= ->]]]; auto|].
      by rewrite Htr, Hfs, Hc. }
  exists m', e. split; [|done]. unfold main, in_tmp_folder.
  apply proc_bind_Stops. by apply proc_bind_Stops.
Qed.

(** X15. With an option [-o] whose argument is not empty (the last [-o]
    of the command line), [main] never returns.  When everything up to the
    return to the parent folder has succeeded, it stops there with
    [UnboundLocalError] on [path_out], in the state the motion correction
    left: no output file is generated and the temporary folder is not
    removed. *)
Theorem main_with_output_path_stops (argv : list string)
    (opts1 opts2 : list (string * string)) (arg : string) m :
  getopt sys argv = Some (opts1 ++ ("-o", arg) :: opts2) →
  Forall (λ oa, oa.1 ∈ option_names) (opts1 ++ ("-o", arg) :: opts2) →
  "-o" ∉ opts2.*1 →
  arg ≠ "" →
  (main w sys argv m).2 ≠ Returns tt ∧
  ∀ m' x, in_tmp_folder w sys argv m = (m', Returns x) →
    main w sys argv m = (m', Stops (UnboundLocalError "path_out")).
Proof.
  intros Hopts Hnames Hlast Harg.
  assert (∀ m' x, in_tmp_folder w sys argv m = (m', Returns x) →
            main w sys argv m = (m', Stops (UnboundLocalError "path_out"))) as Hstop.
  { intros m' x Hin. unfold main. rewrite (proc_bind_Returns _ _ _ _ _ Hin).
    assert (x.1.1.2 = None) as Hlocal.
    { unfold in_tmp_folder in Hin.
      destruct (read_options sys argv m) as [m1 [[]|e]] eqn:Hro;
        [|by rewrite (proc_bind_Stops _ _ _ _ _ Hro) in Hin].
      rewrite (proc_bind_Returns _ _ _ _ _ Hro) in Hin.
      rewrite (proc_bind_Returns _ _ _ _ _ (script_gets st_param m1)) in Hin.
      apply read_options_Returns in Hro as (opts & m0 & m1' & Hget & _ & Hloop & Hout).
      rewrite Hopts in Hget. injection Hget as <-.
      apply read_loop_output in Hloop; [|done..].
      rewrite Hout, Hloop in Hin.
      assert (String.eqb arg "" = false) as Hne by by apply String.eqb_neq.
      rewrite Hne in Hin.
      destruct (prepare w sys m1) as [m2 [[[[path_tmp file_data] ext_data] fdi]|e]] eqn:Hprep;
        [|by rewrite (proc_bind_Stops _ _ _ _ _ Hprep) in Hin].
      rewrite (proc_bind_Returns _ _ _ _ _ Hprep) in Hin.
      destruct (script (dmri_moco w fdi) m2) as [m3 [[]|e]] eqn:Hmoco;
        [|by rewrite (proc_bind_Stops _ _ _ _ _ Hmoco) in Hin].
      rewrite (proc_bind_Returns _ _ _ _ _ Hmoco) in Hin.
      cbn in Hin. by injection Hin as _ <-. }
    destruct x as [[[path_tmp path_out] file_data] ext_data]. cbn in Hlocal. subst path_out.
    apply proc_bind_Stops. unfold generate_outputs.
    rewrite (proc_bind_Returns _ _ _ _ _ (script_gets st_param m')). done. }
  split; [|done].
  destruct (in_tmp_folder w sys argv m) as [m' [x|e]] eqn:Hin.
  - by rewrite (Hstop m' x).
  - unfold main. by rewrite (proc_bind_Stops _ _ _ _ _ Hin).
Qed.

(** X16. When the preparation returns, the series it hands over for the
    final apply pass is the absolute path of the series given, its name
    and extension are those of that path, and [param.fname_data] is that
    path too, or [<name>_eddy.nii] when the eddy-current correction is
    on. *)
Theorem prepare_keeps_the_given_series m (path_tmp file_data ext_data fdi : string) :
  (prepare w sys m).2 = Returns (path_tmp, file_data, ext_data, fdi) →
  let p := st_param (pr_script m) in
  fdi = abspath sys (fname_data p) ∧
  (extract_fname w fdi).1.2 = file_data ∧
  (extract_fname w fdi).2 = ext_data ∧
  fname_data (st_param (pr_script (prepare w sys m).1)) =
    (if Py.truthy (run_eddy p) then file_data +:+ "_eddy.nii" else fdi).
Proof.
  destruct (prepare w sys m) as [m' r] eqn:Hprep. cbn [fst snd]. intros ->. revert Hprep.
  unfold prepare, check, eddy, script, run, log, syscall_, set_param, set_option, modify,
    gets, get, lift, leave, mbind, mret, Proc_bind, Proc_ret, ST_bind, ST_ret.
  cbn. intros Hrun.
  repeat (case_match; simplify_eq/=).
  all: match goal with Hx : extract_fname _ _ = _ |- _ => by rewrite Hx end.
Qed.

(** X17. When [main] returns, it has come back from the temporary folder
    with an empty output path and has then called [generate_output_file]
    three times, for the corrected series, the mean b=0 image and the mean
    DWI image, in this order and with that empty path. *)
Theorem main_returns_after_three_outputs (argv : list string) m :
  (main w sys argv m).2 = Returns tt →
  ∃ m1 path_tmp file_data ext_data,
    in_tmp_folder w sys argv m = (m1, Returns (path_tmp, Some "", file_data, ext_data)) ∧
    let p := st_param (pr_script m1) in
    pr_calls (main w sys argv m).1 = pr_calls m1 ++
      [GenerateOutputFile (path_tmp +:+ "dmri" +:+ suffix p +:+ ".nii") ""
         (file_data +:+ suffix p) ext_data (verbose p);
       GenerateOutputFile (path_tmp +:+ "b0_mean.nii") ""
         ("b0" +:+ suffix p +:+ "_mean") ext_data (verbose p);
       GenerateOutputFile (path_tmp +:+ "dwi_mean.nii") ""
         ("dwi" +:+ suffix p +:+ "_mean") ext_data (verbose p)].
Proof.
  destruct (main w sys argv m) as [m' r] eqn:Hrun. cbn [fst snd]. intros ->. revert Hrun.
  unfold main. intros Hrun.
  destruct (in_tmp_folder w sys argv m)
    as [m1 [[[[path_tmp path_out] file_data] ext_data]|e]] eqn:Hin;
    [|by rewrite (proc_bind_Stops _ _ _ _ _ Hin) in Hrun].
  rewrite (proc_bind_Returns _ _ _ _ _ Hin) in Hrun.
  assert (path_out = Some "" ∨ path_out = None) as [->| ->].
  { clear Hrun. unfold in_tmp_folder in Hin.
    destruct (read_options sys argv m) as [m0 [[]|e]] eqn:Hro;
      [|by rewrite (proc_bind_Stops _ _ _ _ _ Hro) in Hin].
    rewrite (proc_bind_Returns _ _ _ _ _ Hro) in Hin.
    rewrite (proc_bind_Returns _ _ _ _ _ (script_gets st_param m0)) in Hin.
    destruct (prepare w sys m0) as [m2 [[[[pt fd] ed] fdi]|e]] eqn:Hprep;
      [|by rewrite (proc_bind_Stops _ _ _ _ _ Hprep) in Hin].
    rewrite (proc_bind_Returns _ _ _ _ _ Hprep) in Hin.
    destruct (script (dmri_moco w fdi) m2) as [m3 [[]|e]] eqn:Hmoco;
      [|by rewrite (proc_bind_Stops _ _ _ _ _ Hmoco) in Hin].
    rewrite (proc_bind_Returns _ _ _ _ _ Hmoco) in Hin.
    cbn in Hin. injection Hin as _ _ <- _ _.
    destruct (String.eqb _ _); auto. }
  - exists m1, path_tmp, file_data, ext_data. split; [done|].
    revert Hrun.
    unfold generate_outputs, generate, delete_tmp, local, script, run, log, syscall_,
      modify, gets, get, lift, leave, mbind, mret, Proc_bind, Proc_ret, ST_bind, ST_ret.
    cbn. intros Hrun.
    repeat (case_match; simplify_eq/=); by rewrite <- !app_assoc.
  - exfalso. revert Hrun.
    unfold generate_outputs, local, leave, mbind, Proc_bind.
    rewrite (script_gets st_param m1). done.
Qed.

End MainFacts.

Lemma option_names_sample :
  Forall (λ oa : string * string, oa.1 ∈ option_names)
    [("-i", "dmri.nii"); ("-b", "bvecs.txt"); ("-o", "out/")].
Proof. repeat constructor. Qed.

Lemma main_needs_data_and_bvecs_witness :
  let w := Sample.collaborators Sample.bvecs10 10 Sample.volumes10 (λ _, false) in
  ∃ m' e, main w SampleRun.system0 ["-b"; "bvecs.txt"] SampleRun.fresh = (m', Stops e) ∧
    (e = SystemExit 2 ∨ e = Uncaught ValueError) ∧
    commands (st_trace (pr_script m')) = commands (st_trace (pr_script SampleRun.fresh)) ∧
    st_fs (pr_script m') = st_fs (pr_script SampleRun.fresh) ∧
    pr_calls m' = pr_calls SampleRun.fresh ++ [GetStatusOutput "echo $SCT_DIR"].
Proof.
  apply (main_needs_data_and_bvecs
           (Sample.collaborators Sample.bvecs10 10 Sample.volumes10 (λ _, false))
           SampleRun.system0 ["-b"; "bvecs.txt"] [("-b", "bvecs.txt")] SampleRun.fresh).
  - reflexivity.
  - reflexivity.
  - repeat constructor.
  - left. split; [reflexivity|]. apply (bool_decide_unpack _). vm_compute. exact I.
Defined.

Lemma main_with_output_path_stops_witness :
  let w := Sample.collaborators Sample.bvecs10 10 Sample.volumes10 (λ _, false) in
  let argv := ["-i"; "dmri.nii"; "-b"; "bvecs.txt"; "-o"; "out/"] in
  (in_tmp_folder w SampleRun.system0 argv SampleRun.fresh).2
    = Returns ("tmp.140815120000/", None, "dmri", ".nii") ∧
  (main w SampleRun.system0 argv SampleRun.fresh).2 ≠ Returns tt ∧
  ∀ m' x, in_tmp_folder w SampleRun.system0 argv SampleRun.fresh = (m', Returns x) →
    main w SampleRun.system0 argv SampleRun.fresh = (m', Stops (UnboundLocalError "path_out")).
Proof.
  split; [vm_compute; reflexivity|].
  apply (main_with_output_path_stops
           (Sample.collaborators Sample.bvecs10 10 Sample.volumes10 (λ _, false))
           SampleRun.system0 ["-i"; "dmri.nii"; "-b"; "bvecs.txt"; "-o"; "out/"]
           [("-i", "dmri.nii"); ("-b", "bvecs.txt")] [] "out/" SampleRun.fresh).
  - reflexivity.
  - exact option_names_sample.
  - apply (bool_decide_unpack _). vm_compute. exact I.
  - discriminate.
Defined.

Lemma prepare_keeps_the_given_series_witness :
  let w := Sample.collaborators Sample.bvecs10 10 Sample.volumes10 (λ _, false) in
  let m := {| pr_script := Sample.start (set_run_eddy 1 Sample.param0);
              pr_options := options_init; pr_calls := [] |} in
  let p := st_param (pr_script m) in
  abspath SampleRun.system0 (fname_data p) = "/data/dmri.nii" ∧
  (extract_fname w "/data/dmri.nii").1.2 = "dmri" ∧
  (extract_fname w "/data/dmri.nii").2 = ".nii" ∧
  fname_data (st_param (pr_script (prepare w SampleRun.system0 m).1)) =
    (if Py.truthy (run_eddy p) then "dmri" +:+ "_eddy.nii" else "/data/dmri.nii").
Proof.
  split; [reflexivity|].
  apply (prepare_keeps_the_given_series
           (Sample.collaborators Sample.bvecs10 10 Sample.volumes10 (λ _, false))
           SampleRun.system0
           {| pr_script := Sample.start (set_run_eddy 1 Sample.param0);
              pr_options := options_init; pr_calls := [] |}
           "tmp.140815120000/" "dmri" ".nii" "/data/dmri.nii").
  vm_compute. reflexivity.
Defined.

Lemma main_returns_after_three_outputs_witness :
  let w := Sample.collaborators Sample.bvecs10 10 Sample.volumes10 (λ _, false) in
  let argv := ["-i"; "dmri.nii"; "-b"; "bvecs.txt"] in
  (main w SampleRun.system0 argv SampleRun.fresh).2 = Returns tt ∧
  ∃ m1 path_tmp file_data ext_data,
    in_tmp_folder w SampleRun.system0 argv SampleRun.fresh
      = (m1, Returns (path_tmp, Some "", file_data, ext_data)) ∧
    let p := st_param (pr_script m1) in
    pr_calls (main w SampleRun.system0 argv SampleRun.fresh).1 = pr_calls m1 ++
      [GenerateOutputFile (path_tmp +:+ "dmri" +:+ suffix p +:+ ".nii") ""
         (file_data +:+ suffix p) ext_data (verbose p);
       GenerateOutputFile (path_tmp +:+ "b0_mean.nii") ""
         ("b0" +:+ suffix p +:+ "_mean") ext_data (verbose p);
       GenerateOutputFile (path_tmp +:+ "dwi_mean.nii") ""
         ("dwi" +:+ suffix p +:+ "_mean") ext_data (verbose p)].
Proof.
  split; [vm_compute; reflexivity|].
  apply (main_returns_after_three_outputs
           (Sample.collaborators Sample.bvecs10 10 Sample.volumes10 (λ _, false))
           SampleRun.system0 ["-i"; "dmri.nii"; "-b"; "bvecs.txt"] SampleRun.fresh).
  vm_compute. reflexivity.
Defined.
